(** * prep_files.py: rename planner, metadata planner and apply engine

    A shallow embedding of [prep_files.py] and the properties of its
    planning and apply steps.

    Conventions of the embedding.
    - A Python [str] is a Rocq [string]; its characters are the code points
      U+0000..U+00FF, classified as Python classifies them ([str.isspace],
      [\d], [\w], [str.lower]).
    - A [pathlib.Path] is the list of its parts.  Paths are POSIX paths.
      The root the program works under is resolved, the entries of a tree
      are found under their own names, and the only part that can be [..]
      is the last part of a rename target, a name rendered from a template.
    - A [dict] is an association list in insertion order, which is the order
      Python iterates it in.
    - Code that can raise returns a [result]; code that touches the file
      system, the terminal or the tag codec runs in the monad [M], a state
      monad over [World] in which an exception keeps the state reached. *)

From Stdlib Require Import List String Ascii Bool Arith NArith Lia.
From Stdlib Require Import Permutation Sorted RelationClasses OrderedTypeEx.
Import ListNotations.
Open Scope string_scope.
Open Scope list_scope.

Set Implicit Arguments.

(* ================================================================= *)
(** ** Exceptions *)

Inductive exn : Type :=
| ValueError
| KeyError
| IndexError
| OSError
| EOFError
| CodecError
| NotModelled.

Inductive result (A : Type) : Type :=
| Ok (a : A)
| Raise (e : exn).

Arguments Ok {A} a.
Arguments Raise {A} e.

Definition rbind {A B} (r : result A) (k : A -> result B) : result B :=
  match r with
  | Ok a => k a
  | Raise e => Raise e
  end.

Declare Scope result_scope.
Delimit Scope result_scope with res.
Notation "x <- c ;; k" := (rbind c (fun x => k))
  (at level 61, c at next level, right associativity) : result_scope.

Definition is_ok {A} (r : result A) : bool :=
  match r with Ok _ => true | Raise _ => false end.

(* ================================================================= *)
(** ** Python strings *)

Module Str.

Definition code (c : ascii) : N := N_of_ascii c.

Definition in_range (lo hi : N) (c : ascii) : bool :=
  ((lo <=? code c) && (code c <=? hi))%N.

(** [\d] on str patterns: the Unicode decimal digits; below U+0100 these are
    0-9 only. *)
Definition isdigit (c : ascii) : bool := in_range 48 57 c.

(** [str.isspace] and [\s]: TAB LF VT FF CR, FS GS RS US, SPACE, NEL, NBSP. *)
Definition isspace (c : ascii) : bool :=
  in_range 9 13 c || in_range 28 32 c
  || (code c =? 133)%N || (code c =? 160)%N.

(** Letters below U+0100. *)
Definition isalpha (c : ascii) : bool :=
  in_range 65 90 c || in_range 97 122 c
  || (code c =? 170)%N || (code c =? 181)%N || (code c =? 186)%N
  || in_range 192 214 c || in_range 216 246 c || in_range 248 255 c.

(** Characters with a numeric value that are not decimal digits:
    superscript 2 3 1 and the fractions 1/4 1/2 3/4. *)
Definition isnumeric_other (c : ascii) : bool :=
  (code c =? 178)%N || (code c =? 179)%N || (code c =? 185)%N
  || in_range 188 190 c.

(** [\w]: alphanumeric or underscore. *)
Definition isword (c : ascii) : bool :=
  isalpha c || isdigit c || isnumeric_other c || (code c =? 95)%N.

Definition newline : ascii := "010"%char.

(** [.] without DOTALL. *)
Definition notnewline (c : ascii) : bool := negb (Ascii.eqb c newline).

(** [str.lower] on one character: A-Z and the upper-case Latin-1 letters
    move up by 32. *)
Definition lower_char (c : ascii) : ascii :=
  if in_range 65 90 c || in_range 192 214 c || in_range 216 222 c
  then ascii_of_N (code c + 32)
  else c.

Fixpoint lower (s : string) : string :=
  match s with
  | EmptyString => EmptyString
  | String c s' => String (lower_char c) (lower s')
  end.

Fixpoint lstrip (s : string) : string :=
  match s with
  | EmptyString => EmptyString
  | String c s' => if isspace c then lstrip s' else s
  end.

Fixpoint rstrip (s : string) : string :=
  match s with
  | EmptyString => EmptyString
  | String c s' =>
      match rstrip s' with
      | EmptyString => if isspace c then EmptyString else String c EmptyString
      | r => String c r
      end
  end.

(** [s.strip()] *)
Definition strip (s : string) : string := rstrip (lstrip s).

(** Every character of [s] is of class [cls]. *)
Fixpoint all (cls : ascii -> bool) (s : string) : bool :=
  match s with
  | EmptyString => true
  | String c s' => cls c && all cls s'
  end.

(** [not s] for a str. *)
Definition is_empty (s : string) : bool :=
  match s with EmptyString => true | _ => false end.

Fixpoint contains (c : ascii) (s : string) : bool :=
  match s with
  | EmptyString => false
  | String d s' => Ascii.eqb c d || contains c s'
  end.

(** [s.split(sep)] for a one-character separator. *)
Fixpoint split (sep : ascii) (s : string) : list string :=
  match s with
  | EmptyString => [EmptyString]
  | String c s' =>
      if Ascii.eqb c sep then EmptyString :: split sep s'
      else match split sep s' with
           | [] => [String c EmptyString]
           | w :: ws => String c w :: ws
           end
  end.

(** [sep.join(l)] *)
Definition join (sep : string) (l : list string) : string := String.concat sep l.

(** [int(s)] for a str of ASCII decimal digits. *)
Definition digit_value (c : ascii) : nat := N.to_nat (code c - 48).

Fixpoint int_acc (acc : nat) (s : string) : nat :=
  match s with
  | EmptyString => acc
  | String c s' => int_acc (10 * acc + digit_value c) s'
  end.

Definition int (s : string) : nat := int_acc 0 s.

Definition digit_char (d : nat) : ascii := ascii_of_N (48 + N.of_nat d).

(** [str(n)] for a non-negative int; [fuel] bounds the number of digits. *)
Fixpoint repr_acc (fuel n : nat) (acc : string) : string :=
  match fuel with
  | O => acc
  | S fuel' =>
      let acc' := String (digit_char (n mod 10)) acc in
      if Nat.eqb (n / 10) 0 then acc' else repr_acc fuel' (n / 10) acc'
  end.

Definition repr_nat (n : nat) : string := repr_acc (S n) n EmptyString.

Fixpoint zeros (k : nat) : string :=
  match k with O => EmptyString | S k' => String "0"%char (zeros k') end.

(** [format(n, "0<w>d")]: decimal, zero-padded on the left to width [w]. *)
Definition zfill (w : nat) (n : nat) : string :=
  let d := repr_nat n in (zeros (w - String.length d) ++ d)%string.

End Str.

(* ================================================================= *)
(** ** Regular expressions

    The four patterns of the program are sequences of anchors, literal
    characters and quantified character classes, some of them named groups.
    [re_match] is Python's backtracking [Pattern.match]: the pattern is
    tried at position 0, a greedy quantifier tries its longest run first, a
    lazy one its shortest, and the first alternative under which the rest of
    the pattern matches is the result. *)

Module Re.

Inductive item : Type :=
| Bol                                   (* ^ *)
| Eol                                   (* $ *)
| WordB                                 (* \b *)
| Lit (c : ascii)                       (* a literal character *)
| Rep (cls : ascii -> bool)             (* cls{lo,hi}; hi = None: unbounded *)
      (lo : nat) (hi : option nat)
      (greedy : bool)
      (group : option string).          (* (?P<group>...) around it *)

Definition pattern : Type := list item.

(** What a match object knows: the text of every named group. *)
Definition captures : Type := list (string * string).

(** [m.group(name)]; every group of the patterns below takes part in every
    match, so the default is never returned for their names. *)
Fixpoint group (m : captures) (name : string) : string :=
  match m with
  | [] => EmptyString
  | (n, v) :: m' => if String.eqb n name then v else group m' name
  end.

(** [n] repetitions respect the upper bound [hi]. *)
Definition within (hi : option nat) (n : nat) : Prop :=
  match hi with Some h => n <= h | None => True end.

(** The runs of at most [n] characters of class [cls] at the head of [s],
    with what follows each, shortest first. *)
Fixpoint runs (cls : ascii -> bool) (n : nat) (s : string)
  : list (string * string) :=
  (EmptyString, s) ::
  match n, s with
  | S n', String c s' =>
      if cls c
      then map (fun tr => (String c (fst tr), snd tr)) (runs cls n' s')
      else []
  | _, _ => []
  end.

(** The ways [cls{lo,hi}] can match at the head of [s], in the order the
    backtracking matcher tries them. *)
Definition candidates (cls : ascii -> bool) (lo : nat) (hi : option nat)
    (greedy : bool) (s : string) : list (string * string) :=
  let bound := match hi with Some h => h | None => String.length s end in
  let ok := filter (fun tr => Nat.leb lo (String.length (fst tr))) (runs cls bound s) in
  if greedy then rev ok else ok.

Fixpoint first_some {A B} (f : A -> option B) (l : list A) : option B :=
  match l with
  | [] => None
  | a :: l' =>
      match f a with
      | Some b => Some b
      | None => first_some f l'
      end
  end.

Fixpoint last_char (s : string) (before : option ascii) : option ascii :=
  match s with
  | EmptyString => before
  | String c s' => last_char s' (Some c)
  end.

Definition word_at (c : option ascii) : bool :=
  match c with Some a => Str.isword a | None => false end.

Definition head (s : string) : option ascii :=
  match s with EmptyString => None | String c _ => Some c end.

(** [$] without MULTILINE: the end of the string, or just before a newline
    that ends the string. *)
Definition at_end (s : string) : bool :=
  match s with
  | EmptyString => true
  | String c EmptyString => Ascii.eqb c Str.newline
  | _ => false
  end.

Definition add_group (g : option string) (text : string) (m : captures)
  : captures :=
  match g with
  | Some name => m ++ [(name, text)]
  | None => m
  end.

(** [prev] is the character just before the current position ([None] at
    position 0), [s] the text from the current position on. *)
Fixpoint match_items (p : pattern) (prev : option ascii) (s : string)
    (m : captures) : option captures :=
  match p with
  | [] => Some m
  | Bol :: p' =>
      match prev with
      | None => match_items p' prev s m
      | Some _ => None
      end
  | Eol :: p' => if at_end s then match_items p' prev s m else None
  | WordB :: p' =>
      if xorb (word_at prev) (word_at (head s))
      then match_items p' prev s m else None
  | Lit c :: p' =>
      match s with
      | String d s' =>
          if Ascii.eqb c d then match_items p' (Some d) s' m else None
      | EmptyString => None
      end
  | Rep cls lo hi greedy g :: p' =>
      first_some
        (fun tr => match_items p' (last_char (fst tr) prev) (snd tr)
                               (add_group g (fst tr) m))
        (candidates cls lo hi greedy s)
  end.

(** [pattern.match(s)] *)
Definition re_match (p : pattern) (s : string) : option captures :=
  match_items p None s [].

End Re.

(** [ALBUM_DIR_PATTERN = ^(?P<year>\d{4})\s*-\s*(?P<album>.+)$] *)
Definition ALBUM_DIR_PATTERN : Re.pattern :=
  [ Re.Bol;
    Re.Rep Str.isdigit 4 (Some 4) true (Some "year");
    Re.Rep Str.isspace 0 None true None;
    Re.Lit "-";
    Re.Rep Str.isspace 0 None true None;
    Re.Rep Str.notnewline 1 None true (Some "album");
    Re.Eol ].

(** [TRACK_FILE_PATTERN = ^(?P<num>\d{1,3})\s*-\s*(?P<title>.+)$] *)
Definition TRACK_FILE_PATTERN : Re.pattern :=
  [ Re.Bol;
    Re.Rep Str.isdigit 1 (Some 3) true (Some "num");
    Re.Rep Str.isspace 0 None true None;
    Re.Lit "-";
    Re.Rep Str.isspace 0 None true None;
    Re.Rep Str.notnewline 1 None true (Some "title");
    Re.Eol ].

(** [ALBUM_PATTERN = ^(?P<album>.+?)\s*\((?P<year>\d{4})\)$] *)
Definition ALBUM_PATTERN : Re.pattern :=
  [ Re.Bol;
    Re.Rep Str.notnewline 1 None false (Some "album");
    Re.Rep Str.isspace 0 None true None;
    Re.Lit "(";
    Re.Rep Str.isdigit 4 (Some 4) true (Some "year");
    Re.Lit ")";
    Re.Eol ].

(** [TRACK_PATTERN = ^(?P<track>\d{2})\b] *)
Definition TRACK_PATTERN : Re.pattern :=
  [ Re.Bol;
    Re.Rep Str.isdigit 2 (Some 2) true (Some "track");
    Re.WordB ].

(* ================================================================= *)
(** ** pathlib *)

Definition Path : Type := list string.

Module PathLib.

Definition sep : ascii := "/"%char.

Fixpoint path_eqb (p q : Path) : bool :=
  match p, q with
  | [], [] => true
  | a :: p', b :: q' => String.eqb a b && path_eqb p' q'
  | _, _ => false
  end.

(** [p.name]: the last part, empty for a path with no part. *)
Definition name (p : Path) : string := last p EmptyString.

(** [p.parent] *)
Definition parent (p : Path) : Path := removelast p.

(** [s.rfind(".")], as a count from the left; [None] for -1. *)
Fixpoint rfind_dot (s : string) : option nat :=
  match s with
  | EmptyString => None
  | String c s' =>
      match rfind_dot s' with
      | Some i => Some (S i)
      | None => if Ascii.eqb c "."%char then Some 0 else None
      end
  end.

(** The index at which the suffix starts: the last dot, unless it is the
    first or the last character of the name. *)
Definition suffix_index (nm : string) : option nat :=
  match rfind_dot nm with
  | Some i =>
      if Nat.ltb 0 i && Nat.ltb i (String.length nm - 1) then Some i else None
  | None => None
  end.

Definition name_suffix (nm : string) : string :=
  match suffix_index nm with
  | Some i => String.substring i (String.length nm - i) nm
  | None => EmptyString
  end.

Definition name_stem (nm : string) : string :=
  match suffix_index nm with
  | Some i => String.substring 0 i nm
  | None => nm
  end.

(** [p.suffix] and [p.stem] *)
Definition suffix (p : Path) : string := name_suffix (name p).
Definition stem (p : Path) : string := name_stem (name p).

Definition valid_name (nm : string) : bool :=
  negb (Str.is_empty nm) && negb (Str.contains sep nm)
  && negb (String.eqb nm ".").

(** [p.with_name(nm)]: ValueError when [p] has no name or [nm] is empty,
    contains a separator or is a single dot (the test of Python 3.12 and
    later; older versions let a few names with a separator through). *)
Definition with_name (p : Path) (nm : string) : result Path :=
  if Str.is_empty (name p) then Raise ValueError
  else if valid_name nm then Ok (removelast p ++ [nm])
  else Raise ValueError.

Fixpoint is_prefix (p q : Path) : bool :=
  match p, q with
  | [], _ => true
  | a :: p', b :: q' => String.eqb a b && is_prefix p' q'
  | _ :: _, [] => false
  end.

(** [p.relative_to(root)]: ValueError when [p] is not under [root]. *)
Definition relative_to (p root : Path) : result Path :=
  if is_prefix root p then Ok (skipn (List.length root) p)
  else Raise ValueError.

(** [root / rel] for a relative [rel]. *)
Definition joinpath (root rel : Path) : Path := root ++ rel.

(** [str(p)] for a relative path. *)
Definition path_str (p : Path) : string :=
  match p with
  | [] => "."
  | _ => Str.join "/" p
  end.

Definition keep_part (x : string) : bool :=
  negb (Str.is_empty x) && negb (String.eqb x ".").

(** [Path(s).parts]: the text between separators, without the empty pieces
    and the single dots; a leading separator is a part of its own. *)
Definition parts_of_str (s : string) : list string :=
  match s with
  | String c _ =>
      if Ascii.eqb c sep
      then "/" :: filter keep_part (Str.split sep s)
      else filter keep_part (Str.split sep s)
  | EmptyString => []
  end.

End PathLib.

(* ================================================================= *)
(** ** str.format

    [template.format] with keyword arguments is Python's own; the planner
    is written over an arbitrary formatting function [fmt], and [py_format]
    below renders the part of the format language that the default
    templates use. *)

Inductive fvalue : Type :=
| FStr (s : string)
| FInt (n : nat).

Definition formatter : Type :=
  string -> list (string * fvalue) -> result string.

Module Format.

Fixpoint lookup (kw : list (string * fvalue)) (name : string)
  : option fvalue :=
  match kw with
  | [] => None
  | (n, v) :: kw' => if String.eqb n name then Some v else lookup kw' name
  end.

(** The text up to the first closing brace, and what follows the brace. *)
Fixpoint until_close (s : string) : option (string * string) :=
  match s with
  | EmptyString => None
  | String c s' =>
      if Ascii.eqb c "}"%char then Some (EmptyString, s')
      else match until_close s' with
           | Some (f, r) => Some (String c f, r)
           | None => None
           end
  end.

(** A replacement field [name] or [name:spec]. *)
Fixpoint split_spec (f : string) : string * option string :=
  match f with
  | EmptyString => (EmptyString, None)
  | String c f' =>
      if Ascii.eqb c ":"%char then (EmptyString, Some f')
      else let '(n, sp) := split_spec f' in (String c n, sp)
  end.

Fixpoint all_digits (n : string) : bool :=
  match n with
  | EmptyString => true
  | String c n' => Str.isdigit c && all_digits n'
  end.

Definition plain_name (n : string) : bool :=
  negb (Str.is_empty n)
  && negb (Str.contains "!"%char n) && negb (Str.contains "."%char n)
  && negb (Str.contains "["%char n) && negb (Str.contains "{"%char n)
  && match n with String c _ => negb (Str.isdigit c) | _ => true end.

(** One field: the value as it is for an empty spec, an int in decimal for
    [d] and zero-padded to width 2 for [02d].  An empty or numeric name asks
    for a positional argument, and there is none. *)
Definition render_field (kw : list (string * fvalue)) (f : string)
  : result string :=
  let '(n, sp) := split_spec f in
  if all_digits n then Raise IndexError
  else if negb (plain_name n) then Raise NotModelled
  else match lookup kw n with
       | None => Raise KeyError
       | Some (FStr s) =>
           match sp with
           | None | Some EmptyString => Ok s
           | Some _ => Raise NotModelled
           end
       | Some (FInt k) =>
           match sp with
           | None | Some EmptyString | Some "d" => Ok (Str.repr_nat k)
           | Some "02d" => Ok (Str.zfill 2 k)
           | Some _ => Raise NotModelled
           end
       end.

Fixpoint render (fuel : nat) (t : string) (kw : list (string * fvalue))
  : result string :=
  match fuel with
  | O => Raise NotModelled
  | S fuel' =>
      match t with
      | EmptyString => Ok EmptyString
      | String "{" (String "{" t') =>
          (r <- render fuel' t' kw ;; Ok (String "{" r))%res
      | String "}" (String "}" t') =>
          (r <- render fuel' t' kw ;; Ok (String "}" r))%res
      | String "}" _ => Raise ValueError
      | String "{" t' =>
          match until_close t' with
          | None => Raise ValueError
          | Some (f, rest) =>
              (v <- render_field kw f ;;
               r <- render fuel' rest kw ;;
               Ok (v ++ r)%string)%res
          end
      | String c t' => (r <- render fuel' t' kw ;; Ok (String c r))%res
      end
  end.

End Format.

(** [t.format] with keywords [kw], for templates made of text, doubled
    braces and the fields [{name}], [{name:d}], [{name:02d}];
    [NotModelled] outside them. *)
Definition py_format : formatter :=
  fun t kw => Format.render (S (String.length t)) t kw.

Definition default_album_format : string := "{album} ({year})".
Definition default_track_format : string := "{track:02d} {title}".

(* ================================================================= *)
(** ** The file system

    The tree under the file-system root, as the list of its entries: the
    absolute path of each directory and file.  The order of the list is the
    order in which the operating system enumerates the entries.  A file
    carries its content, which only the tag codec looks into. *)

Inductive Node (C : Type) : Type :=
| Dir
| File (content : C).

Arguments Dir {C}.
Arguments File {C} content.

Definition FS (C : Type) : Type := list (Path * Node C).

Module Fs.
Section WithContent.
Variable C : Type.

Fixpoint lookup (fs : FS C) (p : Path) : option (Node C) :=
  match fs with
  | [] => None
  | (q, n) :: fs' => if PathLib.path_eqb q p then Some n else lookup fs' p
  end.

(** There is an entry at [p]; the root of the file system is always
    there. *)
Definition is_entry (fs : FS C) (p : Path) : bool :=
  match p with
  | [] => true
  | _ => match lookup fs p with Some _ => true | None => false end
  end.

(** [p.is_file()], for the path of an entry. *)
Definition is_file (fs : FS C) (p : Path) : bool :=
  match lookup fs p with Some (File _) => true | _ => false end.

(** [p.is_dir()], for the path of an entry. *)
Definition is_dir (fs : FS C) (p : Path) : bool :=
  match p with
  | [] => true
  | _ => match lookup fs p with Some Dir => true | _ => false end
  end.

(** [p.exists()].  The paths the program tests are made of the parts of
    the resolved root and of names of entries, except for the last part of
    a target, which is a name rendered from a template and can be [..]:
    such a path leads to the directory above its parent, and is there
    exactly when its parent is a directory. *)
Definition exists_ (fs : FS C) (p : Path) : bool :=
  is_entry fs p
  || (String.eqb (PathLib.name p) ".." && is_dir fs (PathLib.parent p)).

Definition strictly_under (root p : Path) : bool :=
  PathLib.is_prefix root p && Nat.ltb (List.length root) (List.length p).

(** [root.rglob("*")]: every entry below [root], in enumeration order. *)
Definition rglob (fs : FS C) (root : Path) : list Path :=
  filter (strictly_under root) (map fst fs).

(** Where [p] lands when [src] becomes [dst]. *)
Definition moved (src dst p : Path) : Path :=
  if PathLib.is_prefix src p then dst ++ skipn (List.length src) p else p.

(** [src.rename(dst)], reached by the apply engine only when [src] exists
    and [dst] does not: the entry and everything below it move.  OSError
    when the parent of [dst] is not a directory, when [dst] is [src] itself
    or lies inside it, and (never reached by the engine) when [src] is
    missing or [dst] is there. *)
Definition rename (fs : FS C) (src dst : Path) : result (FS C) :=
  match src with
  | [] => Raise OSError
  | _ =>
      if negb (exists_ fs src) then Raise OSError
      else if exists_ fs dst then Raise OSError
      else if negb (is_dir fs (PathLib.parent dst)) then Raise OSError
      else if PathLib.is_prefix src dst then Raise OSError
      else Ok (map (fun e => (moved src dst (fst e), snd e)) fs)
  end.

(** Every entry is inside a directory, or at the very top. *)
Definition nested (fs : FS C) : Prop :=
  forall p x, In (p ++ [x]) (map fst fs) -> p = [] \/ lookup fs p = Some Dir.

(** A tree as a file system holds it: no path twice, every part a proper
    name, and every entry inside a directory. *)
Definition well_formed (fs : FS C) : Prop :=
  NoDup (map fst fs)
  /\ (forall p, In p (map fst fs) ->
        p <> [] /\ Forall (fun x => PathLib.valid_name x = true) p)
  /\ nested fs.

Fixpoint no_repeat (l : list Path) : bool :=
  match l with
  | [] => true
  | p :: l' => negb (existsb (PathLib.path_eqb p) l') && no_repeat l'
  end.

Definition proper_path (p : Path) : bool :=
  match p with
  | [] => false
  | _ => forallb PathLib.valid_name p
  end.

Definition in_a_dir (fs : FS C) (p : Path) : bool :=
  match PathLib.parent p with
  | [] => true
  | q => match lookup fs q with Some Dir => true | _ => false end
  end.

(** [well_formed], as a test. *)
Definition well_formedb (fs : FS C) : bool :=
  no_repeat (map fst fs)
  && forallb proper_path (map fst fs)
  && forallb (in_a_dir fs) (map fst fs).

(** Overwrite the content of the file at [p]. *)
Fixpoint write (fs : FS C) (p : Path) (c : C) : FS C :=
  match fs with
  | [] => []
  | (q, n) :: fs' =>
      if PathLib.path_eqb q p
      then (q, match n with File _ => File c | Dir => Dir end) :: fs'
      else (q, n) :: write fs' p c
  end.

End WithContent.
End Fs.

(* ================================================================= *)
(** ** Rename logic *)

Inductive Kind : Type :=
| KDir    (* kind = "dir" *)
| KFile.  (* kind = "file" *)

Definition kind_eqb (a b : Kind) : bool :=
  match a, b with
  | KDir, KDir | KFile, KFile => true
  | _, _ => false
  end.

Record RenameAction : Type := mkRename {
  kind : Kind;
  source : Path;
  target : Path
}.

Definition relative_source (a : RenameAction) : string :=
  PathLib.path_str (source a).

Definition relative_target (a : RenameAction) : string :=
  PathLib.path_str (target a).

(** A [for] loop whose body either appends one item or [continue]s. *)
Fixpoint collect {A B} (body : A -> result (option B)) (l : list A)
  : result (list B) :=
  match l with
  | [] => Ok []
  | x :: l' =>
      (r <- body x ;;
       rs <- collect body l' ;;
       Ok (match r with Some b => b :: rs | None => rs end))%res
  end.

Section Rename.
Variable C : Type.
Variable fmt : formatter.

Definition normalized_album_name (name album_format : string)
  : result (option string) :=
  match Re.re_match ALBUM_DIR_PATTERN name with
  | None => Ok None
  | Some m =>
      let album := Str.strip (Re.group m "album") in
      let year := Re.group m "year" in
      (normalized <- fmt album_format [("album", FStr album); ("year", FStr year)] ;;
       Ok (if String.eqb normalized name then None else Some normalized))%res
  end.

Definition normalized_track_name (stem track_format : string)
  : result (option string) :=
  match Re.re_match TRACK_FILE_PATTERN stem with
  | None => Ok None
  | Some m =>
      let track_no_raw := Re.group m "num" in
      let track_no := Str.int track_no_raw in
      let title := Str.strip (Re.group m "title") in
      (normalized <- fmt track_format [("track", FInt track_no); ("title", FStr title)] ;;
       Ok (if String.eqb normalized stem then None else Some normalized))%res
  end.

(** The body of the first loop of [gather_rename_actions]. *)
Definition file_rename_for (fs : FS C) (root : Path) (track_format : string)
    (path : Path) : result (option RenameAction) :=
  if negb (Fs.is_file fs path) then Ok None
  else
    (normalized_stem <- normalized_track_name (PathLib.stem path) track_format ;;
     match normalized_stem with
     | None => Ok None
     | Some st =>
         tgt <- PathLib.with_name path (st ++ PathLib.suffix path)%string ;;
         if negb (PathLib.path_eqb tgt path)
         then (s <- PathLib.relative_to path root ;;
               t <- PathLib.relative_to tgt root ;;
               Ok (Some (mkRename KFile s t)))
         else Ok None
     end)%res.

(** The body of the second loop. *)
Definition dir_rename_for (fs : FS C) (root : Path) (album_format : string)
    (path : Path) : result (option RenameAction) :=
  if negb (Fs.is_dir fs path) then Ok None
  else
    (normalized_dir <- normalized_album_name (PathLib.name path) album_format ;;
     match normalized_dir with
     | None => Ok None
     | Some d =>
         tgt <- PathLib.with_name path d ;;
         if negb (PathLib.path_eqb tgt path)
         then (s <- PathLib.relative_to path root ;;
               t <- PathLib.relative_to tgt root ;;
               Ok (Some (mkRename KDir s t)))
         else Ok None
     end)%res.

Definition gather_rename_actions (fs : FS C) (root : Path)
    (album_format track_format : string) : result (list RenameAction) :=
  (files <- collect (file_rename_for fs root track_format) (Fs.rglob fs root) ;;
   dirs <- collect (dir_rename_for fs root album_format) (Fs.rglob fs root) ;;
   Ok (files ++ dirs))%res.

End Rename.

(* ================================================================= *)
(** ** Dictionaries and metadata actions *)

Definition dict : Type := list (string * string).

Module Dict.

(** [d.get(k)] *)
Fixpoint lookup (d : dict) (k : string) : option string :=
  match d with
  | [] => None
  | (k', v) :: d' => if String.eqb k' k then Some v else lookup d' k
  end.

(** [d.get(k, default)] *)
Definition get (d : dict) (k default : string) : string :=
  match lookup d k with Some v => v | None => default end.

(** [d[k] = v]: a key that is there keeps its place. *)
Fixpoint set (d : dict) (k v : string) : dict :=
  match d with
  | [] => [(k, v)]
  | (k', v') :: d' =>
      if String.eqb k' k then (k', v) :: d' else (k', v') :: set d' k v
  end.

Definition keys (d : dict) : list string := map fst d.

End Dict.

Record MetadataAction : Type := mkMeta {
  file_path : Path;
  updates : dict;
  current : dict
}.

(* ================================================================= *)
(** ** The world and the monad of effects *)

(** What the program prints, one constructor per message. *)
Inductive Event : Type :=
| RenamePreview (folders files : list RenameAction)
| NothingToRename          (* No matching folders/files found. ... *)
| Prompt (text : string)   (* the prompt of [input] *)
| Aborted                  (* Aborted. No changes applied. *)
| Applying                 (* Applying changes... / metadata updates... *)
| SkipSourceMissing (a : RenameAction)   (* [SKIP] source missing: ... *)
| SkipTargetExists (a : RenameAction)    (* [SKIP] target already exists: ... *)
| Renamed (a : RenameAction)             (* [OK] source -> target *)
| Done (applied : nat)                   (* Done. Applied/Updated n ... *)
| MetadataPreview (files : list (Path * list (string * string * string)))
                           (* the files in the order printed, each with
                              its rows: tag, current value, new value *)
| NoMetadataUpdates        (* No metadata updates required. *)
| SkipUnsupported (a : MetadataAction)   (* [SKIP] unsupported format: ... *)
| Tagged (a : MetadataAction)            (* [OK] updated tags: ... *)
| MissingDependency        (* Error: missing dependency 'mutagen'. ... *)
| ReadError (e : exn)      (* Error while reading media files: ... *)
| WriteError (e : exn)     (* Error while writing media files: ... *)
| BadRoot                  (* Error: root is not a directory: ... *)
| Help.                    (* parser.print_help() *)

Record World (C : Type) : Type := mkWorld {
  w_fs : FS C;                (* the file system *)
  w_out : list Event;         (* standard output, oldest first *)
  w_in : list string;         (* the lines still to be read from stdin *)
  w_mutagen : bool            (* find_spec("mutagen") is not None *)
}.

Section Effects.
Variable C : Type.

Definition M (A : Type) : Type := World C -> World C * result A.

Definition ret {A} (a : A) : M A := fun w => (w, Ok a).

Definition raise {A} (e : exn) : M A := fun w => (w, Raise e).

Definition bind {A B} (c : M A) (k : A -> M B) : M B :=
  fun w =>
    match c w with
    | (w', Ok a) => k a w'
    | (w', Raise e) => (w', Raise e)
    end.

(** [try: c / except Exception as exc: h exc] *)
Definition try_except {A} (c : M A) (h : exn -> M A) : M A :=
  fun w =>
    match c w with
    | (w', Ok a) => (w', Ok a)
    | (w', Raise e) => h e w'
    end.

Definition lift {A} (r : result A) : M A := fun w => (w, r).

Definition get_fs : M (FS C) := fun w => (w, Ok (w_fs w)).

Definition put_fs (fs : FS C) : M unit :=
  fun w => (mkWorld fs (w_out w) (w_in w) (w_mutagen w), Ok tt).

(** The world after one more line of output. *)
Definition say (e : Event) (w : World C) : World C :=
  mkWorld (w_fs w) (w_out w ++ [e]) (w_in w) (w_mutagen w).

Definition print (e : Event) : M unit := fun w => (say e w, Ok tt).

(** [input(prompt)]: EOFError at the end of the input. *)
Definition input (prompt : string) : M string :=
  fun w =>
    match w_in w with
    | [] => (say (Prompt prompt) w, Raise EOFError)
    | line :: rest =>
        (mkWorld (w_fs w) (w_out w ++ [Prompt prompt]) rest (w_mutagen w), Ok line)
    end.

Definition has_mutagen : M bool := fun w => (w, Ok (w_mutagen w)).

End Effects.

Arguments ret {C A} a.
Arguments raise {C A} e.
Arguments lift {C A} r.
Arguments bind {C A B} c k.
Arguments try_except {C A} c h.
Arguments get_fs {C}.
Arguments put_fs {C} fs.
Arguments say {C} e w.
Arguments print {C} e.
Arguments input {C} prompt.
Arguments has_mutagen {C}.

Declare Scope m_scope.
Delimit Scope m_scope with M.
Notation "x <- c ;; k" := (bind c (fun x => k))
  (at level 61, c at next level, right associativity) : m_scope.
Notation "c ;; k" := (bind c (fun _ => k))
  (at level 61, right associativity) : m_scope.

(* ================================================================= *)
(** ** Sorting

    [sorted] is stable; so is insertion from the right with an insert that
    stops at the first element not below the new one. *)

Section Sorting.
Variable A : Type.
Variable le : A -> A -> bool.

Fixpoint insert_by (x : A) (l : list A) : list A :=
  match l with
  | [] => [x]
  | y :: l' => if le x y then x :: y :: l' else y :: insert_by x l'
  end.

Definition sorted_by (l : list A) : list A := fold_right insert_by [] l.

End Sorting.

(** [sorted(l, key=lambda a: a.relative_source)] *)
Definition by_source (a b : RenameAction) : bool :=
  String.leb (relative_source a) (relative_source b).

(** [len(Path(a.relative_source).parts)] *)
Definition depth (a : RenameAction) : nat :=
  List.length (PathLib.parts_of_str (relative_source a)).

(** [sorted(l, key=depth, reverse=True)] *)
Definition deepest_first (a b : RenameAction) : bool :=
  Nat.leb (depth b) (depth a).

Definition is_kind (k : Kind) (a : RenameAction) : bool := kind_eqb (kind a) k.

Definition file_actions (actions : list RenameAction) : list RenameAction :=
  sorted_by by_source (filter (is_kind KFile) actions).

Definition dir_actions (actions : list RenameAction) : list RenameAction :=
  sorted_by deepest_first (filter (is_kind KDir) actions).

(* ================================================================= *)
(** ** Applying renames *)

Section ApplyRename.
Variable C : Type.
Variable fmt : formatter.

Local Open Scope m_scope.

(** The body of the loop of [apply_rename_actions]. *)
Definition rename_step (root : Path) (action : RenameAction) (applied : nat)
  : M C nat :=
  let src := PathLib.joinpath root (source action) in
  let dst := PathLib.joinpath root (target action) in
  fs <- get_fs ;;
  if negb (Fs.exists_ fs src) then
    print (SkipSourceMissing action) ;; ret applied
  else if Fs.exists_ fs dst then
    print (SkipTargetExists action) ;; ret applied
  else
    fs' <- lift (Fs.rename fs src dst) ;;
    put_fs fs' ;;
    print (Renamed action) ;;
    ret (applied + 1).

(** The loop, over the actions in the order given. *)
Fixpoint rename_loop (root : Path) (ordered : list RenameAction)
    (applied : nat) : M C nat :=
  match ordered with
  | [] => ret applied
  | action :: rest =>
      applied' <- rename_step root action applied ;;
      rename_loop root rest applied'
  end.

Definition apply_rename_actions (root : Path) (actions : list RenameAction)
  : M C nat :=
  rename_loop root (file_actions actions ++ dir_actions actions) 0.

(** The order the program does not use: directories before files. *)
Definition apply_dirs_first (root : Path) (actions : list RenameAction)
  : M C nat :=
  rename_loop root (dir_actions actions ++ file_actions actions) 0.

Definition print_rename_preview (actions : list RenameAction) : M C unit :=
  match actions with
  | [] => print NothingToRename
  | _ =>
      print (RenamePreview
                 (sorted_by by_source (filter (is_kind KDir) actions))
                 (sorted_by by_source (filter (is_kind KFile) actions)))
  end.

(** [answer not in {"y", "yes"}] after [strip().lower()] *)
Definition is_yes (line : string) : bool :=
  let answer := Str.lower (Str.strip line) in
  String.eqb answer "y" || String.eqb answer "yes".

Definition run_filenames (root : Path) (album_format track_format : string)
    (yes : bool) : M C nat :=
  fs <- get_fs ;;
  actions <- lift (gather_rename_actions fmt fs root album_format track_format) ;;
  print_rename_preview actions ;;
  match actions with
  | [] => ret 0
  | _ =>
      go <- (if negb yes
             then line <- input (String Str.newline "Apply these changes? [y/N]: ") ;;
                  ret (is_yes line)
             else ret true) ;;
      if negb go then print Aborted ;; ret 0
      else
        print Applying ;;
        applied <- apply_rename_actions root actions ;;
        print (Done applied) ;;
        ret 0
  end.

End ApplyRename.

(* ================================================================= *)
(** ** Metadata logic *)

Definition AUDIO_EXTENSIONS : list string :=
  [".aac"; ".aiff"; ".alac"; ".ape"; ".flac"; ".m4a"; ".mp3"; ".mp4";
   ".ogg"; ".oga"; ".opus"; ".wav"; ".wma"].

Fixpoint mem (x : string) (l : list string) : bool :=
  match l with
  | [] => false
  | y :: l' => String.eqb x y || mem x l'
  end.

(** [derive_metadata_for_file(path)] *)
Definition derive_metadata_for_file (path : Path) : option dict :=
  let album_dir := PathLib.parent path in
  let author_dir := PathLib.parent album_dir in
  match Re.re_match ALBUM_PATTERN (PathLib.name album_dir) with
  | None => None
  | Some album_match =>
      match Re.re_match TRACK_PATTERN (PathLib.stem path) with
      | None => None
      | Some track_match =>
          let album := Str.strip (Re.group album_match "album") in
          let year := Re.group album_match "year" in
          let track := Re.group track_match "track" in
          let author := Str.strip (PathLib.name author_dir) in
          if Str.is_empty album || Str.is_empty author then None
          else Some [ ("album", album);
                      ("date", year);
                      ("year", year);
                      ("tracknumber", track);
                      ("artist", author);
                      ("albumartist", author);
                      ("author", author) ]
      end
  end.

(** What [audio.get(key)] can return. *)
Inductive TagValue : Type :=
| TAbsent                    (* None *)
| TList (l : list string)
| TStr (s : string)
| TOther.                    (* neither a list nor a str *)

(** The tag codec (mutagen), as the program uses it. *)
Record Codec (C : Type) : Type := mkCodec {
  Handle : Type;
  (** [mutagen.File(path, easy=True)] on the content of the file: a handle,
      [None] for a format it does not know, or an exception. *)
  codec_open : C -> result (option Handle);
  (** [audio.get(key)] *)
  codec_get : Handle -> string -> TagValue;
  (** [audio[key] = values] *)
  codec_set : Handle -> string -> list string -> result Handle;
  (** [audio.save()]: the new content of the file. *)
  codec_save : Handle -> result C
}.

Section Metadata.
Variable C : Type.
Variable codec : Codec C.

Definition is_audio_file (fs : FS C) (path : Path) : bool :=
  Fs.is_file fs path && mem (Str.lower (PathLib.suffix path)) AUDIO_EXTENSIONS.

(** [mutagen_file(path)]; a path that is not a file cannot be opened. *)
Definition mutagen_file (fs : FS C) (path : Path)
  : result (option (Handle codec)) :=
  match Fs.lookup fs path with
  | Some (File c) => codec_open codec c
  | _ => Raise CodecError
  end.

(** The body of the loop of [read_current_tags]. *)
Definition read_tag (audio : Handle codec) (cur : dict) (key : string) : dict :=
  match codec_get codec audio key with
  | TList l => Dict.set cur key (match l with v :: _ => v | [] => EmptyString end)
  | TStr s => Dict.set cur key s
  | _ => cur
  end.

Definition read_current_tags (fs : FS C) (path : Path)
    (desired_keys : list string) : result dict :=
  (audio <- mutagen_file fs path ;;
   match audio with
   | None => Ok []
   | Some h => Ok (fold_left (read_tag h) desired_keys [])
   end)%res.

(** [{k: v for k, v in updates.items() if current.get(k, "") != v}] *)
Definition effective (upd cur : dict) : dict :=
  filter (fun kv => negb (String.eqb (Dict.get cur (fst kv) EmptyString) (snd kv)))
         upd.

(** The body of the loop of [gather_metadata_actions]. *)
Definition metadata_action_for (fs : FS C) (root path : Path)
  : result (option MetadataAction) :=
  if negb (is_audio_file fs path) then Ok None
  else
    match derive_metadata_for_file path with
    | None => Ok None
    | Some upd =>
        (cur <- read_current_tags fs path (Dict.keys upd) ;;
         let effective_updates := effective upd cur in
         match effective_updates with
         | [] => Ok None
         | _ =>
             rel <- PathLib.relative_to path root ;;
             Ok (Some (mkMeta rel effective_updates cur))
         end)%res
    end.

Definition gather_metadata_actions (fs : FS C) (root : Path)
  : result (list MetadataAction) :=
  collect (metadata_action_for fs root) (Fs.rglob fs root).

Local Open Scope m_scope.

(** [sorted(actions, key=lambda a: str(a.file_path))] *)
Definition by_file_path (a b : MetadataAction) : bool :=
  String.leb (PathLib.path_str (file_path a)) (PathLib.path_str (file_path b)).

(** The rows printed for one file: for each key of [updates], in ascending
    order of the keys, the key, [current.get(key, "")] and the new value
    (the current value is cut to 28 characters when it is written out). *)
Definition preview_rows (a : MetadataAction) : list (string * string * string) :=
  map (fun key => (key,
                   Dict.get (current a) key EmptyString,
                   Dict.get (updates a) key EmptyString))
      (sorted_by String.leb (Dict.keys (updates a))).

(** The files are listed in ascending order of [str(file_path)]; the total
    printed at the end is their number. *)
Definition print_metadata_preview (actions : list MetadataAction) : M C unit :=
  match actions with
  | [] => print NoMetadataUpdates
  | _ => print (MetadataPreview
                  (map (fun a => (file_path a, preview_rows a))
                       (sorted_by by_file_path actions)))
  end.

(** [for key, value in action.updates.items(): audio[key] = [value]] *)
Fixpoint set_all (audio : Handle codec) (upd : dict) : result (Handle codec) :=
  match upd with
  | [] => Ok audio
  | (k, v) :: upd' =>
      (audio' <- codec_set codec audio k [v] ;; set_all audio' upd')%res
  end.

(** The body of the loop of [apply_metadata_actions]. *)
Definition metadata_step (root : Path) (action : MetadataAction)
    (applied : nat) : M C nat :=
  let file := PathLib.joinpath root (file_path action) in
  fs <- get_fs ;;
  audio <- lift (mutagen_file fs file) ;;
  match audio with
  | None => print (SkipUnsupported action) ;; ret applied
  | Some h =>
      h' <- lift (set_all h (updates action)) ;;
      c <- lift (codec_save codec h') ;;
      put_fs (Fs.write fs file c) ;;
      print (Tagged action) ;;
      ret (applied + 1)
  end.

Fixpoint metadata_loop (root : Path) (ordered : list MetadataAction)
    (applied : nat) : M C nat :=
  match ordered with
  | [] => ret applied
  | action :: rest =>
      applied' <- metadata_step root action applied ;;
      metadata_loop root rest applied'
  end.

Definition apply_metadata_actions (root : Path)
    (actions : list MetadataAction) : M C nat :=
  metadata_loop root (sorted_by by_file_path actions) 0.

Definition run_metadata (root : Path) (yes : bool) : M C nat :=
  installed <- has_mutagen ;;
  if negb installed then print MissingDependency ;; ret 1
  else
    fs <- get_fs ;;
    match gather_metadata_actions fs root with
    | Raise exc => print (ReadError exc) ;; ret 1
    | Ok actions =>
        print_metadata_preview actions ;;
        match actions with
        | [] => ret 0
        | _ =>
            go <- (if negb yes
                   then line <- input (String Str.newline
                                         "Apply these metadata changes? [y/N]: ") ;;
                        ret (is_yes line)
                   else ret true) ;;
            if negb go then print Aborted ;; ret 0
            else
              print Applying ;;
              outcome <- try_except
                           (applied <- apply_metadata_actions root actions ;;
                            ret (Some applied))
                           (fun exc => print (WriteError exc) ;; ret None) ;;
              match outcome with
              | None => ret 1
              | Some applied => print (Done applied) ;; ret 0
              end
        end
    end.

End Metadata.

(* ================================================================= *)
(** ** Dispatch *)

(** The parsed command line. *)
Record Args : Type := mkArgs {
  arg_apply : bool;
  arg_filenames : bool;
  arg_metadata : bool;
  arg_root : Path;             (* args.root.resolve() *)
  arg_album_format : string;
  arg_track_format : string;
  arg_yes : bool
}.

Section Main.
Variable C : Type.
Variable fmt : formatter.
Variable codec : Codec C.

Local Open Scope m_scope.

(** [main()]; [no_args] is [len(sys.argv) == 1]. *)
Definition main (no_args : bool) (args : Args) : M C nat :=
  if no_args then print Help ;; ret 0
  else
    let root := arg_root args in
    fs <- get_fs ;;
    if negb (Fs.exists_ fs root) || negb (Fs.is_dir fs root)
    then print BadRoot ;; ret 1
    else if arg_apply args then
      rc <- run_filenames fmt root (arg_album_format args)
                          (arg_track_format args) true ;;
      if negb (Nat.eqb rc 0) then ret rc
      else run_metadata codec root true
    else if arg_filenames args then
      run_filenames fmt root (arg_album_format args) (arg_track_format args)
                    (arg_yes args)
    else if arg_metadata args then
      run_metadata codec root (arg_yes args)
    else print Help ;; ret 0.

End Main.

(* ================================================================= *)
(** ** Reading the output *)

Definition is_source_missing (e : Event) : bool :=
  match e with SkipSourceMissing _ => true | _ => false end.

(** How many actions were skipped with the reason "source missing". *)
Definition source_missing_skips (out : list Event) : nat :=
  List.length (filter is_source_missing out).

(** The action a line of the apply engine reports on. *)
Definition rename_event_action (e : Event) : option RenameAction :=
  match e with
  | SkipSourceMissing a | SkipTargetExists a | Renamed a => Some a
  | _ => None
  end.

Definition is_renamed (e : Event) : bool :=
  match e with Renamed _ => true | _ => false end.

(** The world after a rename: a new file system, one more line. *)
Definition renamed_world {C} (fs' : FS C) (a : RenameAction) (w : World C)
  : World C :=
  mkWorld fs' (w_out w ++ [Renamed a]) (w_in w) (w_mutagen w).

(** The source of [b] is neither the source of [a] nor below it: renaming
    [a] does not move it. *)
Definition clear_of (root : Path) (a b : RenameAction) : Prop :=
  PathLib.is_prefix (PathLib.joinpath root (source a))
                    (PathLib.joinpath root (source b)) = false.

(** A rename to another name in the same directory. *)
Definition sibling_rename (root : Path) (a : RenameAction) : Prop :=
  exists (dir : Path) (n n' : string),
    PathLib.joinpath root (source a) = dir ++ [n]
    /\ PathLib.joinpath root (target a) = dir ++ [n']
    /\ n <> n'.

(** What one turn of a collecting loop adds to the list. *)
Definition produced {B} (r : result (option B)) : list B :=
  match r with
  | Ok (Some b) => [b]
  | _ => []
  end.

(** [^\d{4}\s*-]: the head of [ALBUM_DIR_PATTERN], up to the dash. *)
Definition ALBUM_DIR_HEAD : Re.pattern :=
  [ Re.Bol;
    Re.Rep Str.isdigit 4 (Some 4) true (Some "year");
    Re.Rep Str.isspace 0 None true None;
    Re.Lit "-" ].

(* ================================================================= *)
(** ** A small codec and some trees, for concrete runs *)

Module Demo.

(** A file is of an unknown format, damaged, or holds tags. *)
Inductive Media : Type :=
| Unknown
| Broken
| Tags (d : dict).

Definition codec : Codec Media :=
  {| Handle := dict;
     codec_open := fun c =>
       match c with
       | Unknown => Ok None
       | Broken => Raise CodecError
       | Tags d => Ok (Some d)
       end;
     codec_get := fun h k =>
       match Dict.lookup h k with
       | Some v => TList [v]
       | None => TAbsent
       end;
     codec_set := fun h k vs => Ok (Dict.set h k (hd EmptyString vs));
     codec_save := fun h => Ok (Tags h) |}.

Definition root : Path := ["music"].

Definition world (fs : FS Media) (answers : list string) : World Media :=
  mkWorld fs [] answers true.

(** The renames the planner finds in [album_tree], and one whose source is
    not there. *)
Definition track_rename : RenameAction :=
  mkRename KFile ["2001 - Discovery"; "1 - One More Time.flac"]
                 ["2001 - Discovery"; "01 One More Time.flac"].

Definition album_rename : RenameAction :=
  mkRename KDir ["2001 - Discovery"] ["Discovery (2001)"].

Definition stale_rename : RenameAction :=
  mkRename KFile ["gone.flac"] ["here.flac"].

(** The rename the planner finds for the folder of [album_tree] when the
    album template is [..]. *)
Definition up_rename : RenameAction :=
  mkRename KDir ["2001 - Discovery"] [".."].

(** One album folder to rename, one track in it to rename. *)
Definition album_tree : FS Media :=
  [ (["music"], Dir);
    (["music"; "2001 - Discovery"], Dir);
    (["music"; "2001 - Discovery"; "1 - One More Time.flac"], File (Tags [])) ].

(** The same, with the folder's new name already taken. *)
Definition taken_tree : FS Media :=
  album_tree ++ [ (["music"; "Discovery (2001)"], Dir) ].

(** The same as [album_tree], with a second track. *)
Definition two_track_tree : FS Media :=
  album_tree
  ++ [ (["music"; "2001 - Discovery"; "2 - Aerodynamic.flac"], File (Tags [])) ].

(** A library in its canonical shape; the first track is damaged. *)
Definition tagged_tree : FS Media :=
  [ (["music"], Dir);
    (["music"; "Daft Punk"], Dir);
    (["music"; "Daft Punk"; "Discovery (2001)"], Dir);
    (["music"; "Daft Punk"; "Discovery (2001)"; "01 One More Time.flac"],
     File Broken);
    (["music"; "Daft Punk"; "Discovery (2001)"; "02 Aerodynamic.flac"],
     File (Tags [("album", "Discovery")]));
    (["music"; "Daft Punk"; "Discovery (2001)"; "03 Digital Love.alac"],
     File Unknown) ].

(** The same library with the first track in order. *)
Definition healthy_tree : FS Media :=
  [ (["music"], Dir);
    (["music"; "Daft Punk"], Dir);
    (["music"; "Daft Punk"; "Discovery (2001)"], Dir);
    (["music"; "Daft Punk"; "Discovery (2001)"; "02 Aerodynamic.flac"],
     File (Tags [("album", "Discovery")]));
    (["music"; "Daft Punk"; "Discovery (2001)"; "03 Digital Love.alac"],
     File Unknown) ].

End Demo.

(* ================================================================= *)
(** ** Reading tags and the output of the metadata engine *)

(** The text [read_current_tags] keeps of what [audio.get(key)] returns:
    the first element of a list (the empty text for an empty list), a text
    as it is, nothing otherwise. *)
Definition tag_text (v : TagValue) : option string :=
  match v with
  | TList (x :: _) => Some x
  | TList [] => Some EmptyString
  | TStr s => Some s
  | TAbsent | TOther => None
  end.

(** The action a line of the metadata engine reports on. *)
Definition metadata_event_action (e : Event) : option MetadataAction :=
  match e with
  | SkipUnsupported a | Tagged a => Some a
  | _ => None
  end.

Definition is_tagged (e : Event) : bool :=
  match e with Tagged _ => true | _ => false end.

(** What the program relies on when it writes tags and reads them again: a
    key that has been set reads as the text set, the other keys read as
    before, and a saved file opens with the tags it was saved with. *)
Record codec_keeps_tags {C : Type} (codec : Codec C) : Prop := {
  set_then_get :
    forall h h' k v,
      codec_set codec h k [v] = Ok h' ->
      tag_text (codec_get codec h' k) = Some v;
  set_other_key :
    forall h h' k k' vs,
      codec_set codec h k vs = Ok h' -> k' <> k ->
      codec_get codec h' k' = codec_get codec h k';
  save_then_open :
    forall h c,
      codec_save codec h = Ok c ->
      exists h', codec_open codec c = Ok (Some h')
                 /\ forall k, codec_get codec h' k = codec_get codec h k
}.

(** [mutagen_file(path)] is [None]: a file of a format the codec does not
    know. *)
Definition unsupported {C : Type} (codec : Codec C) (fs : FS C) (p : Path)
  : bool :=
  match mutagen_file codec fs p with
  | Ok None => true
  | _ => false
  end.


(** The three lines with which [run_metadata] reports a failure. *)
Definition is_metadata_error (e : Event) : bool :=
  match e with
  | MissingDependency | ReadError _ | WriteError _ => true
  | _ => false
  end.


(** The lines with which [main] reports a failure. *)
Definition is_error_line (e : Event) : bool :=
  match e with
  | BadRoot => true
  | _ => is_metadata_error e
  end.

(* ================================================================= *)
(** * Properties *)

Unset Implicit Arguments.

(** ** Concrete runs of the naming rules *)

Example album_dir_discovery :
  Re.re_match ALBUM_DIR_PATTERN "2001 - Discovery"
  = Some [("year", "2001"); ("album", "Discovery")].
Proof. reflexivity. Qed.

Example album_rule_discovery :
  normalized_album_name py_format "2001 - Discovery" default_album_format
  = Ok (Some "Discovery (2001)").
Proof. reflexivity. Qed.

Example track_rule_one_more_time :
  normalized_track_name py_format "1 - One More Time" default_track_format
  = Ok (Some "01 One More Time").
Proof. reflexivity. Qed.

Example plan_album_tree :
  gather_rename_actions py_format Demo.album_tree Demo.root
                        default_album_format default_track_format
  = Ok [ mkRename KFile ["2001 - Discovery"; "1 - One More Time.flac"]
                        ["2001 - Discovery"; "01 One More Time.flac"];
         mkRename KDir ["2001 - Discovery"] ["Discovery (2001)"] ].
Proof. vm_compute. reflexivity. Qed.

(** [--apply] on a folder to rename with a track to rename: exit code 0, the
    tree renamed and the track tagged from its new path. *)
Example apply_album_tree :
  let run := main py_format Demo.codec false
               (mkArgs true false false Demo.root default_album_format
                       default_track_format false)
               (Demo.world Demo.album_tree []) in
  snd run = Ok 0
  /\ w_fs (fst run)
     = [ (["music"], Dir);
         (["music"; "Discovery (2001)"], Dir);
         (["music"; "Discovery (2001)"; "01 One More Time.flac"],
          File (Demo.Tags [ ("album", "Discovery"); ("date", "2001");
                            ("year", "2001"); ("tracknumber", "01");
                            ("artist", "music"); ("albumartist", "music");
                            ("author", "music") ])) ].
Proof. vm_compute. split; reflexivity. Qed.

(** ** Paths *)

Lemma path_eqb_eq (p q : Path) : PathLib.path_eqb p q = true <-> p = q.
Proof.
  revert q; induction p as [|a p IH]; intros [|b q]; simpl;
    try (split; [discriminate | discriminate]); try tauto.
  rewrite andb_true_iff, String.eqb_eq, IH.
  split; [intros [-> ->]; reflexivity | intros H; inversion H; auto].
Qed.

Lemma path_eqb_refl (p : Path) : PathLib.path_eqb p p = true.
Proof. apply path_eqb_eq; reflexivity. Qed.

Lemma path_eqb_neq (p q : Path) : PathLib.path_eqb p q = false <-> p <> q.
Proof.
  split.
  - intros H E. apply path_eqb_eq in E. congruence.
  - intros H. destruct (PathLib.path_eqb p q) eqn:E; [|reflexivity].
    apply path_eqb_eq in E. contradiction.
Qed.

Lemma is_prefix_split (r p : Path) :
  PathLib.is_prefix r p = true -> p = r ++ skipn (List.length r) p.
Proof.
  revert p; induction r as [|a r IH]; intros p H; simpl in *.
  - reflexivity.
  - destruct p as [|b p]; [discriminate|].
    apply andb_true_iff in H as [Hab Hr].
    apply String.eqb_eq in Hab. subst b.
    simpl. f_equal. apply IH, Hr.
Qed.

Lemma is_prefix_app (r q : Path) : PathLib.is_prefix r (r ++ q) = true.
Proof.
  induction r as [|a r IH]; simpl; [reflexivity|].
  rewrite String.eqb_refl. exact IH.
Qed.

Lemma is_prefix_iff (r p : Path) :
  PathLib.is_prefix r p = true <-> exists q, p = r ++ q.
Proof.
  split.
  - intros H. eexists. apply is_prefix_split, H.
  - intros [q ->]. apply is_prefix_app.
Qed.

Lemma relative_to_inj (p q root s : Path) :
  PathLib.relative_to p root = Ok s ->
  PathLib.relative_to q root = Ok s ->
  p = q.
Proof.
  unfold PathLib.relative_to.
  destruct (PathLib.is_prefix root p) eqn:Hp; [|discriminate].
  destruct (PathLib.is_prefix root q) eqn:Hq; [|discriminate].
  intros E1 E2. inversion E1 as [E1']. inversion E2 as [E2'].
  rewrite (is_prefix_split _ _ Hp), (is_prefix_split _ _ Hq).
  congruence.
Qed.

Lemma name_snoc (p : Path) (x : string) : PathLib.name (p ++ [x]) = x.
Proof. unfold PathLib.name. apply last_last. Qed.

Lemma parent_snoc (p : Path) (x : string) : PathLib.parent (p ++ [x]) = p.
Proof. unfold PathLib.parent. apply removelast_last. Qed.

(** ** Collecting loops *)

Lemma rbind_ok {A B} (r : result A) (k : A -> result B) (b : B) :
  rbind r k = Ok b -> exists a, r = Ok a /\ k a = Ok b.
Proof. destruct r as [a|e]; simpl; [eauto | discriminate]. Qed.

Lemma collect_flat_map {A B} (body : A -> result (option B)) (l : list A)
    (out : list B) :
  collect body l = Ok out ->
  out = flat_map (fun x => produced (body x)) l.
Proof.
  revert out; induction l as [|x l IH]; simpl; intros out H.
  - inversion H; reflexivity.
  - apply rbind_ok in H as [r [Hr H]].
    apply rbind_ok in H as [rs [Hrs H]].
    inversion H; subst out. rewrite Hr.
    specialize (IH rs Hrs). subst rs.
    destruct r; reflexivity.
Qed.

Lemma collect_in {A B} (body : A -> result (option B)) (l : list A)
    (out : list B) (b : B) :
  collect body l = Ok out -> In b out ->
  exists x, In x l /\ body x = Ok (Some b).
Proof.
  intros H Hb. rewrite (collect_flat_map _ _ _ H) in Hb.
  apply in_flat_map in Hb as [x [Hx Hb]].
  exists x. split; [exact Hx|].
  unfold produced in Hb.
  destruct (body x) as [[b'|]|]; simpl in Hb; try contradiction.
  destruct Hb as [->|[]]. reflexivity.
Qed.

Lemma collect_all_ok {A B} (body : A -> result (option B)) (l : list A) :
  (forall x, In x l -> is_ok (body x) = true) ->
  collect body l = Ok (flat_map (fun x => produced (body x)) l).
Proof.
  induction l as [|x l IH]; simpl; intros H; [reflexivity|].
  rewrite IH by auto.
  specialize (H x (or_introl eq_refl)).
  destruct (body x) as [[b|]|]; simpl in *; try discriminate; reflexivity.
Qed.

(** ** The rename planner never plans a no-op *)

Lemma file_rename_for_changes {C} (fmt : formatter) (fs : FS C)
    (root : Path) (tf : string) (path : Path) (a : RenameAction) :
  file_rename_for fmt fs root tf path = Ok (Some a) ->
  kind a = KFile /\ target a <> source a
  /\ PathLib.relative_to path root = Ok (source a).
Proof.
  unfold file_rename_for.
  destruct (negb (Fs.is_file fs path)); [discriminate|].
  intros H. apply rbind_ok in H as [[st|] [_ H]]; [|discriminate].
  apply rbind_ok in H as [tgt [_ H]].
  destruct (PathLib.path_eqb tgt path) eqn:E; simpl in H; [discriminate|].
  apply rbind_ok in H as [s [Hs H]].
  apply rbind_ok in H as [t [Ht H]].
  inversion H; subst a; simpl. repeat split; [|exact Hs].
  intros ->. apply path_eqb_neq in E. apply E.
  eapply relative_to_inj; eassumption.
Qed.

Lemma dir_rename_for_changes {C} (fmt : formatter) (fs : FS C)
    (root : Path) (af : string) (path : Path) (a : RenameAction) :
  dir_rename_for fmt fs root af path = Ok (Some a) ->
  kind a = KDir /\ target a <> source a
  /\ PathLib.relative_to path root = Ok (source a).
Proof.
  unfold dir_rename_for.
  destruct (negb (Fs.is_dir fs path)); [discriminate|].
  intros H. apply rbind_ok in H as [[d|] [_ H]]; [|discriminate].
  apply rbind_ok in H as [tgt [_ H]].
  destruct (PathLib.path_eqb tgt path) eqn:E; simpl in H; [discriminate|].
  apply rbind_ok in H as [s [Hs H]].
  apply rbind_ok in H as [t [Ht H]].
  inversion H; subst a; simpl. repeat split; [|exact Hs].
  intros ->. apply path_eqb_neq in E. apply E.
  eapply relative_to_inj; eassumption.
Qed.

(** C4. Whatever the tree, the root and the two format templates (and
    whatever the formatting function does with them), every action in the
    list returned by [gather_rename_actions] has a target different from its
    source. *)
Theorem gather_rename_actions_no_noop :
  forall (C : Type) (fmt : formatter) (fs : FS C) (root : Path)
         (album_format track_format : string) (actions : list RenameAction),
    gather_rename_actions fmt fs root album_format track_format = Ok actions ->
    Forall (fun a => target a <> source a) actions.
Proof.
  intros C fmt fs root af tf actions H.
  unfold gather_rename_actions in H.
  apply rbind_ok in H as [files [Hf H]].
  apply rbind_ok in H as [dirs [Hd H]].
  inversion H; subst actions.
  apply Forall_forall. intros a Ha.
  apply in_app_or in Ha as [Ha|Ha].
  - destruct (collect_in _ _ _ _ Hf Ha) as [path [_ Hp]].
    apply file_rename_for_changes in Hp. tauto.
  - destruct (collect_in _ _ _ _ Hd Ha) as [path [_ Hp]].
    apply dir_rename_for_changes in Hp. tauto.
Qed.

Lemma gather_rename_actions_no_noop_witness :
  exists actions,
    gather_rename_actions py_format Demo.album_tree Demo.root
                          default_album_format default_track_format
    = Ok actions
    /\ List.length actions = 2
    /\ Forall (fun a => target a <> source a) actions.
Proof.
  eexists. split; [vm_compute; reflexivity|]. split; [reflexivity|].
  apply (@gather_rename_actions_no_noop Demo.Media py_format Demo.album_tree
           Demo.root default_album_format default_track_format).
  vm_compute; reflexivity.
Defined.

(** ** Metadata derived from the canonical path *)

(** C7. For the file [Daft Punk/Discovery (2001)/01 One More Time.flac]
    under any root, [derive_metadata_for_file] returns exactly the seven
    tags album, date, year, tracknumber, artist, albumartist, author; date
    and year are the same four-digit string, and artist, albumartist and
    author the same author string. *)
Theorem derive_metadata_daft_punk :
  forall root : Path,
    derive_metadata_for_file
      (PathLib.joinpath root
         ["Daft Punk"; "Discovery (2001)"; "01 One More Time.flac"])
    = Some [ ("album", "Discovery");
             ("date", "2001");
             ("year", "2001");
             ("tracknumber", "01");
             ("artist", "Daft Punk");
             ("albumartist", "Daft Punk");
             ("author", "Daft Punk") ].
Proof.
  intros root. unfold PathLib.joinpath, derive_metadata_for_file.
  change (root ++ ["Daft Punk"; "Discovery (2001)"; "01 One More Time.flac"])
    with (root ++ ["Daft Punk"] ++ ["Discovery (2001)"] ++ ["01 One More Time.flac"]).
  rewrite !app_assoc.
  unfold PathLib.stem.
  rewrite !parent_snoc, !name_snoc.
  vm_compute. reflexivity.
Qed.

(** ** Exit codes of the rename pipeline *)

Ltac run_m :=
  unfold bind, try_except, get_fs, put_fs, lift, print, ret, raise, input,
    has_mutagen in *;
  simpl in *.

Lemma run_filenames_returns_zero {C} (fmt : formatter) (root : Path)
    (af tf : string) (yes : bool) (w w1 : World C) (rc : nat) :
  run_filenames fmt root af tf yes w = (w1, Ok rc) -> rc = 0.
Proof.
  unfold run_filenames, print_rename_preview. run_m.
  destruct (gather_rename_actions fmt (w_fs w) root af tf) as [[|a actions]|e];
    simpl; try (intros H; inversion H; reflexivity).
  destruct yes; simpl.
  - match goal with
    | |- context [apply_rename_actions ?r ?l ?x] =>
        destruct (apply_rename_actions r l x) as [w2 [n|e]]
    end; intros H; inversion H; reflexivity.
  - destruct (w_in w) as [|line rest]; [intros H; inversion H|].
    destruct (is_yes line); simpl.
    + match goal with
      | |- context [apply_rename_actions ?r ?l ?x] =>
          destruct (apply_rename_actions r l x) as [w2 [n|e]]
      end; intros H; inversion H; reflexivity.
    + intros H; inversion H; reflexivity.
Qed.

(** C10. [run_filenames] returns 0 whenever it returns, whatever the root,
    the templates, the answer to the prompt and the number of actions
    applied or skipped; hence under [--apply], whenever the rename phase
    returns, [main] goes on to the metadata pipeline, run without prompt
    on the world the renames left. *)
Theorem run_filenames_always_zero :
  forall (C : Type) (fmt : formatter) (codec : Codec C) (args : Args)
         (yes : bool) (w w1 : World C) (rc : nat),
    run_filenames fmt (arg_root args) (arg_album_format args)
                  (arg_track_format args) yes w = (w1, Ok rc) ->
    rc = 0
    /\ (yes = true -> arg_apply args = true ->
        Fs.exists_ (w_fs w) (arg_root args) = true ->
        Fs.is_dir (w_fs w) (arg_root args) = true ->
        main fmt codec false args w = run_metadata codec (arg_root args) true w1).
Proof.
  intros C fmt codec args yes w w1 rc H.
  pose proof (run_filenames_returns_zero _ _ _ _ _ _ _ _ H) as Hz.
  split; [exact Hz|].
  intros -> Happly Hex Hdir.
  unfold main. unfold bind at 1, get_fs. simpl.
  rewrite Hex, Hdir, Happly. simpl.
  unfold bind at 1. rewrite H. subst rc. reflexivity.
Qed.

Lemma run_filenames_always_zero_witness :
  exists w1,
    run_filenames py_format Demo.root default_album_format
                  default_track_format true
                  (Demo.world Demo.album_tree []) = (w1, Ok 0)
    /\ w_out w1 <> []
    /\ main py_format Demo.codec false
            (mkArgs true false false Demo.root default_album_format
                    default_track_format false)
            (Demo.world Demo.album_tree [])
       = run_metadata Demo.codec Demo.root true w1.
Proof.
  eexists. split; [vm_compute; reflexivity|]. split; [discriminate|].
  refine (proj2 (run_filenames_always_zero Demo.Media py_format Demo.codec
                   (mkArgs true false false Demo.root default_album_format
                           default_track_format false)
                   true (Demo.world Demo.album_tree []) _ 0 _)
                eq_refl eq_refl _ _);
    vm_compute; reflexivity.
Defined.

(** ** Declining the confirmation *)

Lemma is_yes_false (line : string) :
  Str.lower (Str.strip line) <> "y" ->
  Str.lower (Str.strip line) <> "yes" ->
  is_yes line = false.
Proof.
  intros H1 H2. unfold is_yes.
  apply String.eqb_neq in H1, H2. rewrite H1, H2. reflexivity.
Qed.

(** C9. When the prompt is answered by a line that, trimmed and lowercased,
    is neither "y" nor "yes" (the empty line included), [run_filenames] and
    [run_metadata] both return 0 and leave the file system, and so every
    file and every tag, as it was: after the preview and the prompt they
    print the abort message and nothing else, so no apply step runs.  The
    prompt is reached when the plan is not empty (and, for metadata, the
    codec is installed); with or without it, a declined run changes
    nothing. *)
Theorem decline_changes_nothing :
  forall (C : Type) (fmt : formatter) (codec : Codec C) (root : Path)
         (af tf : string) (w : World C) (line : string) (rest : list string),
    w_in w = line :: rest ->
    Str.lower (Str.strip line) <> "y" ->
    Str.lower (Str.strip line) <> "yes" ->
    (forall a actions,
        gather_rename_actions fmt (w_fs w) root af tf = Ok (a :: actions) ->
        exists w',
          run_filenames fmt root af tf false w = (w', Ok 0)
          /\ w_fs w' = w_fs w
          /\ w_in w' = rest
          /\ exists preview prompt,
               w_out w' = w_out w ++ [preview; Prompt prompt; Aborted])
    /\ (forall a actions,
        w_mutagen w = true ->
        gather_metadata_actions codec (w_fs w) root = Ok (a :: actions) ->
        exists w',
          run_metadata codec root false w = (w', Ok 0)
          /\ w_fs w' = w_fs w
          /\ w_in w' = rest
          /\ exists preview prompt,
               w_out w' = w_out w ++ [preview; Prompt prompt; Aborted])
    /\ w_fs (fst (run_filenames fmt root af tf false w)) = w_fs w
    /\ w_fs (fst (run_metadata codec root false w)) = w_fs w.
Proof.
  intros C fmt codec root af tf w line rest Hin H1 H2.
  pose proof (is_yes_false _ H1 H2) as Hno.
  repeat split.
  - intros a actions Hg.
    unfold run_filenames, print_rename_preview. run_m.
    rewrite Hg. simpl. rewrite Hin. simpl. rewrite Hno. simpl.
    eexists. split; [reflexivity|]. simpl. repeat split.
    do 2 eexists. rewrite <- !app_assoc. reflexivity.
  - intros a actions Hm Hg.
    unfold run_metadata, print_metadata_preview. run_m.
    rewrite Hm. simpl. rewrite Hg. simpl. rewrite Hin. simpl.
    rewrite Hno. simpl.
    eexists. split; [reflexivity|]. simpl. repeat split.
    do 2 eexists. rewrite <- !app_assoc. reflexivity.
  - unfold run_filenames, print_rename_preview. run_m.
    destruct (gather_rename_actions fmt (w_fs w) root af tf) as [[|a actions]|e];
      simpl; try reflexivity.
    rewrite Hin. simpl. rewrite Hno. reflexivity.
  - unfold run_metadata, print_metadata_preview. run_m.
    destruct (w_mutagen w); simpl; [|reflexivity].
    destruct (gather_metadata_actions codec (w_fs w) root) as [[|a actions]|e];
      simpl; try reflexivity.
    rewrite Hin. simpl. rewrite Hno. reflexivity.
Qed.

Lemma decline_changes_nothing_witness :
  (exists w',
      run_filenames py_format Demo.root default_album_format
                    default_track_format false
                    (Demo.world Demo.album_tree [" No "]) = (w', Ok 0)
      /\ w_fs w' = Demo.album_tree)
  /\ (exists w',
      run_metadata Demo.codec Demo.root false
                   (Demo.world Demo.healthy_tree [""]) = (w', Ok 0)
      /\ w_fs w' = Demo.healthy_tree).
Proof.
  split.
  - destruct (decline_changes_nothing Demo.Media py_format Demo.codec Demo.root
                default_album_format default_track_format
                (Demo.world Demo.album_tree [" No "]) " No " []
                eq_refl ltac:(vm_compute; discriminate)
                ltac:(vm_compute; discriminate)) as [Hf _].
    destruct (Hf _ _ ltac:(vm_compute; reflexivity)) as [w' [Hr [Hfs _]]].
    exists w'. split; assumption.
  - destruct (decline_changes_nothing Demo.Media py_format Demo.codec Demo.root
                default_album_format default_track_format
                (Demo.world Demo.healthy_tree [""]) "" []
                eq_refl ltac:(vm_compute; discriminate)
                ltac:(vm_compute; discriminate)) as [_ [Hm _]].
    destruct (Hm _ _ eq_refl ltac:(vm_compute; reflexivity)) as [w' [Hr [Hfs _]]].
    exists w'. split; assumption.
Defined.

(** ** Sorting *)

Section SortingFacts.
Context {A : Type} (le : A -> A -> bool).

Lemma insert_by_perm (x : A) (l : list A) :
  Permutation (insert_by le x l) (x :: l).
Proof.
  induction l as [|y l IH]; simpl; [reflexivity|].
  destruct (le x y); [reflexivity|].
  rewrite IH. apply perm_swap.
Qed.

Lemma sorted_by_perm (l : list A) : Permutation (sorted_by le l) l.
Proof.
  induction l as [|x l IH]; simpl; [reflexivity|].
  rewrite insert_by_perm. apply perm_skip, IH.
Qed.

Hypothesis le_total : forall a b, le a b = true \/ le b a = true.

Lemma insert_by_sorted (x : A) (l : list A) :
  Sorted (fun a b => le a b = true) l ->
  Sorted (fun a b => le a b = true) (insert_by le x l).
Proof.
  induction l as [|y l IH]; simpl; intros Hs.
  - repeat constructor.
  - destruct (le x y) eqn:E.
    + constructor; [exact Hs | constructor; exact E].
    + inversion Hs as [|? ? Hs' Hhd]; subst.
      constructor; [apply IH, Hs'|].
      destruct l as [|z l]; simpl.
      * constructor. destruct (le_total x y); congruence.
      * destruct (le x z).
        -- constructor. destruct (le_total x y); congruence.
        -- inversion Hhd; subst. constructor. assumption.
Qed.

Lemma sorted_by_sorted (l : list A) :
  Sorted (fun a b => le a b = true) (sorted_by le l).
Proof.
  induction l as [|x l IH]; simpl; [constructor|].
  apply insert_by_sorted, IH.
Qed.

End SortingFacts.

Lemma by_source_total (a b : RenameAction) :
  by_source a b = true \/ by_source b a = true.
Proof. apply String.leb_total. Qed.

Lemma deepest_first_total (a b : RenameAction) :
  deepest_first a b = true \/ deepest_first b a = true.
Proof.
  unfold deepest_first.
  destruct (Nat.le_ge_cases (depth b) (depth a)) as [H|H];
    [left | right]; apply Nat.leb_le; exact H.
Qed.

Lemma kind_split (actions : list RenameAction) :
  Permutation (filter (is_kind KFile) actions ++ filter (is_kind KDir) actions)
              actions.
Proof.
  induction actions as [|a l IH]; simpl; [reflexivity|].
  assert (Hk : forall k, is_kind k a = kind_eqb (kind a) k) by reflexivity.
  rewrite !Hk. destruct (kind a); simpl.
  - apply Permutation_sym. eapply Permutation_trans.
    + apply perm_skip, Permutation_sym, IH.
    + apply Permutation_middle.
  - apply perm_skip, IH.
Qed.

Lemma apply_order_perm (actions : list RenameAction) :
  Permutation (file_actions actions ++ dir_actions actions) actions.
Proof.
  unfold file_actions, dir_actions.
  rewrite !sorted_by_perm. apply kind_split.
Qed.

Lemma file_actions_kind (actions : list RenameAction) :
  Forall (fun a => kind a = KFile) (file_actions actions).
Proof.
  apply Forall_forall. intros a Ha.
  unfold file_actions in Ha.
  apply (Permutation_in _ (sorted_by_perm _ _)) in Ha.
  apply filter_In in Ha as [_ Hk].
  unfold is_kind in Hk. destruct (kind a); [discriminate | reflexivity].
Qed.

Lemma dir_actions_kind (actions : list RenameAction) :
  Forall (fun a => kind a = KDir) (dir_actions actions).
Proof.
  apply Forall_forall. intros a Ha.
  unfold dir_actions in Ha.
  apply (Permutation_in _ (sorted_by_perm _ _)) in Ha.
  apply filter_In in Ha as [_ Hk].
  unfold is_kind in Hk. destruct (kind a); [reflexivity | discriminate].
Qed.

(** ** One action at a time *)

Section StepFacts.
Context {C : Type}.
Variables (root : Path) (action : RenameAction) (applied : nat) (w : World C).

Let src := PathLib.joinpath root (source action).
Let dst := PathLib.joinpath root (target action).

Lemma rename_step_source_missing :
  Fs.exists_ (w_fs w) src = false ->
  rename_step root action applied w
  = (say (SkipSourceMissing action) w, Ok applied).
Proof.
  intros H. unfold rename_step. run_m. fold src. rewrite H. reflexivity.
Qed.

Lemma rename_step_target_exists :
  Fs.exists_ (w_fs w) src = true ->
  Fs.exists_ (w_fs w) dst = true ->
  rename_step root action applied w
  = (say (SkipTargetExists action) w, Ok applied).
Proof.
  intros H1 H2. unfold rename_step. run_m. fold src dst.
  rewrite H1. simpl. rewrite H2. reflexivity.
Qed.

Lemma rename_step_rename :
  Fs.exists_ (w_fs w) src = true ->
  Fs.exists_ (w_fs w) dst = false ->
  rename_step root action applied w
  = match Fs.rename (w_fs w) src dst with
    | Ok fs' => (renamed_world fs' action w, Ok (applied + 1))
    | Raise e => (w, Raise e)
    end.
Proof.
  intros H1 H2. unfold rename_step. run_m. fold src dst.
  rewrite H1. simpl. rewrite H2.
  destruct (Fs.rename (w_fs w) src dst); reflexivity.
Qed.

End StepFacts.

Lemma rename_loop_cons {C} (root : Path) (a : RenameAction)
    (rest : list RenameAction) (n n' : nat) (w w' : World C) :
  rename_step root a n w = (w', Ok n') ->
  rename_loop root (a :: rest) n w = rename_loop root rest n' w'.
Proof. intros H. simpl. unfold bind. rewrite H. reflexivity. Qed.

(** Every action leaves exactly one line, in the order of the loop, and the
    count is the number of [OK] lines. *)
Lemma rename_loop_log {C} (root : Path) (l : list RenameAction) :
  forall (n : nat) (w w' : World C) (r : nat),
    rename_loop root l n w = (w', Ok r) ->
    exists evs,
      w_out w' = w_out w ++ evs
      /\ map rename_event_action evs = map Some l
      /\ r = n + List.length (filter is_renamed evs).
Proof.
  induction l as [|a l IH]; intros n w w' r H.
  - simpl in H. unfold ret in H. inversion H; subst.
    exists []. rewrite app_nil_r. simpl. auto.
  - simpl in H. unfold bind in H.
    destruct (rename_step root a n w) as [w1 [n1|e]] eqn:Hs; [|discriminate].
    destruct (IH _ _ _ _ H) as [evs [Hout [Hmap Hr]]].
    assert (Hstep : exists ev,
               w_out w1 = w_out w ++ [ev]
               /\ rename_event_action ev = Some a
               /\ n1 = n + (if is_renamed ev then 1 else 0)).
    { unfold rename_step in Hs. run_m.
      destruct (Fs.exists_ (w_fs w) (PathLib.joinpath root (source a))); simpl in Hs.
      - destruct (Fs.exists_ (w_fs w) (PathLib.joinpath root (target a))); simpl in Hs.
        + inversion Hs; subst. eexists; simpl; repeat split; simpl; lia.
        + destruct (Fs.rename _ _ _); simpl in Hs; [|discriminate].
          inversion Hs; subst. eexists; simpl; repeat split; simpl; lia.
      - inversion Hs; subst. eexists; simpl; repeat split; simpl; lia. }
    destruct Hstep as [ev [Hout1 [Hev Hn1]]].
    exists (ev :: evs). rewrite Hout, Hout1, <- app_assoc. simpl.
    rewrite Hev, Hmap. repeat split.
    destruct (is_renamed ev); simpl; lia.
Qed.


(** ** Strings *)

Local Infix "+++" := String.append (at level 60, right associativity).

Lemma append_nil_r (s : string) : s +++ "" = s.
Proof. induction s as [|c s IH]; simpl; [reflexivity | f_equal; exact IH]. Qed.

Lemma append_assoc (s t u : string) : (s +++ t) +++ u = s +++ t +++ u.
Proof. induction s as [|c s IH]; simpl; [reflexivity | f_equal; exact IH]. Qed.

Lemma length_append (s t : string) :
  String.length (s +++ t) = String.length s + String.length t.
Proof. induction s as [|c s IH]; simpl; [reflexivity | f_equal; exact IH]. Qed.

Lemma all_append (cls : ascii -> bool) (s t : string) :
  Str.all cls (s +++ t) = Str.all cls s && Str.all cls t.
Proof.
  induction s as [|c s IH]; simpl; [reflexivity|].
  rewrite IH, andb_assoc. reflexivity.
Qed.

Lemma all_not_contains (cls : ascii -> bool) (c : ascii) (s : string) :
  cls c = false -> Str.all cls s = true -> Str.contains c s = false.
Proof.
  intros Hc. induction s as [|d s IH]; simpl; [reflexivity|].
  intros H. apply andb_true_iff in H as [Hd Hs].
  rewrite (IH Hs), orb_false_r.
  destruct (Ascii.eqb_spec c d) as [->|]; [congruence | reflexivity].
Qed.

Lemma contains_append (c : ascii) (s t : string) :
  Str.contains c (s +++ t) = Str.contains c s || Str.contains c t.
Proof.
  induction s as [|d s IH]; simpl; [reflexivity|].
  rewrite IH, orb_assoc. reflexivity.
Qed.

(** ** The matcher *)

Lemma first_some_some {A B} (f : A -> option B) (l : list A) (b : B) :
  Re.first_some f l = Some b -> exists a, In a l /\ f a = Some b.
Proof.
  induction l as [|a l IH]; simpl; [discriminate|].
  destruct (f a) as [b'|] eqn:E.
  - intros H; inversion H; subst. eauto.
  - intros H. destruct (IH H) as [a' [Hin Ha']]. eauto.
Qed.

Lemma first_some_none {A B} (f : A -> option B) (l : list A) :
  Re.first_some f l = None <-> forall a, In a l -> f a = None.
Proof.
  induction l as [|a l IH]; simpl.
  - split; [intros _ a [] | reflexivity].
  - destruct (f a) as [b|] eqn:E.
    + split; [discriminate|]. intros H.
      rewrite <- E. apply H. left; reflexivity.
    + rewrite IH. split.
      * intros H a' [<-|Hin]; [exact E | apply H, Hin].
      * intros H a' Hin. apply H. right; exact Hin.
Qed.

Lemma runs_in (cls : ascii -> bool) (n : nat) (s t r : string) :
  In (t, r) (Re.runs cls n s)
  <-> s = t +++ r /\ Str.all cls t = true /\ String.length t <= n.
Proof.
  revert s t r; induction n as [|n IH]; intros s t r.
  - destruct s; simpl.
    + split.
      * intros [H|[]]. inversion H; subst. simpl. auto.
      * intros [Hs [_ Hl]]. destruct t; simpl in *; [|lia]. subst. auto.
    + split.
      * intros [H|[]]. inversion H; subst. simpl. auto.
      * intros [Hs [_ Hl]]. destruct t; simpl in *; [|lia]. subst. auto.
  - destruct s as [|c s].
    + simpl. split.
      * intros [H|[]]. inversion H; subst. simpl. split; [reflexivity|].
        split; [reflexivity | lia].
      * intros [Hs [_ _]]. destruct t; simpl in Hs; [|discriminate].
        subst. auto.
    + cbn [Re.runs]. split.
      * intros [H|H].
        -- inversion H; subst. simpl. split; [reflexivity|].
           split; [reflexivity | lia].
        -- destruct (cls c) eqn:Hc; [|contradiction].
           apply in_map_iff in H as [[t' r'] [E Hin]].
           simpl in E. inversion E; subst.
           apply IH in Hin as [Hs [Ha Hl]]. subst s. simpl.
           rewrite Hc, Ha. split; [reflexivity|]. split; [reflexivity | lia].
      * intros [Hs [Ha Hl]]. destruct t as [|d t]; simpl in Hs.
        -- left. subst. reflexivity.
        -- right. inversion Hs; subst. simpl in Ha, Hl.
           apply andb_true_iff in Ha as [Hc Ha]. rewrite Hc.
           apply in_map_iff. exists (t, r). split; [reflexivity|].
           apply IH. split; [reflexivity|]. split; [exact Ha | lia].
Qed.

Lemma candidates_in (cls : ascii -> bool) (lo : nat) (hi : option nat)
    (greedy : bool) (s t r : string) :
  In (t, r) (Re.candidates cls lo hi greedy s)
  <-> s = t +++ r /\ Str.all cls t = true
      /\ lo <= String.length t /\ Re.within hi (String.length t).
Proof.
  unfold Re.candidates.
  assert (E : forall l : list (string * string),
             In (t, r) (if greedy then rev l else l) <-> In (t, r) l).
  { intros l. destruct greedy; [symmetry; apply in_rev | reflexivity]. }
  rewrite E, filter_In, runs_in. simpl. rewrite Nat.leb_le.
  destruct hi as [h|]; simpl.
  - tauto.
  - split; [tauto|]. intros [Hs [Ha [Hlo _]]].
    repeat split; try assumption.
    subst s. rewrite length_append. lia.
Qed.

Section MatchInversion.
Variables (p : Re.pattern) (prev : option ascii) (s : string)
          (m r : Re.captures).

Lemma match_bol_inv :
  Re.match_items (Re.Bol :: p) prev s m = Some r ->
  prev = None /\ Re.match_items p None s m = Some r.
Proof. simpl. destruct prev; [discriminate | auto]. Qed.

Lemma match_eol_inv :
  Re.match_items (Re.Eol :: p) prev s m = Some r ->
  Re.at_end s = true /\ Re.match_items p prev s m = Some r.
Proof. simpl. destruct (Re.at_end s); [auto | discriminate]. Qed.

Lemma match_wordb_inv :
  Re.match_items (Re.WordB :: p) prev s m = Some r ->
  xorb (Re.word_at prev) (Re.word_at (Re.head s)) = true
  /\ Re.match_items p prev s m = Some r.
Proof.
  simpl. destruct (xorb (Re.word_at prev) (Re.word_at (Re.head s)));
    [auto | discriminate].
Qed.

Lemma match_lit_inv (c : ascii) :
  Re.match_items (Re.Lit c :: p) prev s m = Some r ->
  exists s', s = String c s' /\ Re.match_items p (Some c) s' m = Some r.
Proof.
  simpl. destruct s as [|d s']; [discriminate|].
  destruct (Ascii.eqb_spec c d) as [->|]; [eauto | discriminate].
Qed.

Lemma match_rep_inv (cls : ascii -> bool) (lo : nat) (hi : option nat)
    (greedy : bool) (g : option string) :
  Re.match_items (Re.Rep cls lo hi greedy g :: p) prev s m = Some r ->
  exists t rest,
    s = t +++ rest /\ Str.all cls t = true
    /\ lo <= String.length t /\ Re.within hi (String.length t)
    /\ Re.match_items p (Re.last_char t prev) rest (Re.add_group g t m)
       = Some r.
Proof.
  simpl. intros H. apply first_some_some in H as [[t rest] [Hin Hm]].
  apply candidates_in in Hin. simpl in Hm.
  exists t, rest. tauto.
Qed.

(** If some way of matching the quantifier lets the rest match, the
    matcher finds a match (the one it tries first). *)
Lemma match_rep_intro (cls : ascii -> bool) (lo : nat) (hi : option nat)
    (greedy : bool) (g : option string) (t rest : string) :
  s = t +++ rest -> Str.all cls t = true ->
  lo <= String.length t -> Re.within hi (String.length t) ->
  Re.match_items p (Re.last_char t prev) rest (Re.add_group g t m) <> None ->
  Re.match_items (Re.Rep cls lo hi greedy g :: p) prev s m <> None.
Proof.
  intros Hs Ha Hlo Hhi Hm. simpl. intros Hnone.
  rewrite first_some_none in Hnone.
  apply Hm. apply (Hnone (t, rest)). apply candidates_in. tauto.
Qed.

End MatchInversion.

(** ** The track-number prefix *)

Lemma isdigit_isword (c : ascii) : Str.isdigit c = true -> Str.isword c = true.
Proof.
  intros H. unfold Str.isword. rewrite H.
  rewrite orb_true_r. reflexivity.
Qed.

Lemma track_pattern_match (d1 d2 : ascii) (rest : string) :
  Str.isdigit d1 = true -> Str.isdigit d2 = true ->
  Re.re_match TRACK_PATTERN (String d1 (String d2 rest))
  = if Re.word_at (Re.head rest) then None
    else Some [("track", String d1 (String d2 ""))].
Proof.
  intros H1 H2. unfold Re.re_match, TRACK_PATTERN.
  cbn [Re.match_items Re.candidates Re.runs]. rewrite H1, H2.
  cbn. rewrite (isdigit_isword _ H2).
  destruct (Re.word_at (Re.head rest)); reflexivity.
Qed.

Lemma track_pattern_inv (stem : string) (m : Re.captures) :
  Re.re_match TRACK_PATTERN stem = Some m ->
  exists d1 d2 rest,
    stem = String d1 (String d2 rest)
    /\ Str.isdigit d1 = true /\ Str.isdigit d2 = true
    /\ Re.word_at (Re.head rest) = false
    /\ m = [("track", String d1 (String d2 ""))].
Proof.
  unfold Re.re_match, TRACK_PATTERN. intros H.
  apply match_bol_inv in H as [_ H].
  apply match_rep_inv in H as [t [rest [Hs [Ha [Hlo [Hhi H]]]]]].
  simpl in Hhi.
  destruct t as [|d1 [|d2 [|d3 t]]]; simpl in Hlo, Hhi; try lia.
  simpl in Ha. rewrite andb_true_r in Ha. apply andb_true_iff in Ha as [Hd1 Hd2].
  exists d1, d2, rest. simpl in Hs. repeat split; try assumption.
  - apply match_wordb_inv in H as [Hx _]. simpl in Hx.
    rewrite (isdigit_isword _ Hd2) in Hx.
    destruct (Re.word_at (Re.head rest)); [discriminate | reflexivity].
  - apply match_wordb_inv in H as [_ H]. simpl in H. inversion H. reflexivity.
Qed.

Lemma album_pattern_inv (name : string) (m : Re.captures) :
  Re.re_match ALBUM_PATTERN name = Some m ->
  exists album year,
    m = [("album", album); ("year", year)]
    /\ album <> "" /\ String.length year = 4
    /\ Str.all Str.isdigit year = true.
Proof.
  unfold Re.re_match, ALBUM_PATTERN. intros H.
  apply match_bol_inv in H as [_ H].
  apply match_rep_inv in H as [album [r1 [_ [_ [Hlo [_ H]]]]]].
  apply match_rep_inv in H as [ws [r2 [_ [_ [_ [_ H]]]]]].
  apply match_lit_inv in H as [r3 [_ H]].
  apply match_rep_inv in H as [year [r4 [_ [Hy [Hlo4 [Hhi4 H]]]]]].
  apply match_lit_inv in H as [r5 [_ H]].
  apply match_eol_inv in H as [_ H].
  simpl in H, Hhi4. inversion H.
  exists album, year. repeat split; try assumption; try lia.
  intros ->. simpl in Hlo. lia.
Qed.

(** What [derive_metadata_for_file] returns when it returns tags. *)
Lemma derive_metadata_inv (path : Path) (upd : dict) :
  derive_metadata_for_file path = Some upd ->
  exists album year d1 d2 rest author,
    upd = [ ("album", album); ("date", year); ("year", year);
            ("tracknumber", String d1 (String d2 ""));
            ("artist", author); ("albumartist", author);
            ("author", author) ]
    /\ album <> "" /\ author <> "" /\ String.length year = 4
    /\ PathLib.stem path = String d1 (String d2 rest)
    /\ Str.isdigit d1 = true /\ Str.isdigit d2 = true
    /\ Re.word_at (Re.head rest) = false.
Proof.
  unfold derive_metadata_for_file.
  destruct (Re.re_match ALBUM_PATTERN _) as [am|] eqn:Ha; [|discriminate].
  destruct (Re.re_match TRACK_PATTERN _) as [tm|] eqn:Ht; [|discriminate].
  apply album_pattern_inv in Ha as [album [year [-> [_ [Hy _]]]]].
  apply track_pattern_inv in Ht as [d1 [d2 [rest [Hs [H1 [H2 [Hw ->]]]]]]].
  cbn [Re.group String.eqb Ascii.eqb Bool.eqb].
  destruct (Str.strip album) as [|c a] eqn:Hal; [simpl; discriminate|].
  destruct (Str.strip (PathLib.name _)) as [|c' au] eqn:Hau; [simpl; discriminate|].
  simpl. intros H. inversion H.
  exists (String c a), year, d1, d2, rest, (String c' au).
  repeat split; try assumption; discriminate.
Qed.

(** C2, as the code has it.  A stem that starts with two digits matches the
    track-number prefix rule exactly when the two digits are followed by
    the end of the stem or by a character that is not a word character;
    then the track number is the first two characters, and a file in an
    album folder [Album (YYYY)] under an artist folder derives its seven
    tags with that track number.  When a word character follows (a third
    digit, a letter, an underscore) the rule does not match and the file
    derives nothing.  Conversely every derived tracknumber is such a
    two-digit prefix of the stem. *)
Theorem track_prefix_needs_boundary :
  forall (d1 d2 : ascii) (rest : string),
    Str.isdigit d1 = true -> Str.isdigit d2 = true ->
    (Re.word_at (Re.head rest) = false ->
       Re.re_match TRACK_PATTERN (String d1 (String d2 rest))
       = Some [("track", String d1 (String d2 ""))]
       /\ forall path album year,
            PathLib.stem path = String d1 (String d2 rest) ->
            Re.re_match ALBUM_PATTERN (PathLib.name (PathLib.parent path))
            = Some [("album", album); ("year", year)] ->
            Str.strip album <> "" ->
            Str.strip (PathLib.name (PathLib.parent (PathLib.parent path))) <> "" ->
            exists upd,
              derive_metadata_for_file path = Some upd
              /\ Dict.lookup upd "tracknumber" = Some (String d1 (String d2 "")))
    /\ (Re.word_at (Re.head rest) = true ->
        Re.re_match TRACK_PATTERN (String d1 (String d2 rest)) = None
        /\ forall path,
             PathLib.stem path = String d1 (String d2 rest) ->
             derive_metadata_for_file path = None)
    /\ (forall path upd,
        PathLib.stem path = String d1 (String d2 rest) ->
        derive_metadata_for_file path = Some upd ->
        Re.word_at (Re.head rest) = false
        /\ Dict.lookup upd "tracknumber" = Some (String d1 (String d2 ""))).
Proof.
  intros d1 d2 rest H1 H2.
  pose proof (track_pattern_match d1 d2 rest H1 H2) as Hm.
  split; [|split].
  - intros Hw. rewrite Hw in Hm. split; [exact Hm|].
    intros path album year Hs Ha Hal Hau.
    unfold derive_metadata_for_file. rewrite Ha, Hs, Hm.
    cbn [Re.group String.eqb Ascii.eqb Bool.eqb].
    destruct (Str.strip album) as [|c a]; [contradiction|].
    destruct (Str.strip (PathLib.name _)) as [|c' au]; [contradiction|].
    simpl. eexists. split; reflexivity.
  - intros Hw. rewrite Hw in Hm. split; [exact Hm|].
    intros path Hs. unfold derive_metadata_for_file. rewrite Hs, Hm.
    destruct (Re.re_match ALBUM_PATTERN _); reflexivity.
  - intros path upd Hs Hd.
    apply derive_metadata_inv in Hd
      as [album [year [e1 [e2 [r [author [-> [_ [_ [_ [Hs' [_ [_ Hw]]]]]]]]]]]]].
    rewrite Hs in Hs'. inversion Hs'; subst. split; [exact Hw | reflexivity].
Qed.

Lemma track_prefix_needs_boundary_witness :
  (exists upd,
      derive_metadata_for_file
        ["Daft Punk"; "Discovery (2001)"; "01 One More Time.flac"] = Some upd
      /\ Dict.lookup upd "tracknumber" = Some "01")
  /\ derive_metadata_for_file
       ["Daft Punk"; "Discovery (2001)"; "012 One More Time.flac"] = None.
Proof.
  split.
  - refine (proj2 (proj1 (track_prefix_needs_boundary "0" "1" " One More Time"
                            eq_refl eq_refl) eq_refl)
              ["Daft Punk"; "Discovery (2001)"; "01 One More Time.flac"]
              "Discovery" "2001" _ _ _ _).
    + vm_compute; reflexivity.
    + vm_compute; reflexivity.
    + vm_compute; discriminate.
    + vm_compute; discriminate.
  - refine (proj2 (proj1 (proj2 (track_prefix_needs_boundary "0" "1"
                                   "2 One More Time" eq_refl eq_refl)) eq_refl)
              ["Daft Punk"; "Discovery (2001)"; "012 One More Time.flac"] _).
    vm_compute; reflexivity.
Defined.

(** Against C2 as stated: the stem [100 Title] starts with two digits, yet
    the rule does not match it and the file derives no tags, not the track
    number "10". *)
Lemma track_prefix_100_title :
  PathLib.stem ["Daft Punk"; "Discovery (2001)"; "100 Title.flac"] = "100 Title"
  /\ Re.re_match TRACK_PATTERN "100 Title" = None
  /\ derive_metadata_for_file
       ["Daft Punk"; "Discovery (2001)"; "100 Title.flac"] = None
  /\ ~ (forall stem d1 d2 rest,
          stem = String d1 (String d2 rest) ->
          Str.isdigit d1 = true -> Str.isdigit d2 = true ->
          Re.re_match TRACK_PATTERN stem
          = Some [("track", String d1 (String d2 ""))]).
Proof.
  repeat split; try (vm_compute; reflexivity).
  intros H.
  specialize (H "100 Title" "1"%char "0"%char "0 Title" eq_refl eq_refl eq_refl).
  vm_compute in H. discriminate.
Qed.

(** ** The metadata planner keeps the difference *)

Lemma derive_values_nonempty (path : Path) (upd : dict) :
  derive_metadata_for_file path = Some upd ->
  forall k v, In (k, v) upd -> v <> "".
Proof.
  intros H k v Hin.
  apply derive_metadata_inv in H
    as [album [year [d1 [d2 [rest [author [-> [Ha [Hau [Hy _]]]]]]]]]].
  assert (Hyear : year <> "") by (intros ->; simpl in Hy; lia).
  simpl in Hin.
  repeat (destruct Hin as [Hin|Hin];
          [inversion Hin; subst; try assumption; discriminate|]).
  contradiction.
Qed.

Lemma differs_iff (cur : dict) (k v : string) :
  v <> "" ->
  negb (String.eqb (Dict.get cur k "") v) = true <-> Dict.lookup cur k <> Some v.
Proof.
  intros Hv. unfold Dict.get. rewrite negb_true_iff, String.eqb_neq.
  destruct (Dict.lookup cur k) as [v'|].
  - split; [intros H E; inversion E; contradiction | congruence].
  - split; [discriminate | intros _; congruence].
Qed.

Lemma effective_in (path : Path) (upd cur : dict) (k v : string) :
  derive_metadata_for_file path = Some upd ->
  In (k, v) (effective upd cur)
  <-> In (k, v) upd /\ Dict.lookup cur k <> Some v.
Proof.
  intros Hd. unfold effective. rewrite filter_In. simpl.
  split.
  - intros [Hin Hne]. split; [exact Hin|].
    apply differs_iff in Hne; [exact Hne|].
    eapply derive_values_nonempty; eassumption.
  - intros [Hin Hne]. split; [exact Hin|].
    apply differs_iff; [|exact Hne].
    eapply derive_values_nonempty; eassumption.
Qed.

Lemma metadata_action_for_inv {C} (codec : Codec C) (fs : FS C)
    (root path : Path) (a : MetadataAction) :
  metadata_action_for codec fs root path = Ok (Some a) ->
  exists upd,
    is_audio_file fs path = true
    /\ derive_metadata_for_file path = Some upd
    /\ read_current_tags codec fs path (Dict.keys upd) = Ok (current a)
    /\ PathLib.relative_to path root = Ok (file_path a)
    /\ updates a = effective upd (current a)
    /\ updates a <> [].
Proof.
  unfold metadata_action_for.
  destruct (is_audio_file fs path); simpl; [|discriminate].
  destruct (derive_metadata_for_file path) as [upd|]; [|discriminate].
  intros H. apply rbind_ok in H as [cur [Hcur H]].
  destruct (effective upd cur) as [|kv eff] eqn:He; [discriminate|].
  apply rbind_ok in H as [rel [Hrel H]].
  inversion H; subst a; simpl.
  exists upd. rewrite He. repeat split; try assumption. discriminate.
Qed.


(** ** Files the codec cannot read *)

Lemma collect_app {A B} (body : A -> result (option B)) (l1 l2 : list A) :
  collect body (l1 ++ l2)
  = (xs <- collect body l1 ;; ys <- collect body l2 ;; Ok (xs ++ ys))%res.
Proof.
  induction l1 as [|x l1 IH]; simpl.
  - destruct (collect body l2); reflexivity.
  - destruct (body x) as [r|e]; simpl; [|reflexivity].
    rewrite IH.
    destruct (collect body l1) as [xs|e]; simpl; [|reflexivity].
    destruct (collect body l2) as [ys|e]; simpl; [|reflexivity].
    destruct r; reflexivity.
Qed.

Lemma collect_raise {A B} (body : A -> result (option B)) (l : list A)
    (x : A) (e : exn) :
  In x l -> body x = Raise e -> exists e', collect body l = Raise e'.
Proof.
  induction l as [|y l IH]; simpl; [contradiction|].
  intros [->|Hin] Hx.
  - rewrite Hx. simpl. eauto.
  - destruct (body y) as [r|e1]; simpl; [|eauto].
    destruct (IH Hin Hx) as [e' ->]. simpl. eauto.
Qed.

Lemma filter_all {A} (f : A -> bool) (l : list A) :
  (forall x, In x l -> f x = true) -> filter f l = l.
Proof.
  induction l as [|x l IH]; simpl; intros H; [reflexivity|].
  rewrite (H x (or_introl eq_refl)), IH; [reflexivity|].
  intros y Hy. apply H. right; exact Hy.
Qed.

Lemma effective_no_current (path : Path) (upd : dict) :
  derive_metadata_for_file path = Some upd -> effective upd [] = upd.
Proof.
  intros Hd. unfold effective. apply filter_all. intros [k v] Hin.
  apply differs_iff; [|discriminate].
  eapply derive_values_nonempty; eassumption.
Qed.

(** C8, as the code has it.  When the codec does not know the format of an
    audio file (it opens it as [None]), the file has no current tags, its
    action carries every derived tag, and the scan goes on with the files
    before and after it.  When the codec raises on the file, nothing is
    read for it, the scan raises, and [run_metadata] reports the read
    error and returns 1 without touching the file system. *)
Theorem unreadable_file_during_scan :
  forall (C : Type) (codec : Codec C) (fs : FS C) (root path : Path)
         (upd : dict),
    is_audio_file fs path = true ->
    derive_metadata_for_file path = Some upd ->
    (mutagen_file codec fs path = Ok None ->
       read_current_tags codec fs path (Dict.keys upd) = Ok []
       /\ forall rel before after,
            PathLib.relative_to path root = Ok rel ->
            metadata_action_for codec fs root path
            = Ok (Some (mkMeta rel upd []))
            /\ collect (metadata_action_for codec fs root)
                       (before ++ path :: after)
               = (xs <- collect (metadata_action_for codec fs root) before ;;
                  ys <- collect (metadata_action_for codec fs root) after ;;
                  Ok (xs ++ mkMeta rel upd [] :: ys))%res)
    /\ (forall e,
          mutagen_file codec fs path = Raise e ->
          read_current_tags codec fs path (Dict.keys upd) = Raise e
          /\ metadata_action_for codec fs root path = Raise e
          /\ (In path (Fs.rglob fs root) ->
              exists e',
                gather_metadata_actions codec fs root = Raise e'
                /\ forall yes w,
                     w_fs w = fs -> w_mutagen w = true ->
                     run_metadata codec root yes w
                     = (say (ReadError e') w, Ok 1))).
Proof.
  intros C codec fs root path upd Haudio Hd. split.
  - intros Hopen.
    assert (Hcur : read_current_tags codec fs path (Dict.keys upd) = Ok []).
    { unfold read_current_tags. rewrite Hopen. reflexivity. }
    split; [exact Hcur|].
    intros rel before after Hrel.
    assert (Hbody : metadata_action_for codec fs root path
                    = Ok (Some (mkMeta rel upd []))).
    { unfold metadata_action_for. rewrite Haudio, Hd, Hcur. simpl.
      rewrite (effective_no_current path upd Hd), Hrel.
      pose proof (derive_metadata_inv path upd Hd) as [? [? [? [? [? [? [-> _]]]]]]].
      reflexivity. }
    split; [exact Hbody|].
    rewrite collect_app. simpl. rewrite Hbody. simpl.
    destruct (collect _ before) as [xs|e]; simpl; [|reflexivity].
    destruct (collect _ after) as [ys|e]; reflexivity.
  - intros e Hopen.
    assert (Hcur : read_current_tags codec fs path (Dict.keys upd) = Raise e).
    { unfold read_current_tags. rewrite Hopen. reflexivity. }
    assert (Hbody : metadata_action_for codec fs root path = Raise e).
    { unfold metadata_action_for. rewrite Haudio, Hd, Hcur. reflexivity. }
    split; [exact Hcur|]. split; [exact Hbody|].
    intros Hin.
    destruct (collect_raise _ _ _ _ Hin Hbody) as [e' He'].
    exists e'. split; [exact He'|].
    intros yes w Hfs Hm. unfold run_metadata. run_m.
    rewrite Hm. simpl. rewrite Hfs.
    unfold gather_metadata_actions in He'. unfold gather_metadata_actions.
    rewrite He'. reflexivity.
Qed.

Lemma unreadable_file_during_scan_witness :
  read_current_tags Demo.codec Demo.healthy_tree
    ["music"; "Daft Punk"; "Discovery (2001)"; "03 Digital Love.alac"]
    ["album"; "date"; "year"; "tracknumber"; "artist"; "albumartist"; "author"]
  = Ok []
  /\ exists e',
       gather_metadata_actions Demo.codec Demo.tagged_tree Demo.root = Raise e'
       /\ run_metadata Demo.codec Demo.root true (Demo.world Demo.tagged_tree [])
          = (say (ReadError e') (Demo.world Demo.tagged_tree []), Ok 1).
Proof.
  split.
  - apply (proj1 (proj1 (unreadable_file_during_scan
                           Demo.Media Demo.codec Demo.healthy_tree Demo.root
                           ["music"; "Daft Punk"; "Discovery (2001)";
                            "03 Digital Love.alac"]
                           _ ltac:(vm_compute; reflexivity)
                           ltac:(vm_compute; reflexivity))
                        ltac:(vm_compute; reflexivity))).
  - destruct (proj2 (proj2 (proj2 (unreadable_file_during_scan
                 Demo.Media Demo.codec Demo.tagged_tree Demo.root
                 ["music"; "Daft Punk"; "Discovery (2001)";
                  "01 One More Time.flac"]
                 _ ltac:(vm_compute; reflexivity)
                 ltac:(vm_compute; reflexivity))
               CodecError ltac:(vm_compute; reflexivity)))
               ltac:(vm_compute; tauto)) as [e' [He' Hrun]].
    exists e'. split; [exact He'|]. apply Hrun; reflexivity.
Defined.

(** Against C8 as stated: a damaged track among healthy ones; the codec
    raises on it, the scan stops there, and no file gets an action,
    although the healthy tree plans two. *)
Lemma codec_exception_aborts_scan :
  is_audio_file Demo.tagged_tree
    ["music"; "Daft Punk"; "Discovery (2001)"; "01 One More Time.flac"] = true
  /\ read_current_tags Demo.codec Demo.tagged_tree
       ["music"; "Daft Punk"; "Discovery (2001)"; "01 One More Time.flac"]
       ["album"; "date"; "year"; "tracknumber"; "artist"; "albumartist"; "author"]
     = Raise CodecError
  /\ gather_metadata_actions Demo.codec Demo.tagged_tree Demo.root
     = Raise CodecError
  /\ run_metadata Demo.codec Demo.root true (Demo.world Demo.tagged_tree [])
     = (say (ReadError CodecError) (Demo.world Demo.tagged_tree []), Ok 1)
  /\ (exists actions,
        gather_metadata_actions Demo.codec Demo.healthy_tree Demo.root
        = Ok actions /\ List.length actions = 2).
Proof.
  repeat split; try (vm_compute; reflexivity).
  eexists. split; vm_compute; reflexivity.
Qed.

(** ** A second pass of the album rule *)

Lemma py_format_default_album (album year : string) :
  py_format default_album_format [("album", FStr album); ("year", FStr year)]
  = Ok (album +++ " (" +++ year +++ ")").
Proof. reflexivity. Qed.

Lemma album_dir_pattern_inv (s : string) (m : Re.captures) :
  Re.re_match ALBUM_DIR_PATTERN s = Some m ->
  exists year ws rest,
    s = year +++ ws +++ String "-" rest
    /\ String.length year = 4
    /\ Str.all Str.isdigit year = true
    /\ Str.all Str.isspace ws = true.
Proof.
  unfold Re.re_match, ALBUM_DIR_PATTERN. intros H.
  apply match_bol_inv in H as [_ H].
  apply match_rep_inv in H as [year [r1 [Hs1 [Hy [Hlo [Hhi H]]]]]].
  apply match_rep_inv in H as [ws [r2 [Hs2 [Hw [_ [_ H]]]]]].
  apply match_lit_inv in H as [rest [Hs3 _]].
  exists year, ws, rest. simpl in Hhi. subst.
  repeat split; try assumption; lia.
Qed.

Lemma album_dir_head_complete (year ws rest : string) :
  String.length year = 4 ->
  Str.all Str.isdigit year = true ->
  Str.all Str.isspace ws = true ->
  Re.re_match ALBUM_DIR_HEAD (year +++ ws +++ String "-" rest) <> None.
Proof.
  intros Hl Hy Hw. unfold Re.re_match, ALBUM_DIR_HEAD.
  change (Re.match_items (Re.Bol :: ?p) None ?s ?m)
    with (Re.match_items p None s m).
  apply match_rep_intro with (t := year) (rest := ws +++ String "-" rest);
    try assumption; try reflexivity; try (simpl; lia).
  apply match_rep_intro with (t := ws) (rest := String "-" rest);
    try assumption; try reflexivity; try (simpl; lia).
  simpl. discriminate.
Qed.

(** A text made of [y] and a dash, with no opening parenthesis in [y],
    that starts [a ++ " (" ++ ...] lies within [a]. *)
Lemma dash_before_paren (a y tail rest : string) :
  a +++ " (" +++ tail = y +++ String "-" rest ->
  Str.contains "(" y = false ->
  exists rest', a = y +++ String "-" rest'.
Proof.
  revert y; induction a as [|c a IH]; intros y H Hy.
  - simpl in H. destruct y as [|c1 [|c2 y]]; simpl in H; inversion H; subst.
    simpl in Hy. discriminate.
  - destruct y as [|c1 y]; simpl in H; inversion H; subst.
    + exists a. reflexivity.
    + simpl in Hy. apply orb_false_iff in Hy as [_ Hy].
      destruct (IH y H2 Hy) as [rest' ->]. exists rest'. reflexivity.
Qed.

(** C5, as the code has it.  For a folder name of the shape [YYYY - Name],
    the default template renders the trimmed name followed by the year in
    parentheses; when the trimmed name does not itself begin with four
    digits, optional whitespace and a dash, the album rule finds no match
    in that output, so the planner records no action for a folder so
    named. *)
Theorem album_rule_second_pass :
  forall (name : string) (m : Re.captures),
    Re.re_match ALBUM_DIR_PATTERN name = Some m ->
    let album := Str.strip (Re.group m "album") in
    let year := Re.group m "year" in
    let out := album +++ " (" +++ year +++ ")" in
    normalized_album_name py_format name default_album_format
    = Ok (if String.eqb out name then None else Some out)
    /\ (Re.re_match ALBUM_DIR_HEAD album = None ->
        Re.re_match ALBUM_DIR_PATTERN out = None
        /\ normalized_album_name py_format out default_album_format = Ok None
        /\ forall (C : Type) (fs : FS C) (root path : Path),
             PathLib.name path = out ->
             dir_rename_for py_format fs root default_album_format path
             = Ok None).
Proof.
  intros name m Hm album year out. split.
  - unfold normalized_album_name. rewrite Hm.
    fold album year. rewrite py_format_default_album. reflexivity.
  - intros Hhead.
    assert (Hout : Re.re_match ALBUM_DIR_PATTERN out = None).
    { destruct (Re.re_match ALBUM_DIR_PATTERN out) as [m'|] eqn:E;
        [|reflexivity].
      exfalso.
      apply album_dir_pattern_inv in E as [y [ws [rest [Hs [Hl [Hy Hw]]]]]].
      unfold out in Hs. rewrite <- (append_assoc y ws) in Hs.
      apply dash_before_paren in Hs as [rest' Ha].
      - rewrite append_assoc in Ha.
        apply (album_dir_head_complete y ws rest' Hl Hy Hw).
        rewrite <- Ha. exact Hhead.
      - rewrite contains_append.
        rewrite (all_not_contains Str.isdigit "(" y eq_refl Hy).
        rewrite (all_not_contains Str.isspace "(" ws eq_refl Hw).
        reflexivity. }
    split; [exact Hout|].
    assert (Hn : normalized_album_name py_format out default_album_format
                 = Ok None).
    { unfold normalized_album_name. rewrite Hout. reflexivity. }
    split; [exact Hn|].
    intros C fs root path Hp. unfold dir_rename_for.
    destruct (negb (Fs.is_dir fs path)); [reflexivity|].
    rewrite Hp, Hn. reflexivity.
Qed.

Lemma album_rule_second_pass_witness :
  normalized_album_name py_format "2001 - Discovery" default_album_format
  = Ok (Some "Discovery (2001)")
  /\ normalized_album_name py_format "Discovery (2001)" default_album_format
     = Ok None.
Proof.
  pose proof (album_rule_second_pass "2001 - Discovery"
                [("year", "2001"); ("album", "Discovery")] eq_refl) as [H1 H2].
  split; [exact H1|].
  apply (H2 eq_refl).
Defined.

(** Against C5 as stated: a folder whose album name itself starts with a
    year and a dash; the output of the first pass matches the album rule
    again, and a second run of the planner records a rename for it. *)
Lemma album_rule_second_pass_replans :
  Re.re_match ALBUM_DIR_PATTERN "2001 - 1999 - Foo"
  = Some [("year", "2001"); ("album", "1999 - Foo")]
  /\ normalized_album_name py_format "2001 - 1999 - Foo" default_album_format
     = Ok (Some "1999 - Foo (2001)")
  /\ normalized_album_name py_format "1999 - Foo (2001)" default_album_format
     = Ok (Some "Foo (2001) (1999)")
  /\ gather_rename_actions py_format
       [ (["music"], @Dir Demo.Media); (["music"; "1999 - Foo (2001)"], Dir) ]
       Demo.root default_album_format default_track_format
     = Ok [ mkRename KDir ["1999 - Foo (2001)"] ["Foo (2001) (1999)"] ].
Proof. repeat split; vm_compute; reflexivity. Qed.

(** ** Renaming in the file system *)

Lemma is_prefix_app_l (r x y : Path) :
  PathLib.is_prefix (r ++ x) (r ++ y) = PathLib.is_prefix x y.
Proof.
  induction r as [|a r IH]; simpl; [reflexivity|].
  rewrite String.eqb_refl. exact IH.
Qed.

Lemma is_prefix_trans (p q r : Path) :
  PathLib.is_prefix p q = true -> PathLib.is_prefix q r = true ->
  PathLib.is_prefix p r = true.
Proof.
  rewrite !is_prefix_iff. intros [x ->] [y ->].
  exists (x ++ y). rewrite app_assoc. reflexivity.
Qed.

Section Moved.
Context {C : Type}.
Variables (fs : FS C) (src dst : Path).

Let fs' : FS C := map (fun e => (Fs.moved src dst (fst e), snd e)) fs.

(** A path outside both [src] and [dst] is not touched by the move. *)
Lemma lookup_moved_other (p : Path) :
  PathLib.is_prefix src p = false ->
  PathLib.is_prefix dst p = false ->
  Fs.lookup fs' p = Fs.lookup fs p.
Proof.
  intros Hs Hd. unfold fs'. induction fs as [|[q n] l IH]; simpl; [reflexivity|].
  rewrite IH. unfold Fs.moved.
  destruct (PathLib.is_prefix src q) eqn:Hq.
  - assert (E1 : PathLib.path_eqb q p = false).
    { apply path_eqb_neq. intros ->. congruence. }
    assert (E2 : PathLib.path_eqb (dst ++ skipn (List.length src) q) p = false).
    { apply path_eqb_neq. intros <-. rewrite is_prefix_app in Hd. discriminate. }
    rewrite E1, E2. reflexivity.
  - reflexivity.
Qed.

(** Nothing is left below [src] once it has moved to a [dst] that is not
    above the path looked for. *)
Lemma lookup_moved_under (p : Path) :
  PathLib.is_prefix src p = true ->
  PathLib.is_prefix dst p = false ->
  Fs.lookup fs' p = None.
Proof.
  intros Hs Hd. unfold fs'. induction fs as [|[q n] l IH]; simpl; [reflexivity|].
  rewrite IH. unfold Fs.moved.
  destruct (PathLib.is_prefix src q) eqn:Hq.
  - assert (E : PathLib.path_eqb (dst ++ skipn (List.length src) q) p = false).
    { apply path_eqb_neq. intros <-. rewrite is_prefix_app in Hd. discriminate. }
    rewrite E. reflexivity.
  - assert (E : PathLib.path_eqb q p = false).
    { apply path_eqb_neq. intros ->. congruence. }
    rewrite E. reflexivity.
Qed.

End Moved.

Lemma entry_lookup {C} (fs : FS C) (p : Path) :
  p <> [] ->
  Fs.is_entry fs p = match Fs.lookup fs p with Some _ => true | None => false end.
Proof. destruct p; [contradiction | reflexivity]. Qed.

(** An entry exists; what does not exist is no entry; and what exists is an
    entry or the [..] of a directory. *)
Lemma exists_entry {C} (fs : FS C) (p : Path) :
  Fs.is_entry fs p = true -> Fs.exists_ fs p = true.
Proof. intros H. unfold Fs.exists_. rewrite H. reflexivity. Qed.

Lemma exists_false {C} (fs : FS C) (p : Path) :
  Fs.exists_ fs p = false ->
  Fs.is_entry fs p = false
  /\ (PathLib.name p = ".." -> Fs.is_dir fs (PathLib.parent p) = false).
Proof.
  unfold Fs.exists_. intros H. apply orb_false_iff in H as [H1 H2].
  split; [exact H1|]. intros E. rewrite E in H2. exact H2.
Qed.

Lemma exists_cases {C} (fs : FS C) (p : Path) :
  Fs.exists_ fs p = true ->
  Fs.is_entry fs p = true
  \/ (PathLib.name p = ".." /\ Fs.is_dir fs (PathLib.parent p) = true).
Proof.
  unfold Fs.exists_. intros H. apply orb_true_iff in H as [H|H]; [left; exact H|].
  apply andb_true_iff in H as [H1 H2]. apply String.eqb_eq in H1. auto.
Qed.

Lemma is_dir_entry {C} (fs : FS C) (p : Path) :
  Fs.is_dir fs p = true -> Fs.is_entry fs p = true.
Proof.
  destruct p; [reflexivity|]. simpl.
  destruct (Fs.lookup fs (s :: p)) as [[|c]|]; auto.
Qed.

Lemma is_dir_exists {C} (fs : FS C) (p : Path) :
  Fs.is_dir fs p = true -> Fs.exists_ fs p = true.
Proof. intros H. apply exists_entry, is_dir_entry, H. Qed.

Lemma is_prefix_parent (src p : Path) :
  PathLib.is_prefix src p = false ->
  PathLib.is_prefix src (PathLib.parent p) = false.
Proof.
  intros H. destruct (PathLib.is_prefix src (PathLib.parent p)) eqn:E;
    [|reflexivity].
  rewrite <- H. symmetry. apply (is_prefix_trans _ _ _ E).
  unfold PathLib.parent. destruct p as [|x p] using rev_ind; [reflexivity|].
  rewrite removelast_last. apply is_prefix_app.
Qed.

Lemma snoc_not_nil {A} (l : list A) (x : A) : l ++ [x] <> [].
Proof. destruct l; discriminate. Qed.

(** [rename] when its guards pass. *)
Lemma rename_ok {C} (fs : FS C) (src dst : Path) :
  src <> [] ->
  Fs.exists_ fs src = true ->
  Fs.exists_ fs dst = false ->
  Fs.is_dir fs (PathLib.parent dst) = true ->
  PathLib.is_prefix src dst = false ->
  Fs.rename fs src dst
  = Ok (map (fun e => (Fs.moved src dst (fst e), snd e)) fs).
Proof.
  intros Hne H1 H2 H3 H4. unfold Fs.rename.
  destruct src; [contradiction|].
  rewrite H1, H2, H3, H4. reflexivity.
Qed.

Lemma entry_moved_other {C} (fs : FS C) (src dst p : Path) :
  PathLib.is_prefix src p = false ->
  PathLib.is_prefix dst p = false ->
  Fs.is_entry (map (fun e => (Fs.moved src dst (fst e), snd e)) fs) p
  = Fs.is_entry fs p.
Proof.
  intros Hs Hd. destruct p; [reflexivity|]. simpl.
  rewrite lookup_moved_other by assumption. reflexivity.
Qed.

Lemma is_dir_moved_other {C} (fs : FS C) (src dst p : Path) :
  PathLib.is_prefix src p = false ->
  PathLib.is_prefix dst p = false ->
  Fs.is_dir (map (fun e => (Fs.moved src dst (fst e), snd e)) fs) p
  = Fs.is_dir fs p.
Proof.
  intros Hs Hd. destruct p; [reflexivity|]. simpl.
  rewrite lookup_moved_other by assumption. reflexivity.
Qed.

Lemma exists_moved_other {C} (fs : FS C) (src dst p : Path) :
  PathLib.is_prefix src p = false ->
  PathLib.is_prefix dst p = false ->
  Fs.exists_ (map (fun e => (Fs.moved src dst (fst e), snd e)) fs) p
  = Fs.exists_ fs p.
Proof.
  intros Hs Hd. unfold Fs.exists_.
  rewrite entry_moved_other by assumption.
  rewrite is_dir_moved_other by (apply is_prefix_parent; assumption).
  reflexivity.
Qed.

Lemma entry_moved_under {C} (fs : FS C) (src dst p : Path) :
  p <> [] ->
  PathLib.is_prefix src p = true ->
  PathLib.is_prefix dst p = false ->
  Fs.is_entry (map (fun e => (Fs.moved src dst (fst e), snd e)) fs) p = false.
Proof.
  intros Hne Hs Hd. rewrite entry_lookup by assumption.
  rewrite lookup_moved_under by assumption. reflexivity.
Qed.

(** What lies strictly below [src] is gone after the move, also when its
    last part is [..]. *)
Lemma exists_moved_under {C} (fs : FS C) (src dst p : Path) (x : string) :
  src <> [] ->
  PathLib.is_prefix src p = true ->
  PathLib.is_prefix dst (p ++ [x]) = false ->
  Fs.exists_ (map (fun e => (Fs.moved src dst (fst e), snd e)) fs) (p ++ [x])
  = false.
Proof.
  intros Hne Hs Hd. unfold Fs.exists_.
  rewrite entry_moved_under.
  - rewrite parent_snoc.
    destruct p as [|y p].
    + destruct src; [contradiction | discriminate].
    + unfold Fs.is_dir. rewrite lookup_moved_under.
      * apply andb_false_r.
      * exact Hs.
      * rewrite <- (parent_snoc (y :: p) x). apply is_prefix_parent, Hd.
  - apply snoc_not_nil.
  - apply (is_prefix_trans _ _ _ Hs), is_prefix_app.
  - exact Hd.
Qed.

Lemma skips_app (out evs : list Event) :
  source_missing_skips (out ++ evs)
  = source_missing_skips out + source_missing_skips evs.
Proof.
  unfold source_missing_skips. rewrite filter_app, length_app. reflexivity.
Qed.

(** ** A track inside a folder that is renamed too *)

Section Scenario.
Context {C : Type}.
Variables (root pd : Path) (n n' f f' : string).
Hypothesis names_differ : n <> n'.

(** The rename of the track [n/f] to [n/f'] and of the folder [n] to [n'],
    both below the folder [pd] of the root. *)
Let fa : RenameAction := mkRename KFile (pd ++ [n; f]) (pd ++ [n; f']).
Let da : RenameAction := mkRename KDir (pd ++ [n]) (pd ++ [n']).
Let D : Path := root ++ pd.

Lemma n_neqb : String.eqb n n' = false.
Proof. apply String.eqb_neq, names_differ. Qed.

Lemma n_neqb' : String.eqb n' n = false.
Proof. rewrite String.eqb_sym. apply n_neqb. Qed.

Ltac paths :=
  unfold fa, da, PathLib.joinpath; simpl source; simpl target;
  rewrite ?app_assoc; fold D.

Ltac prefixes :=
  rewrite ?is_prefix_app_l; simpl;
  rewrite ?String.eqb_refl, ?andb_false_r, ?n_neqb, ?n_neqb'; simpl;
  try reflexivity.

Lemma outside (x : string) (p : Path) :
  p = D \/ p = D ++ [n] \/ p = D ++ [n'] ->
  PathLib.is_prefix (D ++ [n; x]) p = false.
Proof.
  intros [-> | [-> | ->]].
  - rewrite <- (app_nil_r D) at 2. prefixes.
  - prefixes.
  - prefixes.
Qed.

(** The turn of the track: its source is there, so it is renamed or
    skipped for its target; the folder, its parent and its target are as
    before. *)
Lemma track_turn (k : nat) (w : World C) :
  Fs.exists_ (w_fs w) (D ++ [n; f]) = true ->
  Fs.is_dir (w_fs w) (D ++ [n]) = true ->
  exists w1 k1 ev,
    rename_step root fa k w = (w1, Ok k1)
    /\ w_out w1 = w_out w ++ [ev]
    /\ is_source_missing ev = false
    /\ (forall p, p = D \/ p = D ++ [n] \/ p = D ++ [n'] ->
          Fs.exists_ (w_fs w1) p = Fs.exists_ (w_fs w) p
          /\ Fs.is_dir (w_fs w1) p = Fs.is_dir (w_fs w) p).
Proof.
  intros Hsrc Hdir.
  destruct (Fs.exists_ (w_fs w) (D ++ [n; f'])) eqn:Hdst.
  - exists (say (SkipTargetExists fa) w), k, (SkipTargetExists fa).
    split; [|simpl; auto].
    apply rename_step_target_exists; paths; assumption.
  - assert (Hr : Fs.rename (w_fs w) (D ++ [n; f]) (D ++ [n; f'])
                 = Ok (map (fun e => (Fs.moved (D ++ [n; f]) (D ++ [n; f']) (fst e),
                                      snd e)) (w_fs w))).
    { apply rename_ok; try assumption.
      - change [n; f] with ([n] ++ [f]). rewrite app_assoc. apply snoc_not_nil.
      - change [n; f'] with ([n] ++ [f']). rewrite app_assoc.
        rewrite parent_snoc. exact Hdir.
      - destruct (PathLib.is_prefix (D ++ [n; f]) (D ++ [n; f'])) eqn:E;
          [|reflexivity].
        rewrite is_prefix_app_l in E. simpl in E.
        rewrite String.eqb_refl, andb_true_r in E. simpl in E.
        apply String.eqb_eq in E. subst f'. congruence. }
    eexists _, (k + 1), (Renamed fa). split; [|split; [|split]].
    + rewrite rename_step_rename; paths; try assumption.
      rewrite Hr. reflexivity.
    + reflexivity.
    + reflexivity.
    + intros p Hp. simpl.
      split; [apply exists_moved_other | apply is_dir_moved_other];
        apply outside; exact Hp.
Qed.

(** The turn of the folder, when it is there and its new name is free. *)
Lemma folder_turn (k : nat) (w : World C) :
  Fs.is_dir (w_fs w) (D ++ [n]) = true ->
  Fs.is_dir (w_fs w) D = true ->
  Fs.exists_ (w_fs w) (D ++ [n']) = false ->
  rename_step root da k w
  = (renamed_world
       (map (fun e => (Fs.moved (D ++ [n]) (D ++ [n']) (fst e), snd e)) (w_fs w))
       da w,
     Ok (k + 1)).
Proof.
  intros Hdir Hpar Hfree.
  rewrite rename_step_rename; paths; try assumption.
  - rewrite rename_ok; try assumption; try reflexivity.
    + apply snoc_not_nil.
    + apply is_dir_exists, Hdir.
    + rewrite parent_snoc. exact Hpar.
    + prefixes.
  - apply is_dir_exists, Hdir.
Qed.

(** The turn of the track once the folder has moved. *)
Lemma track_turn_too_late (k : nat) (w : World C) (fs0 : FS C) :
  w_fs w = map (fun e => (Fs.moved (D ++ [n]) (D ++ [n']) (fst e), snd e)) fs0 ->
  rename_step root fa k w = (say (SkipSourceMissing fa) w, Ok k).
Proof.
  intros Hfs. apply rename_step_source_missing. paths. rewrite Hfs.
  change [n; f] with ([n] ++ [f]). rewrite app_assoc.
  apply exists_moved_under.
  - apply snoc_not_nil.
  - rewrite <- (app_nil_r (D ++ [n])) at 2. apply is_prefix_app.
  - rewrite <- app_assoc. prefixes.
Qed.

Lemma scenario_orders (actions : list RenameAction) :
  actions = [fa; da] \/ actions = [da; fa] ->
  file_actions actions = [fa] /\ dir_actions actions = [da].
Proof. intros [-> | ->]; split; reflexivity. Qed.

Lemma files_then_folder (w : World C) :
  Fs.exists_ (w_fs w) (D ++ [n; f]) = true ->
  Fs.is_dir (w_fs w) (D ++ [n]) = true ->
  Fs.is_dir (w_fs w) D = true ->
  Fs.exists_ (w_fs w) (D ++ [n']) = false ->
  exists w2 k evs,
    rename_loop root [fa; da] 0 w = (w2, Ok k)
    /\ w_out w2 = w_out w ++ evs
    /\ source_missing_skips evs = 0.
Proof.
  intros Hsrc Hdir Hpar Hfree.
  destruct (track_turn 0 w Hsrc Hdir) as [w1 [k1 [ev [Hstep [Hout [Hev Hsame]]]]]].
  rewrite (rename_loop_cons _ _ _ _ _ _ _ Hstep).
  destruct (Hsame D (or_introl eq_refl)) as [_ HD].
  destruct (Hsame (D ++ [n]) (or_intror (or_introl eq_refl))) as [_ HDn].
  destruct (Hsame (D ++ [n']) (or_intror (or_intror eq_refl))) as [HDn' _].
  rewrite Hdir in HDn. rewrite Hpar in HD. rewrite Hfree in HDn'.
  pose proof (folder_turn k1 w1 HDn HD HDn') as Hstep2.
  rewrite (rename_loop_cons _ _ _ _ _ _ _ Hstep2). simpl. unfold ret.
  eexists _, _, [ev; Renamed da]. split; [reflexivity|]. split.
  - simpl. rewrite Hout, <- app_assoc. reflexivity.
  - unfold source_missing_skips. simpl. rewrite Hev. reflexivity.
Qed.

Lemma folder_then_files (w : World C) :
  Fs.is_dir (w_fs w) (D ++ [n]) = true ->
  Fs.is_dir (w_fs w) D = true ->
  Fs.exists_ (w_fs w) (D ++ [n']) = false ->
  exists w2 k evs,
    rename_loop root [da; fa] 0 w = (w2, Ok k)
    /\ w_out w2 = w_out w ++ evs
    /\ source_missing_skips evs = 1.
Proof.
  intros Hdir Hpar Hfree.
  pose proof (folder_turn 0 w Hdir Hpar Hfree) as Hstep.
  rewrite (rename_loop_cons _ _ _ _ _ _ _ Hstep).
  match type of Hstep with _ = (?w1, _) => set (w1' := w1) in * end.
  pose proof (track_turn_too_late (0 + 1) w1' (w_fs w) eq_refl) as Hstep2.
  rewrite (rename_loop_cons _ _ _ _ _ _ _ Hstep2). simpl. unfold ret.
  eexists _, _, [Renamed da; SkipSourceMissing fa].
  split; [reflexivity|]. split.
  - simpl. rewrite <- app_assoc. reflexivity.
  - reflexivity.
Qed.

End Scenario.

(** ** The order of a run *)

Lemma string_leb_iff (a b : string) :
  String.leb a b = true <-> String_as_OT.lt a b \/ a = b.
Proof.
  unfold String.leb.
  pose proof (String_as_OT.cmp_lt a b) as Hlt.
  pose proof (String_as_OT.cmp_eq a b) as Heq.
  unfold String_as_OT.cmp in *.
  destruct (String.compare a b).
  - split; [intros _; right; apply Heq; reflexivity | reflexivity].
  - split; [intros _; left; apply Hlt; reflexivity | reflexivity].
  - split; [discriminate|].
    intros [H|H]; [apply Hlt in H | apply Heq in H]; discriminate.
Qed.

Lemma string_leb_trans (a b c : string) :
  String.leb a b = true -> String.leb b c = true -> String.leb a c = true.
Proof.
  rewrite !string_leb_iff. intros [H1| ->] [H2| ->]; auto.
  left. eapply String_as_OT.lt_trans; eassumption.
Qed.

Lemma file_actions_sorted (actions : list RenameAction) :
  StronglySorted
    (fun a b => String.leb (relative_source a) (relative_source b) = true)
    (file_actions actions).
Proof.
  apply Sorted_StronglySorted.
  - intros a b c. apply string_leb_trans.
  - apply (sorted_by_sorted by_source by_source_total).
Qed.

Lemma dir_actions_sorted (actions : list RenameAction) :
  StronglySorted (fun a b => depth b <= depth a) (dir_actions actions).
Proof.
  apply Sorted_StronglySorted.
  - intros a b c H1 H2. lia.
  - pose proof (sorted_by_sorted deepest_first deepest_first_total
                  (filter (is_kind KDir) actions)) as H.
    unfold dir_actions. induction H as [|a l Hs IH Hhd]; constructor.
    + exact IH.
    + destruct Hhd as [|b l' Hab]; constructor.
      apply Nat.leb_le. exact Hab.
Qed.

(** ** No source goes missing under the order of the program *)

Lemma entry_moved_keep {C} (fs : FS C) (src dst p : Path) :
  Fs.is_entry fs p = true ->
  PathLib.is_prefix src p = false ->
  Fs.is_entry (map (fun e => (Fs.moved src dst (fst e), snd e)) fs) p = true.
Proof.
  destruct p as [|x p]; [reflexivity|]. unfold Fs.is_entry.
  intros H Hp. induction fs as [|[q n] l IH]; simpl in *; [discriminate|].
  destruct (PathLib.path_eqb (Fs.moved src dst q) (x :: p)) eqn:E1;
    [reflexivity|].
  destruct (PathLib.path_eqb q (x :: p)) eqn:E2.
  - apply path_eqb_eq in E2. subst q.
    unfold Fs.moved in E1. rewrite Hp, path_eqb_refl in E1. discriminate.
  - apply IH, H.
Qed.

Lemma rename_inv {C} (fs fs' : FS C) (src dst : Path) :
  Fs.rename fs src dst = Ok fs' ->
  fs' = map (fun e => (Fs.moved src dst (fst e), snd e)) fs.
Proof.
  unfold Fs.rename. destruct src; [discriminate|].
  destruct (negb _); [discriminate|].
  destruct (Fs.exists_ fs dst); [discriminate|].
  destruct (negb _); [discriminate|].
  destruct (PathLib.is_prefix _ _); [discriminate|].
  intros H; inversion H; reflexivity.
Qed.

Lemma rename_loop_no_missing {C} (root : Path) (l : list RenameAction) :
  StronglySorted (clear_of root) l ->
  forall (k : nat) (w : World C),
    Forall (fun a => Fs.is_entry (w_fs w) (PathLib.joinpath root (source a)) = true) l ->
    source_missing_skips (w_out (fst (rename_loop root l k w)))
    = source_missing_skips (w_out w).
Proof.
  induction 1 as [|a l Hs IH Hclear]; intros k w Hex.
  - reflexivity.
  - inversion Hex as [|? ? Ha' Hl]; subst.
    pose proof (exists_entry _ _ Ha') as Ha.
    simpl. unfold bind.
    destruct (Fs.exists_ (w_fs w) (PathLib.joinpath root (target a))) eqn:Hdst.
    + rewrite (rename_step_target_exists root a k w Ha Hdst).
      rewrite IH by exact Hl. simpl. rewrite skips_app.
      unfold source_missing_skips at 2. simpl. lia.
    + rewrite (rename_step_rename root a k w Ha Hdst).
      destruct (Fs.rename _ _ _) as [fs'|e] eqn:Hr; [|reflexivity].
      apply rename_inv in Hr. subst fs'.
      rewrite IH.
      * simpl. rewrite skips_app.
        unfold source_missing_skips at 2. simpl. lia.
      * simpl. apply Forall_forall. intros b Hb.
        apply entry_moved_keep.
        -- rewrite Forall_forall in Hl. apply Hl, Hb.
        -- rewrite Forall_forall in Hclear. apply Hclear, Hb.
Qed.

Lemma split_no_sep (sep : ascii) (x : string) :
  Str.contains sep x = false -> Str.split sep x = [x].
Proof.
  induction x as [|c x IH]; simpl; [reflexivity|].
  intros H. apply orb_false_iff in H as [Hc Hx].
  rewrite Ascii.eqb_sym, Hc, (IH Hx). reflexivity.
Qed.

Lemma split_app_sep (sep : ascii) (x s : string) :
  Str.contains sep x = false ->
  Str.split sep (x +++ String sep s) = x :: Str.split sep s.
Proof.
  induction x as [|c x IH]; simpl.
  - intros _. rewrite Ascii.eqb_refl. reflexivity.
  - intros H. apply orb_false_iff in H as [Hc Hx].
    rewrite Ascii.eqb_sym, Hc, (IH Hx). reflexivity.
Qed.

Lemma split_concat (p : list string) :
  p <> [] ->
  Forall (fun x => Str.contains PathLib.sep x = false) p ->
  Str.split PathLib.sep (String.concat "/" p) = p.
Proof.
  induction p as [|x p IH]; [contradiction|]. intros _ H.
  inversion H as [|? ? Hx Hp]; subst.
  destruct p as [|y p].
  - simpl. apply split_no_sep, Hx.
  - change (String.concat "/" (x :: y :: p))
      with (x +++ String PathLib.sep (String.concat "/" (y :: p))).
    rewrite split_app_sep by exact Hx.
    rewrite IH; [reflexivity | discriminate | exact Hp].
Qed.

Lemma valid_name_inv (x : string) :
  PathLib.valid_name x = true ->
  Str.contains PathLib.sep x = false /\ PathLib.keep_part x = true
  /\ exists c x', x = String c x' /\ c <> PathLib.sep.
Proof.
  unfold PathLib.valid_name, PathLib.keep_part. intros H.
  apply andb_true_iff in H as [H Hdot].
  apply andb_true_iff in H as [Hne Hsep].
  apply negb_true_iff in Hsep. rewrite Hne, Hdot. repeat split; try assumption.
  destruct x as [|c x']; [discriminate|].
  exists c, x'. split; [reflexivity|].
  intros ->. simpl in Hsep. discriminate.
Qed.

(** For a path of proper names, the number of segments of its text is the
    number of its parts. *)
Lemma parts_of_str_path_str (p : Path) :
  p <> [] ->
  Forall (fun x => PathLib.valid_name x = true) p ->
  PathLib.parts_of_str (PathLib.path_str p) = p.
Proof.
  intros Hne Hv.
  assert (Hsplit : Str.split PathLib.sep (String.concat "/" p) = p).
  { apply split_concat; [exact Hne|].
    eapply Forall_impl; [|exact Hv]. intros x Hx.
    apply valid_name_inv in Hx. tauto. }
  assert (Hkeep : filter PathLib.keep_part p = p).
  { apply filter_all. intros x Hx.
    pose proof (proj1 (Forall_forall _ _) Hv x Hx) as Hvx.
    apply valid_name_inv in Hvx. tauto. }
  destruct p as [|x p]; [contradiction|].
  unfold PathLib.path_str, Str.join, PathLib.parts_of_str.
  inversion Hv as [|? ? Hx _]; subst.
  apply valid_name_inv in Hx as [_ [_ [c [x' [-> Hc]]]]].
  assert (Hhead : exists t, String.concat "/" (String c x' :: p) = String c t).
  { destruct p; simpl; eauto. }
  destruct Hhead as [t Ht]. rewrite Ht in *.
  apply Ascii.eqb_neq in Hc. rewrite Hc, Hsplit. exact Hkeep.
Qed.

Lemma depth_length (a : RenameAction) :
  source a <> [] ->
  Forall (fun x => PathLib.valid_name x = true) (source a) ->
  depth a = List.length (source a).
Proof.
  intros Hne Hv. unfold depth, relative_source.
  rewrite parts_of_str_path_str by assumption. reflexivity.
Qed.

Lemma no_repeat_nodup (l : list Path) : Fs.no_repeat l = true -> NoDup l.
Proof.
  induction l as [|p l IH]; simpl; intros H; [constructor|].
  apply andb_true_iff in H as [Hp Hl]. constructor; [|apply IH, Hl].
  intros Hin. apply negb_true_iff in Hp.
  assert (E : existsb (PathLib.path_eqb p) l = true).
  { apply existsb_exists. exists p. split; [exact Hin | apply path_eqb_refl]. }
  congruence.
Qed.

Lemma well_formedb_sound {C} (fs : FS C) :
  Fs.well_formedb fs = true -> Fs.well_formed fs.
Proof.
  unfold Fs.well_formedb, Fs.well_formed. intros H.
  apply andb_true_iff in H as [H Hdir].
  apply andb_true_iff in H as [Hnd Hproper].
  rewrite forallb_forall in Hproper, Hdir.
  split; [apply no_repeat_nodup, Hnd|]. split.
  - intros p Hp. specialize (Hproper p Hp). unfold Fs.proper_path in Hproper.
    destruct p; [discriminate|]. split; [discriminate|].
    apply Forall_forall. rewrite forallb_forall in Hproper. exact Hproper.
  - intros p x Hp. specialize (Hdir _ Hp). unfold Fs.in_a_dir in Hdir.
    rewrite parent_snoc in Hdir.
    destruct p as [|y p]; [left; reflexivity|]. right.
    destruct (Fs.lookup fs (y :: p)) as [[|c]|]; try discriminate. reflexivity.
Qed.

Lemma lookup_some_in {C} (fs : FS C) (p : Path) (n : Node C) :
  Fs.lookup fs p = Some n -> In p (map fst fs).
Proof.
  induction fs as [|[q m] l IH]; simpl; [discriminate|].
  destruct (PathLib.path_eqb q p) eqn:E.
  - apply path_eqb_eq in E. auto.
  - intros H. right. apply IH, H.
Qed.

Lemma in_lookup {C} (fs : FS C) (p : Path) :
  In p (map fst fs) -> Fs.lookup fs p <> None.
Proof.
  induction fs as [|[q m] l IH]; simpl; [contradiction|].
  intros [->|Hin].
  - rewrite path_eqb_refl. discriminate.
  - destruct (PathLib.path_eqb q p); [discriminate | apply IH, Hin].
Qed.

(** In a well-formed tree everything above an entry is a directory. *)
Lemma ancestors_are_dirs {C} (fs : FS C) (a x : Path) :
  Fs.nested fs ->
  In (a ++ x) (map fst fs) -> x <> [] -> a <> [] ->
  Fs.lookup fs a = Some Dir.
Proof.
  intros Hpar. revert a.
  induction x as [|y x IH] using rev_ind; intros a Hin Hx Ha; [contradiction|].
  rewrite app_assoc in Hin.
  destruct (Hpar _ _ Hin) as [E|Hl].
  - apply app_eq_nil in E as [-> _]. contradiction.
  - destruct x as [|z x]; [rewrite app_nil_r in Hl; exact Hl|].
    apply IH; [|discriminate | exact Ha].
    eapply lookup_some_in, Hl.
Qed.

(** Nothing lies below a file. *)
Lemma nothing_below_a_file {C} (fs : FS C) (a q : Path) :
  Fs.well_formed fs ->
  Fs.is_file fs a = true ->
  In q (map fst fs) -> q <> a ->
  PathLib.is_prefix a q = false.
Proof.
  intros Hwf Hfile Hq Hne.
  destruct (PathLib.is_prefix a q) eqn:E; [|reflexivity]. exfalso.
  apply is_prefix_iff in E as [x ->].
  unfold Fs.is_file in Hfile.
  destruct (Fs.lookup fs a) as [[|c]|] eqn:Hl; try discriminate.
  assert (Ha : a <> []).
  { intros ->. apply lookup_some_in in Hl.
    destruct Hwf as [_ [Hv _]]. apply Hv in Hl as [Hl _]. contradiction. }
  assert (Hx : x <> []) by (intros ->; rewrite app_nil_r in Hne; contradiction).
  rewrite (ancestors_are_dirs fs a x (proj2 (proj2 Hwf)) Hq Hx Ha) in Hl.
  discriminate.
Qed.

Lemma strongly_sorted_app {A} (R : A -> A -> Prop) (l1 l2 : list A) :
  StronglySorted R l1 -> StronglySorted R l2 ->
  (forall a b, In a l1 -> In b l2 -> R a b) ->
  StronglySorted R (l1 ++ l2).
Proof.
  induction 1 as [|a l1 Hs IH Hall]; intros H2 Hx; simpl; [exact H2|].
  constructor.
  - apply IH; [exact H2|]. intros x y Hx1 Hy. apply Hx; [right|]; assumption.
  - apply Forall_app. split; [exact Hall|].
    apply Forall_forall. intros b Hb. apply Hx; [left; reflexivity | exact Hb].
Qed.

(** From an order [P] on a list without repeated keys to an order [R] that
    follows from [P] between different keys. *)
Lemma strongly_sorted_upgrade {A K} (g : A -> K) (P R : A -> A -> Prop)
    (l : list A) :
  StronglySorted P l -> NoDup (map g l) ->
  (forall a b, In a l -> In b l -> P a b -> g a <> g b -> R a b) ->
  StronglySorted R l.
Proof.
  induction 1 as [|a l Hs IH Hall]; intros Hnd HR; [constructor|].
  simpl in Hnd. inversion Hnd as [|? ? Hnotin Hnd']; subst.
  constructor.
  - apply IH; [exact Hnd'|].
    intros x y Hx Hy. apply HR; right; assumption.
  - apply Forall_forall. intros b Hb. apply HR.
    + left; reflexivity.
    + right; exact Hb.
    + rewrite Forall_forall in Hall. apply Hall, Hb.
    + intros E. apply Hnotin. rewrite E. apply in_map, Hb.
Qed.

Lemma strongly_sorted_any {A} (l : list A) :
  StronglySorted (fun _ _ => True) l.
Proof.
  induction l; constructor; [assumption|].
  apply Forall_forall. auto.
Qed.

Lemma produced_keys_nodup {A B} (body : A -> result (option B)) (g : B -> A)
    (l : list A) :
  (forall x b, body x = Ok (Some b) -> g b = x) ->
  NoDup l ->
  NoDup (map g (flat_map (fun x => produced (body x)) l)).
Proof.
  intros Hg. induction 1 as [|x l Hnotin Hnd IH]; simpl; [constructor|].
  rewrite map_app. unfold produced at 1.
  destruct (body x) as [[b|]|] eqn:E; simpl; try exact IH.
  constructor; [|exact IH].
  rewrite (Hg x b E). intros Hin.
  apply in_map_iff in Hin as [b' [Hb' Hin]].
  apply in_flat_map in Hin as [y [Hy Hin]].
  unfold produced in Hin.
  destruct (body y) as [[b''|]|] eqn:E'; simpl in Hin; try contradiction.
  destruct Hin as [->|[]]. rewrite (Hg y b' E') in Hb'. subst y. contradiction.
Qed.

Lemma relative_to_join (path root s : Path) :
  PathLib.relative_to path root = Ok s -> PathLib.joinpath root s = path.
Proof.
  unfold PathLib.relative_to, PathLib.joinpath.
  destruct (PathLib.is_prefix root path) eqn:E; [|discriminate].
  intros H; inversion H; subst. symmetry. apply is_prefix_split, E.
Qed.

Lemma file_rename_for_source {C} (fmt : formatter) (fs : FS C)
    (root : Path) (tf : string) (path : Path) (a : RenameAction) :
  file_rename_for fmt fs root tf path = Ok (Some a) ->
  kind a = KFile /\ Fs.is_file fs path = true
  /\ PathLib.joinpath root (source a) = path.
Proof.
  intros H. pose proof (file_rename_for_changes _ _ _ _ _ _ H) as [Hk [_ Hr]].
  split; [exact Hk|]. split; [|apply relative_to_join, Hr].
  unfold file_rename_for in H.
  destruct (Fs.is_file fs path); [reflexivity | discriminate].
Qed.

Lemma dir_rename_for_source {C} (fmt : formatter) (fs : FS C)
    (root : Path) (af : string) (path : Path) (a : RenameAction) :
  dir_rename_for fmt fs root af path = Ok (Some a) ->
  kind a = KDir /\ Fs.is_dir fs path = true
  /\ PathLib.joinpath root (source a) = path.
Proof.
  intros H. pose proof (dir_rename_for_changes _ _ _ _ _ _ H) as [Hk [_ Hr]].
  split; [exact Hk|]. split; [|apply relative_to_join, Hr].
  unfold dir_rename_for in H.
  destruct (Fs.is_dir fs path); [reflexivity | discriminate].
Qed.

Lemma filter_kind_same (k : Kind) (l : list RenameAction) :
  Forall (fun a => kind a = k) l -> filter (is_kind k) l = l.
Proof.
  intros H. apply filter_all. intros a Ha.
  rewrite Forall_forall in H. unfold is_kind. rewrite (H a Ha).
  destruct k; reflexivity.
Qed.

Lemma filter_kind_other (k k' : Kind) (l : list RenameAction) :
  k <> k' -> Forall (fun a => kind a = k) l -> filter (is_kind k') l = [].
Proof.
  intros Hk H. induction H as [|a l Ha Hl IH]; simpl; [reflexivity|].
  unfold is_kind at 1. rewrite Ha, IH.
  destruct k, k'; try reflexivity; contradiction.
Qed.

Section Plan.
Context {C : Type}.
Variables (fmt : formatter) (fs : FS C) (root : Path) (af tf : string).
Variables (files dirs : list RenameAction).
Hypothesis tree_ok : Fs.well_formed fs.
Hypothesis files_ok :
  collect (file_rename_for fmt fs root tf) (Fs.rglob fs root) = Ok files.
Hypothesis dirs_ok :
  collect (dir_rename_for fmt fs root af) (Fs.rglob fs root) = Ok dirs.

Let key (a : RenameAction) : Path := PathLib.joinpath root (source a).

Lemma rglob_nodup : NoDup (Fs.rglob fs root).
Proof. apply NoDup_filter. apply tree_ok. Qed.

Lemma rglob_entry (p : Path) :
  In p (Fs.rglob fs root) ->
  In p (map fst fs) /\ List.length root < List.length p.
Proof.
  unfold Fs.rglob. intros H. apply filter_In in H as [Hin Hu].
  split; [exact Hin|]. unfold Fs.strictly_under in Hu.
  apply andb_true_iff in Hu as [_ Hu]. apply Nat.ltb_lt, Hu.
Qed.

Lemma planned_file (a : RenameAction) :
  In a files ->
  kind a = KFile /\ Fs.is_file fs (key a) = true
  /\ In (key a) (Fs.rglob fs root).
Proof.
  intros Ha. destruct (collect_in _ _ _ _ files_ok Ha) as [p [Hp Hb]].
  apply file_rename_for_source in Hb as [Hk [Hf Hj]].
  unfold key. rewrite Hj. auto.
Qed.

Lemma planned_dir (a : RenameAction) :
  In a dirs ->
  kind a = KDir /\ Fs.is_dir fs (key a) = true
  /\ In (key a) (Fs.rglob fs root).
Proof.
  intros Ha. destruct (collect_in _ _ _ _ dirs_ok Ha) as [p [Hp Hb]].
  apply dir_rename_for_source in Hb as [Hk [Hf Hj]].
  unfold key. rewrite Hj. auto.
Qed.

Lemma files_keys_nodup : NoDup (map key files).
Proof.
  rewrite (collect_flat_map _ _ _ files_ok).
  apply produced_keys_nodup; [|apply rglob_nodup].
  intros p a H. apply file_rename_for_source in H. unfold key. tauto.
Qed.

Lemma dirs_keys_nodup : NoDup (map key dirs).
Proof.
  rewrite (collect_flat_map _ _ _ dirs_ok).
  apply produced_keys_nodup; [|apply rglob_nodup].
  intros p a H. apply dir_rename_for_source in H. unfold key. tauto.
Qed.

Lemma plan_split :
  file_actions (files ++ dirs) = sorted_by by_source files
  /\ dir_actions (files ++ dirs) = sorted_by deepest_first dirs.
Proof.
  assert (Hf : Forall (fun a => kind a = KFile) files).
  { apply Forall_forall. intros a Ha. apply planned_file, Ha. }
  assert (Hd : Forall (fun a => kind a = KDir) dirs).
  { apply Forall_forall. intros a Ha. apply planned_dir, Ha. }
  unfold file_actions, dir_actions. rewrite !filter_app.
  rewrite (filter_kind_same KFile files Hf).
  rewrite (filter_kind_other KDir KFile dirs) by (discriminate || exact Hd).
  rewrite (filter_kind_other KFile KDir files) by (discriminate || exact Hf).
  rewrite (filter_kind_same KDir dirs Hd).
  rewrite app_nil_r. split; reflexivity.
Qed.

Lemma planned_source_shape (a : RenameAction) :
  In (key a) (Fs.rglob fs root) ->
  source a <> []
  /\ Forall (fun x => PathLib.valid_name x = true) (source a)
  /\ Fs.is_entry fs (key a) = true.
Proof.
  intros H. apply rglob_entry in H as [Hin Hlen].
  unfold key, PathLib.joinpath in *.
  destruct tree_ok as [_ [Hv _]]. destruct (Hv _ Hin) as [Hne Hval].
  split; [|split].
  - intros E. rewrite E, app_nil_r in Hlen. lia.
  - apply Forall_app in Hval. tauto.
  - rewrite entry_lookup by exact Hne.
    pose proof (in_lookup fs _ Hin).
    destruct (Fs.lookup fs (root ++ source a)); [reflexivity | contradiction].
Qed.

Lemma file_clear_of_entry (a b : RenameAction) :
  In a files -> In (key b) (Fs.rglob fs root) -> key a <> key b ->
  clear_of root a b.
Proof.
  intros Ha Hb Hne. apply planned_file in Ha as [_ [Hf _]].
  apply rglob_entry in Hb as [Hb _].
  apply (nothing_below_a_file fs (key a) (key b) tree_ok Hf Hb).
  congruence.
Qed.

Lemma deeper_dir_clear (a b : RenameAction) :
  In a dirs -> In b dirs -> depth b <= depth a -> key a <> key b ->
  clear_of root a b.
Proof.
  intros Ha Hb Hdepth Hne.
  apply planned_dir in Ha as [_ [_ Ha]]. apply planned_dir in Hb as [_ [_ Hb]].
  apply planned_source_shape in Ha as [Ha1 [Ha2 _]].
  apply planned_source_shape in Hb as [Hb1 [Hb2 _]].
  rewrite (depth_length a Ha1 Ha2), (depth_length b Hb1 Hb2) in Hdepth.
  unfold clear_of, PathLib.joinpath. rewrite is_prefix_app_l.
  destruct (PathLib.is_prefix (source a) (source b)) eqn:E; [|reflexivity].
  exfalso. apply is_prefix_iff in E as [x E].
  rewrite E, length_app in Hdepth.
  destruct x; [|simpl in Hdepth; lia].
  rewrite app_nil_r in E. apply Hne. unfold key. rewrite E. reflexivity.
Qed.

Lemma file_is_not_dir (a b : RenameAction) :
  In a files -> In b dirs -> key a <> key b.
Proof.
  intros Ha Hb E.
  apply planned_file in Ha as [_ [Hf _]].
  apply planned_dir in Hb as [_ [Hd _]].
  rewrite <- E in Hd. unfold Fs.is_file in Hf. unfold Fs.is_dir in Hd.
  destruct (Fs.lookup fs (key a)) as [[|c]|] eqn:Hl; try discriminate.
  destruct (key a) eqn:Hk.
  - apply lookup_some_in in Hl. destruct tree_ok as [_ [Hv _]].
    apply Hv in Hl as [Hl _]. contradiction.
  - discriminate.
Qed.

(** The order of the program on the plan of the planner: every source is
    there at the start, and no action stands before another whose source it
    would move. *)
Lemma planned_order_clear :
  StronglySorted (clear_of root)
    (file_actions (files ++ dirs) ++ dir_actions (files ++ dirs))
  /\ Forall (fun a => Fs.is_entry fs (key a) = true)
            (file_actions (files ++ dirs) ++ dir_actions (files ++ dirs)).
Proof.
  destruct plan_split as [Ef Ed].
  assert (Pf : Permutation (file_actions (files ++ dirs)) files)
    by (rewrite Ef; apply sorted_by_perm).
  assert (Pd : Permutation (dir_actions (files ++ dirs)) dirs)
    by (rewrite Ed; apply sorted_by_perm).
  split.
  - apply strongly_sorted_app.
    + apply (strongly_sorted_upgrade key (fun _ _ => True)).
      * apply strongly_sorted_any.
      * apply (Permutation_NoDup (Permutation_map key (Permutation_sym Pf))).
        apply files_keys_nodup.
      * intros a b Ha Hb _ Hne.
        apply file_clear_of_entry; [|apply planned_file|exact Hne].
        -- apply (Permutation_in _ Pf), Ha.
        -- apply (Permutation_in _ Pf), Hb.
    + apply (strongly_sorted_upgrade key (fun a b => depth b <= depth a)).
      * apply dir_actions_sorted.
      * apply (Permutation_NoDup (Permutation_map key (Permutation_sym Pd))).
        apply dirs_keys_nodup.
      * intros a b Ha Hb Hdepth Hne.
        apply deeper_dir_clear; try assumption.
        -- apply (Permutation_in _ Pd), Ha.
        -- apply (Permutation_in _ Pd), Hb.
    + intros a b Ha Hb.
      apply (Permutation_in _ Pf) in Ha. apply (Permutation_in _ Pd) in Hb.
      apply file_clear_of_entry; [exact Ha | apply planned_dir, Hb|].
      apply file_is_not_dir; assumption.
  - apply Forall_app. split; apply Forall_forall; intros a Ha.
    + apply (Permutation_in _ Pf) in Ha.
      apply planned_file in Ha as [_ [_ Ha]].
      apply planned_source_shape in Ha. tauto.
    + apply (Permutation_in _ Pd) in Ha.
      apply planned_dir in Ha as [_ [_ Ha]].
      apply planned_source_shape in Ha. tauto.
Qed.

End Plan.

(** On a well-formed tree the plan of the planner, run in the order of the
    program, never finds a source missing. *)
Lemma planned_sources_never_missing {C} (fmt : formatter) (root : Path)
    (af tf : string) (actions : list RenameAction) (w : World C) :
  Fs.well_formed (w_fs w) ->
  gather_rename_actions fmt (w_fs w) root af tf = Ok actions ->
  source_missing_skips (w_out (fst (apply_rename_actions root actions w)))
  = source_missing_skips (w_out w).
Proof.
  intros Hwf H. unfold gather_rename_actions in H.
  apply rbind_ok in H as [files [Hf H]].
  apply rbind_ok in H as [dirs [Hd H]].
  inversion H; subst actions.
  destruct (planned_order_clear fmt (w_fs w) root af tf files dirs Hwf Hf Hd)
    as [Hclear Hex].
  unfold apply_rename_actions.
  apply rename_loop_no_missing; assumption.
Qed.

(** ** A run on a well-formed tree does not raise *)

Lemma nothing_below_missing {C} (fs : FS C) (dst q : Path) :
  Fs.nested fs -> dst <> [] -> Fs.exists_ fs dst = false ->
  In q (map fst fs) -> PathLib.is_prefix dst q = false.
Proof.
  intros Hn Hne Hdst Hq. apply exists_false in Hdst as [Hdst _].
  destruct (PathLib.is_prefix dst q) eqn:E; [|reflexivity]. exfalso.
  apply is_prefix_iff in E as [x ->].
  rewrite entry_lookup in Hdst by exact Hne.
  destruct x as [|y x].
  - rewrite app_nil_r in Hq. apply in_lookup in Hq.
    destruct (Fs.lookup fs dst); [discriminate | contradiction].
  - rewrite (ancestors_are_dirs fs dst (y :: x) Hn Hq) in Hdst;
      [discriminate | discriminate | exact Hne].
Qed.

(** What is below [src] is found below [dst] after the move. *)
Lemma lookup_moved_image {C} (fs : FS C) (src dst r : Path) :
  (forall q, In q (map fst fs) -> PathLib.is_prefix dst q = false) ->
  Fs.lookup (map (fun e => (Fs.moved src dst (fst e), snd e)) fs) (dst ++ r)
  = Fs.lookup fs (src ++ r).
Proof.
  induction fs as [|[q n] l IH]; intros Hfree; simpl; [reflexivity|].
  rewrite IH by (intros q' Hq'; apply Hfree; right; exact Hq').
  assert (Hq : PathLib.is_prefix dst q = false) by (apply Hfree; left; reflexivity).
  unfold Fs.moved. destruct (PathLib.is_prefix src q) eqn:Hs.
  - apply is_prefix_split in Hs.
    destruct (PathLib.path_eqb q (src ++ r)) eqn:E.
    + apply path_eqb_eq in E. subst q.
      rewrite skipn_app, skipn_all, Nat.sub_diag. simpl.
      rewrite path_eqb_refl. reflexivity.
    + assert (E' : PathLib.path_eqb (dst ++ skipn (List.length src) q) (dst ++ r)
                   = false).
      { apply path_eqb_neq. intros H. apply app_inv_head in H.
        apply path_eqb_neq in E. apply E. rewrite Hs, H. reflexivity. }
      rewrite E'. reflexivity.
  - assert (E1 : PathLib.path_eqb q (dst ++ r) = false).
    { apply path_eqb_neq. intros ->. rewrite is_prefix_app in Hq. discriminate. }
    assert (E2 : PathLib.path_eqb q (src ++ r) = false).
    { apply path_eqb_neq. intros ->. rewrite is_prefix_app in Hs. discriminate. }
    rewrite E1, E2. reflexivity.
Qed.

Lemma is_prefix_length (p q : Path) :
  PathLib.is_prefix p q = true -> List.length p <= List.length q.
Proof.
  intros H. apply is_prefix_iff in H as [x ->]. rewrite length_app. lia.
Qed.

(** A guarded rename keeps every entry inside a directory. *)
Lemma nested_moved {C} (fs : FS C) (src dst : Path) :
  Fs.nested fs -> src <> [] -> dst <> [] ->
  Fs.exists_ fs dst = false ->
  Fs.is_dir fs (PathLib.parent dst) = true ->
  PathLib.is_prefix src dst = false ->
  Fs.nested (map (fun e => (Fs.moved src dst (fst e), snd e)) fs).
Proof.
  intros Hn Hsrc Hdst Hfree Hpar Hsd p x Hin.
  assert (Hbelow : forall q, In q (map fst fs) -> PathLib.is_prefix dst q = false).
  { intros q Hq. apply (nothing_below_missing fs dst q Hn Hdst Hfree Hq). }
  rewrite map_map in Hin. simpl in Hin.
  apply in_map_iff in Hin as [[q n] [Hmv Hq]]. simpl in Hmv.
  assert (Hq' : In q (map fst fs)) by (apply in_map_iff; exists (q, n); auto).
  unfold Fs.moved in Hmv. destruct (PathLib.is_prefix src q) eqn:Hs.
  - apply is_prefix_split in Hs.
    remember (skipn (List.length src) q) as r0 eqn:Hr. clear Hr.
    destruct r0 as [|y0 r0].
    + rewrite app_nil_r in Hmv.
      assert (Hp : PathLib.parent dst = p) by (rewrite Hmv; apply parent_snoc).
      rewrite Hp in Hpar. destruct p as [|z p]; [left; reflexivity|]. right.
      rewrite lookup_moved_other.
      * simpl in Hpar. destruct (Fs.lookup fs (z :: p)) as [[|c]|];
          try discriminate; reflexivity.
      * destruct (PathLib.is_prefix src (z :: p)) eqn:E; [|reflexivity].
        rewrite <- Hsd. symmetry. apply (is_prefix_trans _ _ _ E).
        rewrite Hmv. apply is_prefix_app.
      * destruct (PathLib.is_prefix dst (z :: p)) eqn:E; [|reflexivity].
        apply is_prefix_length in E. rewrite Hmv, length_app in E.
        simpl in E. lia.
    + destruct (@exists_last _ (y0 :: r0)) as [r [y Hry]]; [discriminate|].
      rewrite Hry in *. rewrite app_assoc in Hmv.
      apply app_inj_tail in Hmv as [Hp Hx]. subst p x.
      right. rewrite lookup_moved_image by exact Hbelow.
      rewrite Hs, app_assoc in Hq'.
      destruct (Hn _ _ Hq') as [E|E]; [|exact E].
      apply app_eq_nil in E as [E _]. contradiction.
  - subst q. destruct (Hn _ _ Hq') as [E|E]; [left; exact E|].
    destruct p as [|z p]; [left; reflexivity|]. right.
    rewrite lookup_moved_other; [exact E| |].
    + destruct (PathLib.is_prefix src (z :: p)) eqn:E'; [|reflexivity].
      rewrite <- Hs. symmetry. apply (is_prefix_trans _ _ _ E').
      apply is_prefix_app.
    + apply Hbelow. eapply lookup_some_in, E.
Qed.

Lemma with_name_inv (p t : Path) (nm : string) :
  PathLib.with_name p nm = Ok t -> p <> [] /\ t = removelast p ++ [nm].
Proof.
  unfold PathLib.with_name.
  destruct (Str.is_empty (PathLib.name p)) eqn:E; [discriminate|].
  destruct (PathLib.valid_name nm); [|discriminate].
  intros H; inversion H; subst. split; [|reflexivity].
  intros ->. simpl in E. discriminate.
Qed.

Lemma sibling_of_with_name (root path tgt s t : Path) (nm : string) :
  PathLib.with_name path nm = Ok tgt ->
  PathLib.path_eqb tgt path = false ->
  PathLib.relative_to path root = Ok s ->
  PathLib.relative_to tgt root = Ok t ->
  exists P n nm',
    PathLib.joinpath root s = P ++ [n]
    /\ PathLib.joinpath root t = P ++ [nm'] /\ n <> nm'.
Proof.
  intros Hw Hne Hs Ht.
  apply with_name_inv in Hw as [Hp ->].
  rewrite (relative_to_join _ _ _ Hs), (relative_to_join _ _ _ Ht).
  exists (removelast path), (last path EmptyString), nm.
  split; [apply app_removelast_last, Hp|]. split; [reflexivity|].
  intros E. apply path_eqb_neq in Hne. apply Hne.
  rewrite <- E. symmetry. apply app_removelast_last, Hp.
Qed.

Lemma file_rename_for_sibling {C} (fmt : formatter) (fs : FS C)
    (root : Path) (tf : string) (path : Path) (a : RenameAction) :
  file_rename_for fmt fs root tf path = Ok (Some a) -> sibling_rename root a.
Proof.
  unfold file_rename_for.
  destruct (negb (Fs.is_file fs path)); [discriminate|].
  intros H. apply rbind_ok in H as [[st|] [_ H]]; [|discriminate].
  apply rbind_ok in H as [tgt [Hw H]].
  destruct (PathLib.path_eqb tgt path) eqn:E; simpl in H; [discriminate|].
  apply rbind_ok in H as [s [Hs H]].
  apply rbind_ok in H as [t [Ht H]].
  inversion H; subst a. unfold sibling_rename. simpl.
  eapply sibling_of_with_name; eassumption.
Qed.

Lemma dir_rename_for_sibling {C} (fmt : formatter) (fs : FS C)
    (root : Path) (af : string) (path : Path) (a : RenameAction) :
  dir_rename_for fmt fs root af path = Ok (Some a) -> sibling_rename root a.
Proof.
  unfold dir_rename_for.
  destruct (negb (Fs.is_dir fs path)); [discriminate|].
  intros H. apply rbind_ok in H as [[d|] [_ H]]; [|discriminate].
  apply rbind_ok in H as [tgt [Hw H]].
  destruct (PathLib.path_eqb tgt path) eqn:E; simpl in H; [discriminate|].
  apply rbind_ok in H as [s [Hs H]].
  apply rbind_ok in H as [t [Ht H]].
  inversion H; subst a. unfold sibling_rename. simpl.
  eapply sibling_of_with_name; eassumption.
Qed.

Lemma planned_siblings {C} (fmt : formatter) (fs : FS C) (root : Path)
    (af tf : string) (actions : list RenameAction) :
  gather_rename_actions fmt fs root af tf = Ok actions ->
  Forall (sibling_rename root) actions.
Proof.
  intros H. unfold gather_rename_actions in H.
  apply rbind_ok in H as [files [Hf H]].
  apply rbind_ok in H as [dirs [Hd H]].
  inversion H; subst actions.
  apply Forall_forall. intros a Ha. apply in_app_or in Ha as [Ha|Ha].
  - destruct (collect_in _ _ _ _ Hf Ha) as [path [_ Hp]].
    eapply file_rename_for_sibling, Hp.
  - destruct (collect_in _ _ _ _ Hd Ha) as [path [_ Hp]].
    eapply dir_rename_for_sibling, Hp.
Qed.

(** Renames between siblings on a nested tree never raise. *)
Lemma rename_loop_returns {C} (root : Path) (l : list RenameAction) :
  Forall (sibling_rename root) l ->
  forall (k : nat) (w : World C),
    Fs.nested (w_fs w) ->
    exists w' k', rename_loop root l k w = (w', Ok k').
Proof.
  induction 1 as [|a l Ha Hl IH]; intros k w Hn.
  - simpl. unfold ret. eauto.
  - destruct Ha as [P [n [nm [Hsrc [Hdst Hne]]]]].
    destruct (Fs.exists_ (w_fs w) (PathLib.joinpath root (source a))) eqn:E1.
    + destruct (Fs.exists_ (w_fs w) (PathLib.joinpath root (target a))) eqn:E2.
      * rewrite (rename_loop_cons _ _ _ _ _ _ _
                   (rename_step_target_exists root a k w E1 E2)).
        apply IH. exact Hn.
      * pose proof (rename_step_rename root a k w E1 E2) as Hstep.
        rewrite Hsrc, Hdst in *.
        assert (Hpar : Fs.is_dir (w_fs w) P = true).
        { destruct P as [|z P]; [reflexivity|].
          apply exists_cases in E1 as [E1|[_ E1]];
            [|rewrite parent_snoc in E1; exact E1].
          rewrite entry_lookup in E1 by apply snoc_not_nil.
          destruct (Fs.lookup (w_fs w) ((z :: P) ++ [n])) as [nd|] eqn:Hl';
            [|discriminate].
          apply lookup_some_in in Hl'.
          destruct (Hn _ _ Hl') as [E|E]; [discriminate|].
          simpl. rewrite E. reflexivity. }
        assert (Hsd : PathLib.is_prefix (P ++ [n]) (P ++ [nm]) = false).
        { rewrite is_prefix_app_l. simpl.
          apply String.eqb_neq in Hne. rewrite Hne. reflexivity. }
        rewrite rename_ok in Hstep; try assumption.
        -- rewrite (rename_loop_cons _ _ _ _ _ _ _ Hstep).
           apply IH. simpl.
           apply nested_moved; try assumption; try apply snoc_not_nil.
           rewrite parent_snoc. exact Hpar.
        -- apply snoc_not_nil.
        -- rewrite parent_snoc. exact Hpar.
    + rewrite (rename_loop_cons _ _ _ _ _ _ _
                 (rename_step_source_missing root a k w E1)).
      apply IH. exact Hn.
Qed.

(** On a well-formed tree the plan of the planner, run in the order of the
    program, runs to its end and never finds a source missing. *)
Lemma planned_run_completes {C} (fmt : formatter) (root : Path)
    (af tf : string) (actions : list RenameAction) (w : World C) :
  Fs.well_formed (w_fs w) ->
  gather_rename_actions fmt (w_fs w) root af tf = Ok actions ->
  exists w' k,
    apply_rename_actions root actions w = (w', Ok k)
    /\ source_missing_skips (w_out w') = source_missing_skips (w_out w).
Proof.
  intros Hwf Hg.
  pose proof (planned_sources_never_missing fmt root af tf actions w Hwf Hg) as Hz.
  assert (Hs : Forall (sibling_rename root)
                 (file_actions actions ++ dir_actions actions)).
  { apply Forall_forall. intros a Ha.
    apply (Permutation_in _ (apply_order_perm actions)) in Ha.
    pose proof (planned_siblings fmt (w_fs w) root af tf actions Hg) as Hall.
    rewrite Forall_forall in Hall. apply Hall, Ha. }
  destruct (rename_loop_returns root _ Hs 0 w (proj2 (proj2 Hwf)))
    as [w' [k Hrun]].
  exists w', k. unfold apply_rename_actions in *. split; [exact Hrun|].
  rewrite Hrun in Hz. exact Hz.
Qed.

(** C1, as the code has it.  [apply_rename_actions] runs every file action
    before any directory action, the file actions in ascending order of
    their source path (as text), the directory actions by decreasing
    number of path segments, and runs each action of the list once.  On
    every well-formed tree the plan of the planner, run in this order,
    runs to its end and skips nothing for a missing source.  For a plan
    made of the rename of
    one track and the rename of the folder it is in, when the track is
    there and the new name of the folder is free, this order skips nothing
    for a missing source and the directory actions first would skip
    exactly one action, the track, for it. *)
Theorem rename_order_and_nested_track :
  forall (C : Type) (root : Path) (actions : list RenameAction),
    apply_rename_actions (C := C) root actions
    = rename_loop root (file_actions actions ++ dir_actions actions) 0
    /\ Forall (fun a => kind a = KFile) (file_actions actions)
    /\ Forall (fun a => kind a = KDir) (dir_actions actions)
    /\ StronglySorted
         (fun a b => String.leb (relative_source a) (relative_source b) = true)
         (file_actions actions)
    /\ StronglySorted (fun a b => depth b <= depth a) (dir_actions actions)
    /\ Permutation (file_actions actions ++ dir_actions actions) actions
    /\ (forall (fmt : formatter) (af tf : string) (w : World C),
          Fs.well_formed (w_fs w) ->
          gather_rename_actions fmt (w_fs w) root af tf = Ok actions ->
          exists w' k,
            apply_rename_actions root actions w = (w', Ok k)
            /\ source_missing_skips (w_out w')
               = source_missing_skips (w_out w))
    /\ forall (w : World C) (pd : Path) (n n' f f' : string),
         let track := mkRename KFile (pd ++ [n; f]) (pd ++ [n; f']) in
         let folder := mkRename KDir (pd ++ [n]) (pd ++ [n']) in
         n <> n' ->
         actions = [track; folder] \/ actions = [folder; track] ->
         Fs.exists_ (w_fs w) ((root ++ pd) ++ [n; f]) = true ->
         Fs.is_dir (w_fs w) ((root ++ pd) ++ [n]) = true ->
         Fs.is_dir (w_fs w) (root ++ pd) = true ->
         Fs.exists_ (w_fs w) ((root ++ pd) ++ [n']) = false ->
         (exists w1 k evs,
             apply_rename_actions root actions w = (w1, Ok k)
             /\ w_out w1 = w_out w ++ evs
             /\ source_missing_skips evs = 0)
         /\ (exists w2 k evs,
               apply_dirs_first root actions w = (w2, Ok k)
               /\ w_out w2 = w_out w ++ evs
               /\ source_missing_skips evs = 1).
Proof.
  intros C root actions.
  split; [reflexivity|].
  split; [apply file_actions_kind|].
  split; [apply dir_actions_kind|].
  split; [apply file_actions_sorted|].
  split; [apply dir_actions_sorted|].
  split; [apply apply_order_perm|].
  split; [intros fmt af tf w Hwf Hg;
          apply (planned_run_completes fmt root af tf actions w Hwf Hg)|].
  intros w pd n n' f f' track folder Hn Hact Hsrc Hdir Hpar Hfree.
  destruct (scenario_orders pd n n' f f' actions Hact) as [Hf Hd].
  unfold apply_rename_actions, apply_dirs_first. rewrite Hf, Hd. simpl app.
  split.
  - apply (files_then_folder root pd n n' f f' Hn w Hsrc Hdir Hpar Hfree).
  - apply (folder_then_files root pd n n' f f' Hn w Hdir Hpar Hfree).
Qed.

Lemma rename_order_and_nested_track_witness :
  (exists w' k,
      apply_rename_actions Demo.root [Demo.track_rename; Demo.album_rename]
                           (Demo.world Demo.taken_tree []) = (w', Ok k)
      /\ source_missing_skips (w_out w') = 0)
  /\ (exists w1 k evs,
        apply_rename_actions Demo.root [Demo.track_rename; Demo.album_rename]
                             (Demo.world Demo.album_tree []) = (w1, Ok k)
        /\ w_out w1 = [] ++ evs
        /\ source_missing_skips evs = 0)
  /\ (exists w2 k evs,
        apply_dirs_first Demo.root [Demo.track_rename; Demo.album_rename]
                         (Demo.world Demo.album_tree []) = (w2, Ok k)
        /\ w_out w2 = [] ++ evs
        /\ source_missing_skips evs = 1).
Proof.
  pose proof (rename_order_and_nested_track Demo.Media Demo.root
                [Demo.track_rename; Demo.album_rename])
    as [_ [_ [_ [_ [_ [_ [General Nested]]]]]]].
  split.
  - apply (General py_format default_album_format default_track_format
             (Demo.world Demo.taken_tree [])).
    + apply well_formedb_sound. vm_compute; reflexivity.
    + vm_compute; reflexivity.
  - apply (Nested (Demo.world Demo.album_tree []) []
             "2001 - Discovery" "Discovery (2001)"
             "1 - One More Time.flac" "01 One More Time.flac").
    + vm_compute; discriminate.
    + left; reflexivity.
    + vm_compute; reflexivity.
    + vm_compute; reflexivity.
    + vm_compute; reflexivity.
    + vm_compute; reflexivity.
Defined.

(** Against C1 as stated: two trees in which a track to rename lies in a
    folder to rename, as the planner finds them.  Where the new name of the
    folder is taken, the directory actions first skip nothing for a missing
    source; where the folder holds two tracks to rename, they skip two
    actions for it. *)
Lemma dirs_first_not_always_one :
  gather_rename_actions py_format Demo.taken_tree Demo.root
                        default_album_format default_track_format
  = Ok [Demo.track_rename; Demo.album_rename]
  /\ source_missing_skips
       (w_out (fst (apply_dirs_first Demo.root
                      [Demo.track_rename; Demo.album_rename]
                      (Demo.world Demo.taken_tree [])))) = 0
  /\ (exists second,
        gather_rename_actions py_format Demo.two_track_tree Demo.root
                              default_album_format default_track_format
        = Ok [Demo.track_rename; second; Demo.album_rename]
        /\ kind second = KFile
        /\ source_missing_skips
             (w_out (fst (apply_dirs_first Demo.root
                            [Demo.track_rename; second; Demo.album_rename]
                            (Demo.world Demo.two_track_tree [])))) = 2
        /\ source_missing_skips
             (w_out (fst (apply_rename_actions Demo.root
                            [Demo.track_rename; second; Demo.album_rename]
                            (Demo.world Demo.two_track_tree [])))) = 0).
Proof.
  split; [vm_compute; reflexivity|]. split; [vm_compute; reflexivity|].
  eexists. split; [vm_compute; reflexivity|].
  repeat split; vm_compute; reflexivity.
Qed.

(* ================================================================= *)
(** * Further properties of the code *)

(** ** What the rename planner returns *)

Lemma under_root_source (root s : Path) :
  List.length root < List.length (PathLib.joinpath root s) -> s <> [].
Proof.
  unfold PathLib.joinpath. intros H ->. rewrite app_nil_r in H. lia.
Qed.

Lemma rglob_in {C} (fs : FS C) (root p : Path) :
  In p (Fs.rglob fs root) ->
  In p (map fst fs) /\ PathLib.is_prefix root p = true
  /\ List.length root < List.length p.
Proof.
  unfold Fs.rglob, Fs.strictly_under. intros H.
  apply filter_In in H as [Hin Hu].
  apply andb_true_iff in Hu as [Hp Hl]. apply Nat.ltb_lt in Hl. auto.
Qed.

(** X1. The plan of [gather_rename_actions] lists the file actions first and
    the directory actions after them.  The source of a file action is a file
    of the tree below the root, that of a directory action a directory
    below the root; no source is the root itself; every target is another
    name in the directory of its source; and in a tree without repeated
    paths no two actions of a kind share a source. *)
Theorem plan_shape :
  forall (C : Type) (fmt : formatter) (fs : FS C) (root : Path)
         (af tf : string) (actions : list RenameAction),
    gather_rename_actions fmt fs root af tf = Ok actions ->
    exists files dirs,
      actions = files ++ dirs
      /\ Forall (fun a => kind a = KFile
                          /\ Fs.is_file fs (PathLib.joinpath root (source a)) = true)
                files
      /\ Forall (fun a => kind a = KDir
                          /\ Fs.is_dir fs (PathLib.joinpath root (source a)) = true)
                dirs
      /\ Forall (fun a => source a <> []
                          /\ In (PathLib.joinpath root (source a)) (map fst fs)
                          /\ sibling_rename root a)
                actions
      /\ (NoDup (map fst fs) ->
          NoDup (map source files) /\ NoDup (map source dirs)).
Proof.
  intros C fmt fs root af tf actions H.
  unfold gather_rename_actions in H.
  apply rbind_ok in H as [files [Hf H]].
  apply rbind_ok in H as [dirs [Hd H]].
  inversion H; subst actions. clear H.
  exists files, dirs. split; [reflexivity|].
  assert (Ff : forall a, In a files ->
             kind a = KFile
             /\ Fs.is_file fs (PathLib.joinpath root (source a)) = true
             /\ In (PathLib.joinpath root (source a)) (Fs.rglob fs root)
             /\ sibling_rename root a).
  { intros a Ha. destruct (collect_in _ _ _ _ Hf Ha) as [p [Hp Hb]].
    pose proof (file_rename_for_sibling _ _ _ _ _ _ Hb) as Hs.
    apply file_rename_for_source in Hb as [Hk [Hfile Hj]].
    rewrite Hj. auto. }
  assert (Fd : forall a, In a dirs ->
             kind a = KDir
             /\ Fs.is_dir fs (PathLib.joinpath root (source a)) = true
             /\ In (PathLib.joinpath root (source a)) (Fs.rglob fs root)
             /\ sibling_rename root a).
  { intros a Ha. destruct (collect_in _ _ _ _ Hd Ha) as [p [Hp Hb]].
    pose proof (dir_rename_for_sibling _ _ _ _ _ _ Hb) as Hs.
    apply dir_rename_for_source in Hb as [Hk [Hdir Hj]].
    rewrite Hj. auto. }
  split; [apply Forall_forall; intros a Ha; apply Ff in Ha; tauto|].
  split; [apply Forall_forall; intros a Ha; apply Fd in Ha; tauto|].
  split.
  - apply Forall_forall. intros a Ha.
    assert (Hr : In (PathLib.joinpath root (source a)) (Fs.rglob fs root)
                 /\ sibling_rename root a).
    { apply in_app_or in Ha as [Ha|Ha]; [apply Ff in Ha | apply Fd in Ha]; tauto. }
    destruct Hr as [Hr Hs]. apply rglob_in in Hr as [Hin [_ Hlen]].
    split; [eapply under_root_source, Hlen|]. split; assumption.
  - intros Hnd.
    assert (Hrg : NoDup (Fs.rglob fs root)) by (apply NoDup_filter, Hnd).
    split.
    + apply (NoDup_map_inv (fun s => PathLib.joinpath root s)).
      rewrite map_map. rewrite (collect_flat_map _ _ _ Hf).
      apply produced_keys_nodup; [|exact Hrg].
      intros p a Hb. apply file_rename_for_source in Hb. tauto.
    + apply (NoDup_map_inv (fun s => PathLib.joinpath root s)).
      rewrite map_map. rewrite (collect_flat_map _ _ _ Hd).
      apply produced_keys_nodup; [|exact Hrg].
      intros p a Hb. apply dir_rename_for_source in Hb. tauto.
Qed.

Lemma plan_shape_witness :
  exists files dirs,
    [Demo.track_rename; Demo.album_rename] = files ++ dirs
    /\ Forall (fun a => kind a = KFile
                        /\ Fs.is_file Demo.album_tree
                             (PathLib.joinpath Demo.root (source a)) = true)
              files
    /\ Forall (fun a => kind a = KDir
                        /\ Fs.is_dir Demo.album_tree
                             (PathLib.joinpath Demo.root (source a)) = true)
              dirs.
Proof.
  destruct (plan_shape Demo.Media py_format Demo.album_tree Demo.root
              default_album_format default_track_format
              [Demo.track_rename; Demo.album_rename]
              ltac:(vm_compute; reflexivity))
    as [files [dirs [E [Hf [Hd _]]]]].
  exists files, dirs. auto.
Defined.

(** ** What a run of renames keeps *)

Lemma rename_guards {C} (fs fs' : FS C) (src dst : Path) :
  Fs.rename fs src dst = Ok fs' ->
  src <> [] /\ dst <> []
  /\ Fs.exists_ fs dst = false
  /\ Fs.is_dir fs (PathLib.parent dst) = true
  /\ PathLib.is_prefix src dst = false
  /\ fs' = map (fun e => (Fs.moved src dst (fst e), snd e)) fs.
Proof.
  intros H. pose proof (rename_inv _ _ _ _ H) as Hfs.
  unfold Fs.rename in H. destruct src as [|s0 src]; [discriminate|].
  destruct (negb (Fs.exists_ fs (s0 :: src))); [discriminate|].
  destruct (Fs.exists_ fs dst) eqn:Hd; [discriminate|].
  destruct (Fs.is_dir fs (PathLib.parent dst)) eqn:Hp; [|discriminate].
  destruct (PathLib.is_prefix (s0 :: src) dst) eqn:Hsd; [discriminate|].
  repeat split; try assumption; try discriminate.
  intros ->. discriminate.
Qed.

(** A guarded rename puts no two entries on one path. *)
Lemma nodup_moved {C} (fs : FS C) (src dst : Path) :
  NoDup (map fst fs) -> Fs.nested fs -> dst <> [] ->
  Fs.exists_ fs dst = false ->
  NoDup (map fst (map (fun e => (Fs.moved src dst (fst e), snd e)) fs)).
Proof.
  intros Hnd Hn Hdst Hfree. rewrite map_map. simpl.
  rewrite <- (map_map fst (Fs.moved src dst)).
  apply NoDup_map_NoDup_ForallPairs; [|exact Hnd].
  intros q1 q2 H1 H2 E. unfold Fs.moved in E.
  pose proof (nothing_below_missing fs dst q1 Hn Hdst Hfree H1) as B1.
  pose proof (nothing_below_missing fs dst q2 Hn Hdst Hfree H2) as B2.
  destruct (PathLib.is_prefix src q1) eqn:P1;
    destruct (PathLib.is_prefix src q2) eqn:P2.
  - apply app_inv_head in E.
    rewrite (is_prefix_split _ _ P1), (is_prefix_split _ _ P2), E. reflexivity.
  - rewrite <- E, is_prefix_app in B2. discriminate.
  - rewrite E, is_prefix_app in B1. discriminate.
  - exact E.
Qed.

Lemma rename_step_keeps {C} (root : Path) (a : RenameAction) (k : nat)
    (w w1 : World C) (r : result nat) :
  rename_step root a k w = (w1, r) ->
  map snd (w_fs w1) = map snd (w_fs w)
  /\ w_in w1 = w_in w /\ w_mutagen w1 = w_mutagen w
  /\ (NoDup (map fst (w_fs w)) -> Fs.nested (w_fs w) ->
      NoDup (map fst (w_fs w1)) /\ Fs.nested (w_fs w1)).
Proof.
  unfold rename_step. run_m.
  destruct (Fs.exists_ (w_fs w) (PathLib.joinpath root (source a))); simpl.
  - destruct (Fs.exists_ (w_fs w) (PathLib.joinpath root (target a))); simpl.
    + intros H; inversion H; subst; simpl. auto.
    + destruct (Fs.rename _ _ _) as [fs'|e] eqn:Hr; simpl.
      * intros H; inversion H; subst; simpl. clear H.
        apply rename_guards in Hr as [Hs [Hd [Hfree [Hpar [Hsd ->]]]]].
        split; [rewrite map_map; reflexivity|]. repeat split.
        -- apply nodup_moved; assumption.
        -- apply nested_moved; assumption.
      * intros H; inversion H; subst. auto.
  - intros H; inversion H; subst; simpl. auto.
Qed.

Lemma rename_loop_keeps {C} (root : Path) (l : list RenameAction) :
  forall (k : nat) (w : World C),
    map snd (w_fs (fst (rename_loop root l k w))) = map snd (w_fs w)
    /\ w_in (fst (rename_loop root l k w)) = w_in w
    /\ w_mutagen (fst (rename_loop root l k w)) = w_mutagen w
    /\ (NoDup (map fst (w_fs w)) -> Fs.nested (w_fs w) ->
        NoDup (map fst (w_fs (fst (rename_loop root l k w))))
        /\ Fs.nested (w_fs (fst (rename_loop root l k w)))).
Proof.
  induction l as [|a l IH]; intros k w; [simpl; auto|].
  simpl. unfold bind.
  destruct (rename_step root a k w) as [w1 [k1|e]] eqn:Hs;
    apply rename_step_keeps in Hs as [H1 [H2 [H3 H4]]].
  - destruct (IH k1 w1) as [I1 [I2 [I3 I4]]].
    rewrite I1, I2, I3, H1, H2, H3. repeat split.
    + apply I4; apply H4; assumption.
    + apply I4; apply H4; assumption.
  - simpl. auto.
Qed.

(** ** One action at a time, and a whole run *)

Lemma is_prefix_comparable (a b l : Path) :
  PathLib.is_prefix a l = true -> PathLib.is_prefix b l = true ->
  PathLib.is_prefix a b = true \/ PathLib.is_prefix b a = true.
Proof.
  revert b l; induction a as [|x a IH]; intros b l Ha Hb; [left; reflexivity|].
  destruct b as [|y b]; [right; reflexivity|].
  destruct l as [|z l]; [discriminate|].
  simpl in Ha, Hb.
  apply andb_true_iff in Ha as [Hx Ha]. apply andb_true_iff in Hb as [Hy Hb].
  apply String.eqb_eq in Hx, Hy. subst x y. simpl.
  rewrite String.eqb_refl. simpl. apply (IH b l Ha Hb).
Qed.

(** What a rename that the file system accepts does to a tree in which
    every entry lies in a directory, when the source is an entry. *)
Lemma rename_effect {C} (fs fs' : FS C) (src dst : Path) :
  Fs.nested fs ->
  PathLib.name src <> ".." ->
  Fs.exists_ fs src = true ->
  Fs.rename fs src dst = Ok fs' ->
  Fs.exists_ fs' src = false
  /\ Fs.exists_ fs' dst = true
  /\ (forall r, Fs.lookup fs' (dst ++ r) = Fs.lookup fs (src ++ r))
  /\ (forall p, PathLib.is_prefix src p = true -> Fs.lookup fs' p = None)
  /\ (forall p, PathLib.is_prefix src p = false ->
                PathLib.is_prefix dst p = false ->
                Fs.lookup fs' p = Fs.lookup fs p)
  /\ map snd fs' = map snd fs.
Proof.
  intros Hn Hname Hsrc Hr.
  apply rename_guards in Hr as [Hs [Hd [Hfree [Hpar [Hsd ->]]]]].
  assert (Hentry : Fs.is_entry fs src = true).
  { apply exists_cases in Hsrc as [H|[H _]]; [exact H | contradiction]. }
  rewrite entry_lookup in Hentry by exact Hs.
  destruct (Fs.lookup fs src) as [node|] eqn:Hl; [|discriminate].
  assert (Hbelow : forall q, In q (map fst fs) -> PathLib.is_prefix dst q = false).
  { intros q Hq. apply (nothing_below_missing fs dst q Hn Hd Hfree Hq). }
  assert (Hunder : forall p, PathLib.is_prefix src p = true ->
                             PathLib.is_prefix dst p = false).
  { intros q Hq. destruct (PathLib.is_prefix dst q) eqn:E; [|reflexivity].
    destruct (is_prefix_comparable _ _ _ Hq E) as [H|H]; [congruence|].
    rewrite (Hbelow src) in H; [discriminate|].
    eapply lookup_some_in, Hl. }
  assert (Himage : forall r,
            Fs.lookup (map (fun e => (Fs.moved src dst (fst e), snd e)) fs)
                      (dst ++ r)
            = Fs.lookup fs (src ++ r))
    by (intros r; apply lookup_moved_image, Hbelow).
  assert (Hgone : forall q, PathLib.is_prefix src q = true ->
            Fs.lookup (map (fun e => (Fs.moved src dst (fst e), snd e)) fs) q
            = None)
    by (intros q Hq; apply lookup_moved_under; [exact Hq | apply Hunder, Hq]).
  split; [|split; [|split; [exact Himage|split; [exact Hgone|split]]]].
  - unfold Fs.exists_. rewrite entry_lookup by exact Hs.
    rewrite Hgone by (rewrite <- (app_nil_r src) at 2; apply is_prefix_app).
    apply String.eqb_neq in Hname. rewrite Hname. reflexivity.
  - apply exists_entry. rewrite entry_lookup by exact Hd.
    pose proof (Himage []) as Hi. rewrite !app_nil_r in Hi.
    rewrite Hi, Hl. reflexivity.
  - intros q H1 H2. apply lookup_moved_other; assumption.
  - rewrite map_map. reflexivity.
Qed.

Lemma rename_loop_one {C} (root : Path) (a : RenameAction) (k : nat)
    (w : World C) :
  rename_loop root [a] k w = rename_step root a k w.
Proof.
  simpl. unfold bind, ret.
  destruct (rename_step root a k w) as [w' [k'|e]]; reflexivity.
Qed.

(** C6. One turn of the loop of [apply_rename_actions]: when the source is
    missing the action is skipped with "source missing"; else, when the
    target is there (a target whose last part is [..] is there as soon as
    its parent is a directory), it is skipped with "target already
    exists"; in both cases nothing raises, the file system and the count
    are as before (so nothing is overwritten) and the loop goes on with the
    remaining actions.  Otherwise the rename is performed and the count
    grows by one: in a tree where every entry lies in a directory, a source
    that is an entry is gone afterwards with all that was below it, the
    target holds what the source held, with what was below it, and every
    other entry is where it was.  [apply_rename_actions] is this loop over
    the file actions followed by the directory actions, starting from a
    count of zero, so for a single action it is that one turn; over a
    whole run every action of the list is reported exactly once and the
    count returned is the number of renames performed. *)
Theorem apply_rename_step_by_step :
  forall (C : Type) (root : Path) (action : RenameAction)
         (rest : list RenameAction) (applied : nat) (w : World C),
    let src := PathLib.joinpath root (source action) in
    let dst := PathLib.joinpath root (target action) in
    (Fs.exists_ (w_fs w) src = false ->
       rename_step root action applied w
       = (say (SkipSourceMissing action) w, Ok applied)
       /\ rename_loop root (action :: rest) applied w
          = rename_loop root rest applied (say (SkipSourceMissing action) w))
    /\ (Fs.exists_ (w_fs w) src = true ->
        Fs.exists_ (w_fs w) dst = true ->
        rename_step root action applied w
        = (say (SkipTargetExists action) w, Ok applied)
        /\ rename_loop root (action :: rest) applied w
           = rename_loop root rest applied (say (SkipTargetExists action) w))
    /\ (Fs.exists_ (w_fs w) src = true ->
        Fs.exists_ (w_fs w) dst = false ->
        forall fs', Fs.rename (w_fs w) src dst = Ok fs' ->
        rename_step root action applied w
        = (renamed_world fs' action w, Ok (applied + 1))
        /\ rename_loop root (action :: rest) applied w
           = rename_loop root rest (applied + 1) (renamed_world fs' action w))
    /\ (forall actions w' n,
        apply_rename_actions root actions w = (w', Ok n) ->
        exists evs,
          w_out w' = w_out w ++ evs
          /\ Permutation (map rename_event_action evs) (map Some actions)
          /\ n = List.length (filter is_renamed evs))
    /\ (Fs.exists_ (w_fs w) src = true ->
        Fs.exists_ (w_fs w) dst = false ->
        forall fs', Fs.rename (w_fs w) src dst = Ok fs' ->
        Fs.nested (w_fs w) ->
        PathLib.name src <> ".." ->
        Fs.exists_ fs' src = false
        /\ Fs.exists_ fs' dst = true
        /\ (forall r, Fs.lookup fs' (dst ++ r) = Fs.lookup (w_fs w) (src ++ r))
        /\ (forall p, PathLib.is_prefix src p = true -> Fs.lookup fs' p = None)
        /\ (forall p, PathLib.is_prefix src p = false ->
                      PathLib.is_prefix dst p = false ->
                      Fs.lookup fs' p = Fs.lookup (w_fs w) p)
        /\ map snd fs' = map snd (w_fs w))
    /\ (PathLib.name dst = ".." ->
        Fs.is_dir (w_fs w) (PathLib.parent dst) = true ->
        Fs.exists_ (w_fs w) dst = true)
    /\ (forall actions,
          apply_rename_actions (C := C) root actions
          = rename_loop root (file_actions actions ++ dir_actions actions) 0)
    /\ rename_loop root [] applied w = (w, Ok applied)
    /\ apply_rename_actions root [action] w = rename_step root action 0 w.
Proof.
  intros C root action rest applied w src dst.
  split; [|split; [|split; [|split; [|split; [|split; [|split; [|split]]]]]]].
  - intros H.
    pose proof (rename_step_source_missing root action applied w H) as Hs.
    split; [exact Hs | apply rename_loop_cons, Hs].
  - intros H1 H2.
    pose proof (rename_step_target_exists root action applied w H1 H2) as Hs.
    split; [exact Hs | apply rename_loop_cons, Hs].
  - intros H1 H2 fs' Hr.
    pose proof (rename_step_rename root action applied w H1 H2) as Hs.
    fold src dst in Hs. rewrite Hr in Hs.
    split; [exact Hs | apply rename_loop_cons, Hs].
  - intros actions w' n H. unfold apply_rename_actions in H.
    destruct (rename_loop_log _ _ _ _ _ _ H) as [evs [Hout [Hmap Hn]]].
    exists evs. repeat split; [exact Hout | | exact Hn].
    rewrite Hmap. apply Permutation_map, apply_order_perm.
  - intros H1 _ fs' Hr Hn Hname.
    apply (rename_effect (w_fs w) fs' src dst Hn Hname H1 Hr).
  - intros Hname Hq. unfold Fs.exists_.
    rewrite Hname, Hq. apply orb_true_r.
  - reflexivity.
  - reflexivity.
  - unfold apply_rename_actions.
    replace (file_actions [action] ++ dir_actions [action]) with [action].
    + apply rename_loop_one.
    + unfold file_actions, dir_actions, is_kind. simpl.
      destruct (kind action); reflexivity.
Qed.

Lemma apply_rename_step_by_step_witness :
  rename_step Demo.root Demo.stale_rename 0 (Demo.world Demo.album_tree [])
  = (say (SkipSourceMissing Demo.stale_rename) (Demo.world Demo.album_tree []),
     Ok 0)
  /\ rename_step Demo.root Demo.album_rename 0 (Demo.world Demo.taken_tree [])
     = (say (SkipTargetExists Demo.album_rename) (Demo.world Demo.taken_tree []),
        Ok 0)
  /\ rename_step Demo.root Demo.up_rename 0 (Demo.world Demo.album_tree [])
     = (say (SkipTargetExists Demo.up_rename) (Demo.world Demo.album_tree []),
        Ok 0)
  /\ (exists w',
        apply_rename_actions Demo.root [Demo.track_rename]
                             (Demo.world Demo.album_tree [])
        = (w', Ok 1)
        /\ w_out w' = [Renamed Demo.track_rename]
        /\ Fs.exists_ (w_fs w')
             ["music"; "2001 - Discovery"; "1 - One More Time.flac"] = false
        /\ Fs.lookup (w_fs w')
             ["music"; "2001 - Discovery"; "01 One More Time.flac"]
           = Some (File (Demo.Tags [])))
  /\ (exists evs,
        w_out (fst (apply_rename_actions Demo.root
                      [Demo.album_rename; Demo.stale_rename; Demo.track_rename]
                      (Demo.world Demo.taken_tree [])))
        = evs
        /\ List.length (filter is_renamed evs) = 1).
Proof.
  pose proof (apply_rename_step_by_step Demo.Media Demo.root) as T.
  split; [|split; [|split; [|split]]].
  - apply (proj1 (T Demo.stale_rename [] 0 (Demo.world Demo.album_tree []))).
    vm_compute; reflexivity.
  - apply (proj1 (proj2 (T Demo.album_rename [] 0 (Demo.world Demo.taken_tree [])))).
    + vm_compute; reflexivity.
    + vm_compute; reflexivity.
  - destruct (T Demo.up_rename [] 0 (Demo.world Demo.album_tree []))
      as [_ [T2 [_ [_ [_ [T6 _]]]]]].
    apply T2; [vm_compute; reflexivity|].
    apply T6; vm_compute; reflexivity.
  - destruct (T Demo.track_rename [] 0 (Demo.world Demo.album_tree []))
      as [_ [_ [T3 [_ [T5 [_ [_ [_ T9]]]]]]]].
    assert (H1 : Fs.exists_ Demo.album_tree
                   ["music"; "2001 - Discovery"; "1 - One More Time.flac"]
                 = true) by (vm_compute; reflexivity).
    assert (H2 : Fs.exists_ Demo.album_tree
                   ["music"; "2001 - Discovery"; "01 One More Time.flac"]
                 = false) by (vm_compute; reflexivity).
    eassert (Hr : Fs.rename Demo.album_tree
                    ["music"; "2001 - Discovery"; "1 - One More Time.flac"]
                    ["music"; "2001 - Discovery"; "01 One More Time.flac"]
                  = Ok _) by (vm_compute; reflexivity).
    destruct (T3 H1 H2 _ Hr) as [Hstep _].
    destruct (T5 H1 H2 _ Hr
                (proj2 (proj2 (well_formedb_sound Demo.album_tree eq_refl)))
                ltac:(vm_compute; discriminate))
      as [Hgone [_ [Himage _]]].
    eexists. split; [rewrite T9; exact Hstep|].
    split; [reflexivity|]. split; [exact Hgone|].
    apply (Himage []).
  - destruct (proj1 (proj2 (proj2 (proj2 (T Demo.track_rename [] 0
                                     (Demo.world Demo.taken_tree [])))))
                [Demo.album_rename; Demo.stale_rename; Demo.track_rename]
                _ 1 ltac:(vm_compute; reflexivity)) as [evs [Hout [_ Hn]]].
    eexists. split; [reflexivity|].
    vm_compute. reflexivity.
Defined.

(** The program itself, with [..] as the album template: the planner
    records the rename of the folder to [..], and the run skips it because
    that target is there. *)
Example dotdot_template_is_skipped :
  gather_rename_actions py_format Demo.album_tree Demo.root
                        ".." default_track_format
  = Ok [Demo.track_rename; Demo.up_rename]
  /\ w_out (fst (run_filenames py_format Demo.root ".." default_track_format
                   true (Demo.world Demo.album_tree [])))
     = [RenamePreview [Demo.up_rename] [Demo.track_rename];
        Applying;
        Renamed Demo.track_rename;
        SkipTargetExists Demo.up_rename;
        Done 1].
Proof. split; vm_compute; reflexivity. Qed.

Lemma apply_rename_keeps_tree :
  forall (C : Type) (root : Path) (actions : list RenameAction) (w : World C),
    let w' := fst (apply_rename_actions root actions w) in
    map snd (w_fs w') = map snd (w_fs w)
    /\ List.length (w_fs w') = List.length (w_fs w)
    /\ w_in w' = w_in w
    /\ (NoDup (map fst (w_fs w)) -> Fs.nested (w_fs w) ->
        NoDup (map fst (w_fs w')) /\ Fs.nested (w_fs w')).
Proof.
  intros C root actions w w'. unfold w', apply_rename_actions.
  destruct (rename_loop_keeps root (file_actions actions ++ dir_actions actions)
              0 w) as [H1 [H2 [_ H4]]].
  split; [exact H1|]. split; [|split; assumption].
  rewrite <- (length_map snd), H1, length_map. reflexivity.
Qed.

(** X2. Whatever the actions and however the run ends, with its count or
    with an exception of the file system, [apply_rename_actions] only moves
    entries: the tree holds the same directories and the same files with
    the same contents, in the same number, and the input is not read.  On a
    tree without repeated paths in which every entry lies in a directory,
    the tree it leaves is of that kind again: no entry has been put on the
    path of another, none has lost its directory. *)
Theorem apply_rename_actions_only_moves :
  forall (C : Type) (root : Path) (actions : list RenameAction) (w : World C),
    let w' := fst (apply_rename_actions root actions w) in
    map snd (w_fs w') = map snd (w_fs w)
    /\ List.length (w_fs w') = List.length (w_fs w)
    /\ w_in w' = w_in w
    /\ (NoDup (map fst (w_fs w)) -> Fs.nested (w_fs w) ->
        NoDup (map fst (w_fs w')) /\ Fs.nested (w_fs w')).
Proof. exact apply_rename_keeps_tree. Qed.

Lemma apply_rename_actions_only_moves_witness :
  let w' := fst (apply_rename_actions Demo.root
                   [Demo.album_rename; Demo.stale_rename; Demo.track_rename]
                   (Demo.world Demo.taken_tree [])) in
  NoDup (map fst (w_fs w')) /\ Fs.nested (w_fs w').
Proof.
  apply (proj2 (proj2 (proj2 (apply_rename_actions_only_moves
           Demo.Media Demo.root
           [Demo.album_rename; Demo.stale_rename; Demo.track_rename]
           (Demo.world Demo.taken_tree []))))).
  - apply (proj1 (well_formedb_sound Demo.taken_tree eq_refl)).
  - apply (proj2 (proj2 (well_formedb_sound Demo.taken_tree eq_refl))).
Defined.

(** ** The planner with the default templates *)

Lemma py_format_default_track (n : nat) (title : string) :
  py_format default_track_format [("track", FInt n); ("title", FStr title)]
  = Ok (Str.zfill 2 n +++ " " +++ title).
Proof.
  rewrite <- (append_nil_r title) at 2. reflexivity.
Qed.

Lemma digit_char_isdigit (d : nat) :
  d < 10 -> Str.isdigit (Str.digit_char d) = true.
Proof.
  intros H. do 10 (destruct d as [|d]; [reflexivity|]). lia.
Qed.

Lemma repr_acc_digits (fuel n : nat) (acc : string) :
  Str.all Str.isdigit acc = true ->
  Str.all Str.isdigit (Str.repr_acc fuel n acc) = true.
Proof.
  revert n acc; induction fuel as [|fuel IH]; intros n acc H; [exact H|].
  cbn [Str.repr_acc].
  assert (H' : Str.all Str.isdigit (String (Str.digit_char (n mod 10)) acc) = true).
  { cbn [Str.all]. rewrite H, digit_char_isdigit; [reflexivity|].
    apply Nat.mod_upper_bound. discriminate. }
  destruct (Nat.eqb (n / 10) 0); [exact H' | apply IH, H'].
Qed.

Lemma zeros_digits (k : nat) : Str.all Str.isdigit (Str.zeros k) = true.
Proof. induction k; simpl; [reflexivity | exact IHk]. Qed.

Lemma zfill_digits (w n : nat) : Str.all Str.isdigit (Str.zfill w n) = true.
Proof.
  unfold Str.zfill, Str.repr_nat. rewrite all_append, zeros_digits.
  apply repr_acc_digits. reflexivity.
Qed.

Lemma contains_lstrip (c : ascii) (s : string) :
  Str.contains c (Str.lstrip s) = true -> Str.contains c s = true.
Proof.
  induction s as [|d s IH]; simpl; [auto|].
  destruct (Str.isspace d); [|auto].
  intros H. rewrite (IH H). apply orb_true_r.
Qed.

Lemma contains_rstrip (c : ascii) (s : string) :
  Str.contains c (Str.rstrip s) = true -> Str.contains c s = true.
Proof.
  induction s as [|d s IH]; simpl; [auto|].
  destruct (Str.rstrip s) as [|e r] eqn:E.
  - destruct (Str.isspace d); simpl; [discriminate|].
    rewrite orb_false_r. intros ->. reflexivity.
  - simpl. intros H. apply orb_true_iff in H as [H|H].
    + rewrite H. reflexivity.
    + simpl in IH. rewrite (IH H). apply orb_true_r.
Qed.

Lemma contains_strip (c : ascii) (s : string) :
  Str.contains c s = false -> Str.contains c (Str.strip s) = false.
Proof.
  intros H. destruct (Str.contains c (Str.strip s)) eqn:E; [|reflexivity].
  unfold Str.strip in E. apply contains_rstrip, contains_lstrip in E. congruence.
Qed.

Lemma contains_substring (c : ascii) (n m : nat) (s : string) :
  Str.contains c s = false -> Str.contains c (String.substring n m s) = false.
Proof.
  revert n m; induction s as [|d s IH]; intros n m H.
  - destruct n, m; reflexivity.
  - simpl in H. apply orb_false_iff in H as [Hd Hs].
    destruct n as [|n]; destruct m as [|m]; simpl; try reflexivity.
    + rewrite Hd. apply (IH 0 m Hs).
    + apply (IH n 0 Hs).
    + apply (IH n (S m) Hs).
Qed.

Lemma contains_stem (c : ascii) (nm : string) :
  Str.contains c nm = false -> Str.contains c (PathLib.name_stem nm) = false.
Proof.
  intros H. unfold PathLib.name_stem.
  destruct (PathLib.suffix_index nm); [apply contains_substring, H | exact H].
Qed.

Lemma contains_suffix (c : ascii) (nm : string) :
  Str.contains c nm = false -> Str.contains c (PathLib.name_suffix nm) = false.
Proof.
  intros H. unfold PathLib.name_suffix.
  destruct (PathLib.suffix_index nm); [apply contains_substring, H | reflexivity].
Qed.

(** What a match of [TRACK_FILE_PATTERN] consists of. *)
Lemma track_file_pattern_inv (stem : string) (m : Re.captures) :
  Re.re_match TRACK_FILE_PATTERN stem = Some m ->
  exists num ws ws2 title tail,
    stem = num +++ ws +++ String "-" (ws2 +++ title +++ tail)
    /\ m = [("num", num); ("title", title)]
    /\ Str.all Str.isdigit num = true
    /\ 1 <= String.length num <= 3
    /\ Str.all Str.isspace ws = true
    /\ Str.all Str.isspace ws2 = true
    /\ Str.all Str.notnewline title = true
    /\ 1 <= String.length title
    /\ Re.at_end tail = true.
Proof.
  unfold Re.re_match, TRACK_FILE_PATTERN. intros H.
  apply match_bol_inv in H as [_ H].
  apply match_rep_inv in H as [num [r1 [E1 [Hn [Hlo [Hhi H]]]]]].
  apply match_rep_inv in H as [ws [r2 [E2 [Hw [_ [_ H]]]]]].
  apply match_lit_inv in H as [r3 [E3 H]].
  apply match_rep_inv in H as [ws2 [r4 [E4 [Hw2 [_ [_ H]]]]]].
  apply match_rep_inv in H as [title [tail [E5 [Ht [Hlt [_ H]]]]]].
  apply match_eol_inv in H as [He H].
  simpl in H, Hhi. inversion H.
  exists num, ws, ws2, title, tail. subst. repeat split; try assumption; lia.
Qed.

(** What a match of [ALBUM_DIR_PATTERN] consists of. *)
Lemma album_dir_pattern_parts (name : string) (m : Re.captures) :
  Re.re_match ALBUM_DIR_PATTERN name = Some m ->
  exists year ws ws2 album tail,
    name = year +++ ws +++ String "-" (ws2 +++ album +++ tail)
    /\ m = [("year", year); ("album", album)]
    /\ Str.all Str.isdigit year = true
    /\ String.length year = 4
    /\ Str.all Str.isspace ws = true
    /\ Str.all Str.isspace ws2 = true
    /\ Str.all Str.notnewline album = true
    /\ 1 <= String.length album
    /\ Re.at_end tail = true.
Proof.
  unfold Re.re_match, ALBUM_DIR_PATTERN. intros H.
  apply match_bol_inv in H as [_ H].
  apply match_rep_inv in H as [year [r1 [E1 [Hn [Hlo [Hhi H]]]]]].
  apply match_rep_inv in H as [ws [r2 [E2 [Hw [_ [_ H]]]]]].
  apply match_lit_inv in H as [r3 [E3 H]].
  apply match_rep_inv in H as [ws2 [r4 [E4 [Hw2 [_ [_ H]]]]]].
  apply match_rep_inv in H as [album [tail [E5 [Ht [Hlt [_ H]]]]]].
  apply match_eol_inv in H as [He H].
  simpl in H, Hhi. inversion H.
  exists year, ws, ws2, album, tail. subst. repeat split; try assumption; lia.
Qed.

Lemma contains_group (c : ascii) (a w w2 g tail : string) :
  Str.contains c (a +++ w +++ String "-" (w2 +++ g +++ tail)) = false ->
  Str.contains c g = false.
Proof.
  rewrite !contains_append. simpl. rewrite !contains_append.
  intros H. repeat (apply orb_false_iff in H as [? H]).
  destruct (Str.contains c g); [|reflexivity].
  simpl in *. repeat match goal with
  | H : _ || _ = false |- _ => apply orb_false_iff in H as [? ?]
  end; congruence.
Qed.

Lemma valid_name_spaced (nm : string) :
  Str.contains PathLib.sep nm = false -> Str.contains " " nm = true ->
  PathLib.valid_name nm = true.
Proof.
  intros Hsep Hsp. unfold PathLib.valid_name. rewrite Hsep.
  assert (Hne : Str.is_empty nm = false)
    by (destruct nm; [discriminate | reflexivity]).
  assert (Hd : String.eqb nm "." = false)
    by (apply String.eqb_neq; intros ->; discriminate).
  rewrite Hne, Hd. reflexivity.
Qed.

Lemma proper_name (p : Path) :
  p <> [] -> Forall (fun x => PathLib.valid_name x = true) p ->
  PathLib.valid_name (PathLib.name p) = true.
Proof.
  intros Hne Hv. rewrite Forall_forall in Hv. apply Hv.
  unfold PathLib.name.
  rewrite (app_removelast_last EmptyString Hne) at 2.
  apply in_or_app. right. left. reflexivity.
Qed.

Lemma is_prefix_with_name (root p : Path) (x : string) :
  PathLib.is_prefix root p = true -> List.length root < List.length p ->
  PathLib.is_prefix root (removelast p ++ [x]) = true.
Proof.
  intros Hp Hl. apply is_prefix_iff in Hp as [s ->].
  assert (Hs : s <> []) by (intros ->; rewrite app_nil_r in Hl; lia).
  rewrite removelast_app by exact Hs. rewrite <- app_assoc. apply is_prefix_app.
Qed.

Section DefaultTemplates.
Context {C : Type}.
Variables (fs : FS C) (root path : Path).
Hypothesis path_below : PathLib.is_prefix root path = true.
Hypothesis path_longer : List.length root < List.length path.
Hypothesis path_proper : Forall (fun x => PathLib.valid_name x = true) path.

Lemma path_not_nil : path <> [].
Proof. intros E. rewrite E in path_longer. simpl in path_longer. lia. Qed.

Lemma name_no_sep : Str.contains PathLib.sep (PathLib.name path) = false.
Proof.
  pose proof (proper_name path path_not_nil path_proper) as H.
  apply valid_name_inv in H. tauto.
Qed.

Lemma renamed_ok (kd : Kind) (nm : string) :
  Str.contains PathLib.sep nm = false -> Str.contains " " nm = true ->
  is_ok (tgt <- PathLib.with_name path nm ;;
         if negb (PathLib.path_eqb tgt path)
         then (s <- PathLib.relative_to path root ;;
               t <- PathLib.relative_to tgt root ;;
               Ok (Some (mkRename kd s t)))
         else Ok None)%res = true.
Proof.
  intros Hsep Hsp. unfold PathLib.with_name.
  pose proof (proper_name path path_not_nil path_proper) as Hn.
  apply valid_name_inv in Hn as [_ [_ [c [x [-> _]]]]]. simpl Str.is_empty.
  cbv iota. rewrite (valid_name_spaced nm Hsep Hsp). simpl rbind.
  destruct (PathLib.path_eqb (removelast path ++ [nm]) path); [reflexivity|].
  simpl negb. cbv iota. unfold PathLib.relative_to.
  rewrite path_below, (is_prefix_with_name root path nm path_below path_longer).
  reflexivity.
Qed.

Lemma file_rename_for_default_ok :
  is_ok (file_rename_for py_format fs root default_track_format path) = true.
Proof.
  unfold file_rename_for.
  destruct (negb (Fs.is_file fs path)); [reflexivity|].
  unfold normalized_track_name.
  destruct (Re.re_match TRACK_FILE_PATTERN (PathLib.stem path)) as [m|] eqn:Hm;
    [|reflexivity].
  rewrite py_format_default_track. simpl rbind.
  destruct (String.eqb _ (PathLib.stem path)); [reflexivity|].
  apply track_file_pattern_inv in Hm
    as [num [ws [ws2 [title [tail [Hs [-> _]]]]]]].
  cbn [Re.group String.eqb Ascii.eqb Bool.eqb].
  pose proof (contains_stem PathLib.sep _ name_no_sep) as Hstem.
  fold (PathLib.stem path) in Hstem. rewrite Hs in Hstem.
  apply contains_group in Hstem.
  apply renamed_ok.
  - rewrite !contains_append.
    rewrite (all_not_contains Str.isdigit PathLib.sep _ eq_refl (zfill_digits 2 _)).
    cbn [Str.contains]. rewrite (contains_strip _ _ Hstem).
    unfold PathLib.suffix. rewrite (contains_suffix _ _ name_no_sep).
    reflexivity.
  - rewrite !contains_append. simpl. rewrite orb_true_r. reflexivity.
Qed.

Lemma dir_rename_for_default_ok :
  is_ok (dir_rename_for py_format fs root default_album_format path) = true.
Proof.
  unfold dir_rename_for.
  destruct (negb (Fs.is_dir fs path)); [reflexivity|].
  unfold normalized_album_name.
  destruct (Re.re_match ALBUM_DIR_PATTERN (PathLib.name path)) as [m|] eqn:Hm;
    [|reflexivity].
  rewrite py_format_default_album. simpl rbind.
  destruct (String.eqb _ (PathLib.name path)); [reflexivity|].
  apply album_dir_pattern_parts in Hm
    as [year [ws [ws2 [album [tail [Hs [-> [Hy _]]]]]]]].
  cbn [Re.group String.eqb Ascii.eqb Bool.eqb].
  pose proof name_no_sep as Hname. rewrite Hs in Hname.
  pose proof (contains_group _ _ _ _ _ _ Hname) as Halbum.
  apply renamed_ok.
  - rewrite !contains_append. rewrite (contains_strip _ _ Halbum).
    cbn [Str.contains]. rewrite contains_append.
    rewrite (all_not_contains Str.isdigit PathLib.sep _ eq_refl Hy).
    reflexivity.
  - rewrite !contains_append. simpl. rewrite orb_true_r. reflexivity.
Qed.

End DefaultTemplates.

Lemma default_plan_ok :
  forall (C : Type) (fs : FS C) (root : Path),
    (forall p, In p (map fst fs) ->
               Forall (fun x => PathLib.valid_name x = true) p) ->
    gather_rename_actions py_format fs root
                          default_album_format default_track_format
    = Ok (flat_map (fun p => produced (file_rename_for py_format fs root
                                         default_track_format p))
                   (Fs.rglob fs root)
          ++ flat_map (fun p => produced (dir_rename_for py_format fs root
                                            default_album_format p))
                      (Fs.rglob fs root)).
Proof.
  intros C fs root Hv. unfold gather_rename_actions.
  rewrite collect_all_ok.
  - rewrite collect_all_ok; [reflexivity|].
    intros p Hp. apply rglob_in in Hp as [Hin [Hpre Hlen]].
    apply dir_rename_for_default_ok; auto.
  - intros p Hp. apply rglob_in in Hp as [Hin [Hpre Hlen]].
    apply file_rename_for_default_ok; auto.
Qed.

(** X3. With the default templates the rename planner never raises on a
    tree whose entries have proper names: it returns a plan, made of what
    its two loops record for each entry below the root. *)
Theorem plan_with_default_templates :
  forall (C : Type) (fs : FS C) (root : Path),
    (forall p, In p (map fst fs) ->
               Forall (fun x => PathLib.valid_name x = true) p) ->
    gather_rename_actions py_format fs root
                          default_album_format default_track_format
    = Ok (flat_map (fun p => produced (file_rename_for py_format fs root
                                         default_track_format p))
                   (Fs.rglob fs root)
          ++ flat_map (fun p => produced (dir_rename_for py_format fs root
                                            default_album_format p))
                      (Fs.rglob fs root)).
Proof. exact default_plan_ok. Qed.

Lemma plan_with_default_templates_witness :
  is_ok (gather_rename_actions py_format Demo.two_track_tree Demo.root
           default_album_format default_track_format) = true.
Proof.
  rewrite (plan_with_default_templates Demo.Media Demo.two_track_tree Demo.root).
  - reflexivity.
  - apply (proj1 (proj2 (well_formedb_sound Demo.two_track_tree eq_refl))).
Defined.

(** ** A whole non-interactive rename run *)

Lemma skips_say {C} (e : Event) (w : World C) :
  is_source_missing e = false ->
  source_missing_skips (w_out (say e w)) = source_missing_skips (w_out w).
Proof.
  intros H. simpl. rewrite skips_app. unfold source_missing_skips at 2.
  simpl. rewrite H. simpl. lia.
Qed.

Lemma default_run_ok :
  forall (C : Type) (root : Path) (w : World C),
    Fs.well_formed (w_fs w) ->
    exists w',
      run_filenames py_format root default_album_format default_track_format
                    true w = (w', Ok 0)
      /\ source_missing_skips (w_out w') = source_missing_skips (w_out w)
      /\ map snd (w_fs w') = map snd (w_fs w)
      /\ w_in w' = w_in w.
Proof.
  intros C root w Hwf.
  pose proof (default_plan_ok C (w_fs w) root
                (fun p Hp => proj2 (proj1 (proj2 Hwf) p Hp))) as Hplan.
  remember (flat_map _ _ ++ flat_map _ _) as actions eqn:Ha. clear Ha.
  unfold run_filenames, print_rename_preview. run_m. rewrite Hplan. simpl.
  destruct actions as [|a actions].
  - eexists. split; [reflexivity|]. simpl. split; [|auto].
    apply (skips_say NothingToRename w eq_refl).
  - simpl.
    match goal with
    | |- context [apply_rename_actions root ?l ?x] =>
        set (l0 := l) in *; set (w0 := x)
    end.
    assert (Hwf0 : Fs.well_formed (w_fs w0)) by exact Hwf.
    assert (Hplan0 : gather_rename_actions py_format (w_fs w0) root
                       default_album_format default_track_format = Ok l0)
      by exact Hplan.
    destruct (planned_run_completes py_format root default_album_format
                default_track_format l0 w0 Hwf0 Hplan0) as [w1 [k [Hrun Hskips]]].
    pose proof (apply_rename_keeps_tree C root l0 w0) as Hkeep.
    simpl in Hkeep. rewrite Hrun in Hkeep. simpl in Hkeep.
    destruct Hkeep as [Hsnd [_ [Hin _]]].
    rewrite Hrun. simpl.
    eexists. split; [reflexivity|]. simpl. repeat split.
    + rewrite skips_app. rewrite Hskips. unfold w0. simpl.
      rewrite !skips_app. unfold source_missing_skips. simpl. lia.
    + exact Hsnd.
    + exact Hin.
Qed.

(** X4. On a well-formed tree, [run_filenames] without prompt and with the
    default templates always runs to its end and returns 0: the planner does
    not raise, no rename raises, and no action is skipped for a missing
    source.  The tree it leaves holds the same files with the same
    contents, and the input is not read. *)
Theorem run_filenames_default_completes :
  forall (C : Type) (root : Path) (w : World C),
    Fs.well_formed (w_fs w) ->
    exists w',
      run_filenames py_format root default_album_format default_track_format
                    true w = (w', Ok 0)
      /\ source_missing_skips (w_out w') = source_missing_skips (w_out w)
      /\ map snd (w_fs w') = map snd (w_fs w)
      /\ w_in w' = w_in w.
Proof. exact default_run_ok. Qed.

Lemma run_filenames_default_completes_witness :
  exists w',
    run_filenames py_format Demo.root default_album_format
                  default_track_format true
                  (Demo.world Demo.two_track_tree []) = (w', Ok 0)
    /\ source_missing_skips (w_out w') = 0.
Proof.
  destruct (run_filenames_default_completes Demo.Media Demo.root
              (Demo.world Demo.two_track_tree [])
              (well_formedb_sound Demo.two_track_tree eq_refl))
    as [w' [Hrun [Hskips _]]].
  exists w'. split; [exact Hrun | exact Hskips].
Defined.

(** ** What is previewed is what is applied *)

Lemma preview_lists_plan (actions : list RenameAction) :
  Permutation (sorted_by by_source (filter (is_kind KDir) actions)
               ++ sorted_by by_source (filter (is_kind KFile) actions))
              actions.
Proof.
  rewrite !sorted_by_perm. rewrite Permutation_app_comm. apply kind_split.
Qed.

Lemma applied_after_preview {C} (root : Path) (actions : list RenameAction)
    (w w' : World C) (n : nat) :
  apply_rename_actions root actions w = (w', Ok n) ->
  exists evs,
    w_out w' = w_out w ++ evs
    /\ Permutation (map rename_event_action evs) (map Some actions)
    /\ n = List.length (filter is_renamed evs).
Proof.
  intros H. unfold apply_rename_actions in H.
  destruct (rename_loop_log _ _ _ _ _ _ H) as [evs [Hout [Hmap Hn]]].
  exists evs. repeat split; [exact Hout | | exact Hn].
  rewrite Hmap. apply Permutation_map, apply_order_perm.
Qed.

(** X5. What [run_filenames] prints when it returns: with an empty plan the
    single line that there is nothing to rename; otherwise the preview,
    which lists every planned action once, folders and files each in
    ascending order of their source; then either the abort message after a
    declined prompt, or one [OK] or [SKIP] line for each previewed action
    and for no other, closed by the count of the [OK] lines. *)
Theorem run_filenames_output :
  forall (C : Type) (fmt : formatter) (root : Path) (af tf : string)
         (yes : bool) (w w' : World C) (rc : nat),
    run_filenames fmt root af tf yes w = (w', Ok rc) ->
    exists actions,
      gather_rename_actions fmt (w_fs w) root af tf = Ok actions
      /\ ((actions = [] /\ w_out w' = w_out w ++ [NothingToRename])
          \/ exists folders files asked,
               actions <> []
               /\ Permutation (folders ++ files) actions
               /\ Sorted (fun a b => by_source a b = true) folders
               /\ Sorted (fun a b => by_source a b = true) files
               /\ (yes = true -> asked = [])
               /\ ((w_out w' = w_out w ++ RenamePreview folders files
                                          :: asked ++ [Aborted]
                    /\ yes = false /\ w_fs w' = w_fs w)
                   \/ exists evs,
                        w_out w' = w_out w ++ RenamePreview folders files
                                             :: asked ++ Applying :: evs
                                             ++ [Done (List.length
                                                         (filter is_renamed evs))]
                        /\ Permutation (map rename_event_action evs)
                                       (map Some (folders ++ files)))).
Proof.
  intros C fmt root af tf yes w w' rc.
  unfold run_filenames, print_rename_preview. run_m.
  destruct (gather_rename_actions fmt (w_fs w) root af tf)
    as [[|a actions]|e] eqn:Hg; simpl; try discriminate.
  - intros H; inversion H; subst. exists []. split; [reflexivity|].
    left. split; reflexivity.
  - intros H. exists (a :: actions). split; [reflexivity|]. right.
    set (folders := sorted_by by_source (filter (is_kind KDir) (a :: actions))) in *.
    set (files := sorted_by by_source (filter (is_kind KFile) (a :: actions))) in *.
    assert (Hperm : Permutation (folders ++ files) (a :: actions))
      by apply preview_lists_plan.
    assert (Finish : forall asked (w0 : World C),
               w_out w0 = w_out w ++ RenamePreview folders files
                                  :: asked ++ [Applying] ->
               (let (w2, r) := apply_rename_actions root (a :: actions) w0 in
                match r with
                | Ok n => (say (Done n) w2, Ok 0)
                | Raise e => (w2, Raise e)
                end) = (w', Ok rc) ->
               exists evs,
                 w_out w' = w_out w ++ RenamePreview folders files
                                      :: asked ++ Applying :: evs
                                      ++ [Done (List.length
                                                  (filter is_renamed evs))]
                 /\ Permutation (map rename_event_action evs)
                                (map Some (folders ++ files))).
    { intros asked w0 Hw0 Hrun.
      destruct (apply_rename_actions root (a :: actions) w0)
        as [w2 [n|e]] eqn:Happ; [|discriminate].
      inversion Hrun; subst w' rc. clear Hrun.
      destruct (applied_after_preview _ _ _ _ _ Happ) as [evs [Hout [Hp Hn]]].
      exists evs. split.
      - simpl. rewrite Hout, Hw0, Hn. rewrite <- !app_assoc. simpl.
        rewrite <- !app_assoc. reflexivity.
      - rewrite Hp. apply Permutation_map. symmetry. exact Hperm. }
    exists folders, files.
    destruct yes; simpl in H.
    + exists []. split; [discriminate|]. split; [exact Hperm|].
      split; [apply (sorted_by_sorted by_source by_source_total)|].
      split; [apply (sorted_by_sorted by_source by_source_total)|].
      split; [reflexivity|]. right.
      eapply (Finish []); [|exact H].
      simpl. rewrite <- app_assoc. reflexivity.
    + destruct (w_in w) as [|line rest]; [discriminate|]. simpl in H.
      eexists [Prompt _]. split; [discriminate|]. split; [exact Hperm|].
      split; [apply (sorted_by_sorted by_source by_source_total)|].
      split; [apply (sorted_by_sorted by_source by_source_total)|].
      split; [discriminate|].
      destruct (is_yes line); simpl in H.
      * right.
        eapply (Finish [Prompt _]); [|exact H].
        simpl. rewrite <- !app_assoc. reflexivity.
      * left. inversion H; subst; simpl.
        rewrite <- !app_assoc. auto.
Qed.

Lemma run_filenames_output_witness :
  exists actions,
    gather_rename_actions py_format Demo.taken_tree Demo.root
                          default_album_format default_track_format
    = Ok actions
    /\ List.length actions = 2.
Proof.
  destruct (run_filenames_output Demo.Media py_format Demo.root
              default_album_format default_track_format true
              (Demo.world Demo.taken_tree []) _ 0
              ltac:(vm_compute; reflexivity)) as [actions [Hg _]].
  exists actions. split; [exact Hg|].
  vm_compute in Hg. inversion Hg. reflexivity.
Defined.

(** ** The tags read from a file *)

Lemma lookup_set_same (d : dict) (k v : string) :
  Dict.lookup (Dict.set d k v) k = Some v.
Proof.
  induction d as [|[k' v'] d IH]; simpl.
  - rewrite String.eqb_refl. reflexivity.
  - destruct (String.eqb k' k) eqn:E; simpl; rewrite E; [reflexivity | exact IH].
Qed.

Lemma lookup_set_other (d : dict) (k k' v : string) :
  k' <> k -> Dict.lookup (Dict.set d k v) k' = Dict.lookup d k'.
Proof.
  intros Hne. induction d as [|[k0 v0] d IH]; simpl.
  - apply String.eqb_neq in Hne. rewrite String.eqb_sym, Hne. reflexivity.
  - destruct (String.eqb k0 k) eqn:E; simpl.
    + apply String.eqb_eq in E. subst k0.
      apply String.eqb_neq in Hne. rewrite String.eqb_sym, Hne. reflexivity.
    + rewrite IH. reflexivity.
Qed.

Lemma mem_in (x : string) (l : list string) : mem x l = true <-> In x l.
Proof.
  induction l as [|y l IH]; simpl; [split; [discriminate | contradiction]|].
  rewrite orb_true_iff, String.eqb_eq, IH. split; intros [H|H]; auto.
Qed.

Lemma read_tag_lookup {C} (codec : Codec C) (h : Handle codec) (cur : dict)
    (key k : string) :
  Dict.lookup (read_tag codec h cur key) k
  = if String.eqb k key
    then match tag_text (codec_get codec h key) with
         | Some v => Some v
         | None => Dict.lookup cur k
         end
    else Dict.lookup cur k.
Proof.
  unfold read_tag, tag_text.
  destruct (String.eqb_spec k key) as [->|Hne].
  - destruct (codec_get codec h key) as [|[|x l]|s|];
      try reflexivity; apply lookup_set_same.
  - destruct (codec_get codec h key) as [|[|x l]|s|];
      try reflexivity; apply lookup_set_other; exact Hne.
Qed.

Lemma read_tags_lookup {C} (codec : Codec C) (h : Handle codec)
    (keys : list string) :
  forall (cur : dict) (k : string),
    Dict.lookup (fold_left (read_tag codec h) keys cur) k
    = if mem k keys
      then match tag_text (codec_get codec h k) with
           | Some v => Some v
           | None => Dict.lookup cur k
           end
      else Dict.lookup cur k.
Proof.
  induction keys as [|key keys IH]; intros cur k; simpl; [reflexivity|].
  rewrite IH, read_tag_lookup.
  destruct (String.eqb_spec k key) as [->|Hne]; simpl.
  - destruct (tag_text (codec_get codec h key)); destruct (mem key keys);
      reflexivity.
  - reflexivity.
Qed.

(** X6. [read_current_tags] raises exactly when the codec raises on the
    file.  For a file whose format the codec does not know it returns the
    empty mapping.  Otherwise the mapping it returns has a value for a key
    exactly when the key was asked for and the codec holds a list or a text
    under it: the first element of the list (the empty text for an empty
    list) or the text itself; a key asked for twice is read once. *)
Theorem read_current_tags_spec :
  forall (C : Type) (codec : Codec C) (fs : FS C) (path : Path)
         (keys : list string),
    match mutagen_file codec fs path with
    | Raise e => read_current_tags codec fs path keys = Raise e
    | Ok None => read_current_tags codec fs path keys = Ok []
    | Ok (Some h) =>
        exists cur,
          read_current_tags codec fs path keys = Ok cur
          /\ (forall k,
                 Dict.lookup cur k
                 = if mem k keys then tag_text (codec_get codec h k) else None)
          /\ NoDup (Dict.keys cur)
    end.
Proof.
  intros C codec fs path keys. unfold read_current_tags.
  destruct (mutagen_file codec fs path) as [[h|]|e]; simpl; try reflexivity.
  eexists. split; [reflexivity|]. split.
  - intros k. rewrite read_tags_lookup. simpl.
    destruct (mem k keys); [|reflexivity].
    destruct (tag_text (codec_get codec h k)); reflexivity.
  - assert (Hset : forall d k v, NoDup (Dict.keys d) -> NoDup (Dict.keys (Dict.set d k v))).
    { clear. intros d k v. unfold Dict.keys.
      induction d as [|[k0 v0] d IH]; simpl; intros Hnd.
      - constructor; [intros [] | constructor].
      - inversion Hnd as [|? ? Hnotin Hnd']; subst.
        destruct (String.eqb k0 k) eqn:E; simpl.
        + constructor; assumption.
        + constructor; [|apply IH, Hnd'].
          intros Hin. apply Hnotin. clear - Hin E.
          induction d as [|[k1 v1] d IH]; simpl in *.
          * destruct Hin as [->|[]]. rewrite String.eqb_refl in E. discriminate.
          * destruct (String.eqb k1 k) eqn:E1; simpl in Hin.
            -- exact Hin.
            -- destruct Hin as [->|Hin]; [left; reflexivity | right; apply IH, Hin]. }
    assert (Hfold : forall ks d, NoDup (Dict.keys d) ->
                     NoDup (Dict.keys (fold_left (read_tag codec h) ks d))).
    { induction ks as [|key ks IH]; intros d Hd; simpl; [exact Hd|].
      apply IH. unfold read_tag.
      destruct (codec_get codec h key) as [|l|s|]; try exact Hd;
        apply Hset, Hd. }
    apply Hfold. constructor.
Qed.

(** ** Writing tags *)

Lemma write_paths {C} (fs : FS C) (p : Path) (c : C) :
  map fst (Fs.write fs p c) = map fst fs.
Proof.
  induction fs as [|[q n] fs IH]; simpl; [reflexivity|].
  destruct (PathLib.path_eqb q p); simpl; [reflexivity | rewrite IH; reflexivity].
Qed.

Lemma lookup_write_other {C} (fs : FS C) (p q : Path) (c : C) :
  q <> p -> Fs.lookup (Fs.write fs p c) q = Fs.lookup fs q.
Proof.
  intros Hne. induction fs as [|[r n] fs IH]; simpl; [reflexivity|].
  destruct (PathLib.path_eqb r p) eqn:E; simpl.
  - apply path_eqb_eq in E. subst r.
    apply not_eq_sym, path_eqb_neq in Hne. rewrite Hne. reflexivity.
  - rewrite IH. reflexivity.
Qed.

Lemma lookup_write_same {C} (fs : FS C) (p : Path) (c0 c : C) :
  Fs.lookup fs p = Some (File c0) ->
  Fs.lookup (Fs.write fs p c) p = Some (File c).
Proof.
  induction fs as [|[r n] fs IH]; simpl; [discriminate|].
  destruct (PathLib.path_eqb r p) eqn:E; simpl; rewrite E.
  - intros H; inversion H; subst. reflexivity.
  - exact IH.
Qed.

Lemma write_kinds {C} (fs : FS C) (p q : Path) (c : C) :
  Fs.is_dir (Fs.write fs p c) q = Fs.is_dir fs q
  /\ Fs.is_file (Fs.write fs p c) q = Fs.is_file fs q.
Proof.
  assert (H : match Fs.lookup (Fs.write fs p c) q, Fs.lookup fs q with
              | Some Dir, Some Dir | Some (File _), Some (File _)
              | None, None => True
              | _, _ => False
              end).
  { induction fs as [|[r n] fs IH]; simpl; [exact I|].
    destruct (PathLib.path_eqb r p) eqn:E; simpl.
    - destruct (PathLib.path_eqb r q); [destruct n; exact I|].
      destruct (Fs.lookup fs q) as [[|x]|]; exact I.
    - destruct (PathLib.path_eqb r q); [destruct n; exact I | exact IH]. }
  unfold Fs.is_dir, Fs.is_file.
  destruct (Fs.lookup (Fs.write fs p c) q) as [[|x]|];
    destruct (Fs.lookup fs q) as [[|y]|]; try contradiction;
    split; destruct q; reflexivity.
Qed.

(** The three ways one turn of the loop of [apply_metadata_actions] ends. *)
Lemma metadata_step_inv {C} (codec : Codec C) (root : Path)
    (a : MetadataAction) (k : nat) (w w1 : World C) (r : result nat) :
  metadata_step codec root a k w = (w1, r) ->
  (w1 = w /\ exists e, r = Raise e)
  \/ (mutagen_file codec (w_fs w) (PathLib.joinpath root (file_path a)) = Ok None
      /\ w1 = say (SkipUnsupported a) w /\ r = Ok k)
  \/ (exists h h' c,
        mutagen_file codec (w_fs w) (PathLib.joinpath root (file_path a))
        = Ok (Some h)
        /\ set_all codec h (updates a) = Ok h'
        /\ codec_save codec h' = Ok c
        /\ w1 = mkWorld (Fs.write (w_fs w)
                           (PathLib.joinpath root (file_path a)) c)
                        (w_out w ++ [Tagged a]) (w_in w) (w_mutagen w)
        /\ r = Ok (k + 1)).
Proof.
  unfold metadata_step. run_m.
  destruct (mutagen_file codec (w_fs w) _) as [[h|]|e] eqn:Ho; simpl.
  - destruct (set_all codec h (updates a)) as [h'|e] eqn:Hs; simpl.
    + destruct (codec_save codec h') as [c|e] eqn:Hv; simpl.
      * intros H; inversion H; subst. right. right.
        exists h, h', c. auto.
      * intros H; inversion H; subst. left. eauto.
    + intros H; inversion H; subst. left. eauto.
  - intros H; inversion H; subst. right. left. auto.
  - intros H; inversion H; subst. left. eauto.
Qed.

Lemma metadata_loop_frame {C} (codec : Codec C) (root : Path)
    (l : list MetadataAction) :
  forall (k : nat) (w : World C),
    let res := metadata_loop codec root l k w in
    map fst (w_fs (fst res)) = map fst (w_fs w)
    /\ (forall p, Fs.is_dir (w_fs (fst res)) p = Fs.is_dir (w_fs w) p
                  /\ Fs.is_file (w_fs (fst res)) p = Fs.is_file (w_fs w) p)
    /\ (forall p, (forall a, In a l -> PathLib.joinpath root (file_path a) <> p) ->
                  Fs.lookup (w_fs (fst res)) p = Fs.lookup (w_fs w) p)
    /\ w_in (fst res) = w_in w
    /\ exists evs finished,
         w_out (fst res) = w_out w ++ evs
         /\ map metadata_event_action evs = map Some finished
         /\ match snd res with
            | Ok n => finished = l /\ n = k + List.length (filter is_tagged evs)
            | Raise _ => exists a rest, l = finished ++ a :: rest
            end.
Proof.
  induction l as [|a l IH]; intros k w; simpl.
  - repeat split; try reflexivity. exists [], [].
    rewrite app_nil_r. simpl. repeat split; lia.
  - unfold bind.
    destruct (metadata_step codec root a k w) as [w1 r] eqn:Hs.
    apply metadata_step_inv in Hs as [[-> [e ->]]|[[Ho [-> ->]]|Hs]].
    + simpl. repeat split; try reflexivity.
      exists [], []. rewrite app_nil_r. simpl. repeat split. eauto.
    + destruct (IH k (say (SkipUnsupported a) w))
        as [I1 [I2 [I3 [I4 [evs [fin [Hout [Hmap Hres]]]]]]]].
      simpl in *. split; [exact I1|]. split; [exact I2|].
      split; [intros p Hp; apply I3; intros b Hb; apply Hp; right; exact Hb|].
      split; [exact I4|].
      exists (SkipUnsupported a :: evs), (a :: fin).
      rewrite Hout, <- app_assoc. simpl. rewrite Hmap.
      repeat split.
      destruct (snd (metadata_loop codec root l k _)).
      * destruct Hres as [-> ->]. auto.
      * destruct Hres as [b [rest ->]]. exists b, rest. reflexivity.
    + destruct Hs as [h [h' [c [Ho [Hset [Hsave [-> ->]]]]]]].
      match goal with
      | |- context [metadata_loop codec root l (k + 1) ?x] => set (w1 := x)
      end.
      destruct (IH (k + 1) w1)
        as [I1 [I2 [I3 [I4 [evs [fin [Hout [Hmap Hres]]]]]]]].
      simpl in *.
      split; [rewrite I1; unfold w1; simpl; apply write_paths|].
      split.
      { intros p. destruct (I2 p) as [J1 J2]. rewrite J1, J2.
        unfold w1; simpl. apply write_kinds. }
      split.
      { intros p Hp. rewrite I3.
        - unfold w1; simpl. apply lookup_write_other.
          apply not_eq_sym, Hp. left; reflexivity.
        - intros b Hb. apply Hp. right; exact Hb. }
      split; [exact I4|].
      exists (Tagged a :: evs), (a :: fin).
      subst w1. simpl in *. rewrite Hout, <- app_assoc. simpl.
      rewrite Hmap. repeat split.
      destruct (snd (metadata_loop codec root l (k + 1) _)).
      * destruct Hres as [-> ->]. split; [reflexivity | lia].
      * destruct Hres as [b [rest ->]]. exists b, rest. reflexivity.
Qed.

Lemma by_file_path_total (a b : MetadataAction) :
  by_file_path a b = true \/ by_file_path b a = true.
Proof. apply String.leb_total. Qed.

(** X7. Whatever the actions and however the run ends,
    [apply_metadata_actions] only rewrites the content of files: the paths
    of the tree, what is a file and what is a directory, every entry that
    is not the file of one of the actions, and the answers still to be read
    stay as they were.  It prints one line per action it got through, in
    ascending order of the text of [file_path]; when it returns, every
    action has its line and the count returned is the number of [OK]
    lines; when it raises, the lines are those of the actions before the
    one that failed, and what was written for them stays written. *)
Theorem apply_metadata_actions_effect :
  forall (C : Type) (codec : Codec C) (root : Path)
         (actions : list MetadataAction) (w : World C),
    let res := apply_metadata_actions codec root actions w in
    map fst (w_fs (fst res)) = map fst (w_fs w)
    /\ (forall p, Fs.is_dir (w_fs (fst res)) p = Fs.is_dir (w_fs w) p
                  /\ Fs.is_file (w_fs (fst res)) p = Fs.is_file (w_fs w) p)
    /\ (forall p,
          (forall a, In a actions -> PathLib.joinpath root (file_path a) <> p) ->
          Fs.lookup (w_fs (fst res)) p = Fs.lookup (w_fs w) p)
    /\ w_in (fst res) = w_in w
    /\ exists evs finished ordered,
         w_out (fst res) = w_out w ++ evs
         /\ map metadata_event_action evs = map Some finished
         /\ Permutation ordered actions
         /\ Sorted (fun a b => by_file_path a b = true) ordered
         /\ match snd res with
            | Ok n =>
                finished = ordered
                /\ n = List.length (filter is_tagged evs)
            | Raise _ => exists a rest, ordered = finished ++ a :: rest
            end.
Proof.
  intros C codec root actions w. unfold apply_metadata_actions.
  destruct (metadata_loop_frame codec root
              (sorted_by by_file_path actions) 0 w)
    as [H1 [H2 [H3 [H4 [evs [fin [Hout [Hmap Hres]]]]]]]].
  cbv zeta. split; [exact H1|]. split; [exact H2|]. split.
  { intros p Hp. apply H3. intros a Ha. apply Hp.
    eapply Permutation_in; [apply (sorted_by_perm by_file_path) | exact Ha]. }
  split; [exact H4|].
  exists evs, fin, (sorted_by by_file_path actions).
  split; [exact Hout|]. split; [exact Hmap|].
  split; [apply sorted_by_perm|].
  split; [apply sorted_by_sorted, by_file_path_total|].
  exact Hres.
Qed.

(** ** Planning again after the tags have been written *)

Lemma mutagen_file_lookup {C} (codec : Codec C) (fs fs' : FS C) (p : Path) :
  Fs.lookup fs' p = Fs.lookup fs p ->
  mutagen_file codec fs' p = mutagen_file codec fs p.
Proof. unfold mutagen_file. intros ->. reflexivity. Qed.

Lemma metadata_action_for_lookup {C} (codec : Codec C) (fs fs' : FS C)
    (root p : Path) :
  Fs.lookup fs' p = Fs.lookup fs p ->
  metadata_action_for codec fs' root p = metadata_action_for codec fs root p.
Proof.
  intros H. unfold metadata_action_for, is_audio_file, Fs.is_file,
    read_current_tags.
  rewrite (mutagen_file_lookup codec fs fs' p H), H. reflexivity.
Qed.

Lemma nodup_keys_filter {A B} (f : A * B -> bool) (l : list (A * B)) :
  NoDup (map fst l) -> NoDup (map fst (filter f l)).
Proof.
  induction l as [|x l IH]; simpl; intros Hnd; [constructor|].
  inversion Hnd as [|? ? Hnotin Hnd']; subst.
  destruct (f x); simpl; [|apply IH, Hnd'].
  constructor; [|apply IH, Hnd'].
  intros Hin. apply Hnotin.
  apply in_map_iff in Hin as [y [Hy Hin]].
  apply filter_In in Hin as [Hin _].
  apply in_map_iff. exists y. split; assumption.
Qed.

Lemma set_all_get {C} (codec : Codec C) (laws : codec_keeps_tags codec)
    (upd : dict) :
  forall h h',
    NoDup (map fst upd) ->
    set_all codec h upd = Ok h' ->
    (forall k v, In (k, v) upd -> tag_text (codec_get codec h' k) = Some v)
    /\ (forall k, ~ In k (map fst upd) ->
                  codec_get codec h' k = codec_get codec h k).
Proof.
  induction upd as [|[k0 v0] upd IH]; simpl; intros h h' Hnd Hset.
  - inversion Hset; subst. split; [contradiction | reflexivity].
  - inversion Hnd as [|? ? Hnotin Hnd']; subst.
    apply rbind_ok in Hset as [h1 [H1 Hrest]].
    destruct (IH h1 h' Hnd' Hrest) as [Hin Hout]. split.
    + intros k v [E|Hkv].
      * inversion E; subst. rewrite Hout by exact Hnotin.
        eapply set_then_get; eassumption.
      * apply Hin, Hkv.
    + intros k Hk. rewrite Hout by tauto.
      eapply set_other_key; [exact laws | exact H1 |]. intros ->. tauto.
Qed.

Lemma joinpath_inj (root p q : Path) :
  PathLib.joinpath root p = PathLib.joinpath root q -> p = q.
Proof. apply app_inv_head. Qed.

(** What a completed run of the loop leaves in each file it was given. *)
Lemma metadata_loop_written {C} (codec : Codec C) (root : Path)
    (l : list MetadataAction) :
  forall (k : nat) (w w' : World C) (n : nat),
    NoDup (map file_path l) ->
    metadata_loop codec root l k w = (w', Ok n) ->
    (forall a, In a l ->
       match mutagen_file codec (w_fs w) (PathLib.joinpath root (file_path a)) with
       | Ok None =>
           Fs.lookup (w_fs w') (PathLib.joinpath root (file_path a))
           = Fs.lookup (w_fs w) (PathLib.joinpath root (file_path a))
       | Ok (Some h) =>
           exists h' c,
             set_all codec h (updates a) = Ok h'
             /\ codec_save codec h' = Ok c
             /\ Fs.lookup (w_fs w') (PathLib.joinpath root (file_path a))
                = Some (File c)
       | Raise _ => False
       end)
    /\ n = k + List.length
                 (filter (fun a => negb (unsupported codec (w_fs w)
                                           (PathLib.joinpath root (file_path a))))
                         l).
Proof.
  induction l as [|a l IH]; intros k w w' n Hnd Hrun.
  - simpl in Hrun. inversion Hrun; subst. simpl.
    split; [contradiction | lia].
  - inversion Hnd as [|? ? Hnotin Hnd']; subst.
    simpl in Hrun. unfold bind in Hrun.
    destruct (metadata_step codec root a k w) as [w1 r] eqn:Hs.
    assert (Hrest_paths :
              forall b, In b l ->
                PathLib.joinpath root (file_path b)
                <> PathLib.joinpath root (file_path a)).
    { intros b Hb E. apply joinpath_inj in E. apply Hnotin.
      rewrite <- E. apply in_map, Hb. }
    pose proof (metadata_loop_frame codec root l) as Hframe.
    apply metadata_step_inv in Hs as [[-> [e ->]]|[[Ho [-> ->]]|Hs]].
    + discriminate.
    + destruct (IH _ _ _ _ Hnd' Hrun) as [Hfiles Hn].
      destruct (Hframe k (say (SkipUnsupported a) w)) as [_ [_ [F3 _]]].
      rewrite Hrun in F3. simpl in *. split.
      * intros b [<-|Hb]; [|apply Hfiles, Hb].
        rewrite Ho. apply F3. exact Hrest_paths.
      * unfold unsupported at 1. rewrite Ho. simpl. exact Hn.
    + destruct Hs as [h [h' [c [Ho [Hset [Hsave [-> ->]]]]]]].
      destruct (IH _ _ _ _ Hnd' Hrun) as [Hfiles Hn].
      match type of Hrun with
      | metadata_loop _ _ _ _ ?x = _ =>
          destruct (Hframe (k + 1) x) as [_ [_ [F3 _]]]
      end.
      rewrite Hrun in F3. simpl in *.
      assert (Hwas : exists c0, Fs.lookup (w_fs w)
                                  (PathLib.joinpath root (file_path a))
                                = Some (File c0)).
      { unfold mutagen_file in Ho.
        destruct (Fs.lookup (w_fs w) _) as [[|c0]|]; try discriminate.
        eauto. }
      destruct Hwas as [c0 Hwas]. split.
      * intros b [<-|Hb].
        -- rewrite Ho. exists h', c. split; [exact Hset|].
           split; [exact Hsave|].
           rewrite F3 by exact Hrest_paths.
           apply (lookup_write_same _ _ c0), Hwas.
        -- specialize (Hfiles b Hb).
           assert (Em : mutagen_file codec
                          (Fs.write (w_fs w)
                             (PathLib.joinpath root (file_path a)) c)
                          (PathLib.joinpath root (file_path b))
                        = mutagen_file codec (w_fs w)
                            (PathLib.joinpath root (file_path b)))
             by (apply mutagen_file_lookup, lookup_write_other,
                   Hrest_paths, Hb).
           rewrite Em in Hfiles. clear Em.
           destruct (mutagen_file codec (w_fs w)
                       (PathLib.joinpath root (file_path b))) as [[hb|]|eb];
             try exact Hfiles.
           rewrite Hfiles. apply lookup_write_other, Hrest_paths, Hb.
      * assert (E :
                  filter (fun a0 => negb (unsupported codec
                            (Fs.write (w_fs w)
                               (PathLib.joinpath root (file_path a)) c)
                            (PathLib.joinpath root (file_path a0)))) l
                  = filter (fun a0 => negb (unsupported codec (w_fs w)
                            (PathLib.joinpath root (file_path a0)))) l).
        { apply filter_ext_in. intros b Hb. unfold unsupported.
          rewrite (mutagen_file_lookup codec (w_fs w)
                     (Fs.write (w_fs w)
                        (PathLib.joinpath root (file_path a)) c)
                     (PathLib.joinpath root (file_path b)))
            by (apply lookup_write_other, Hrest_paths, Hb).
          reflexivity. }
        rewrite Hn, E.
        unfold unsupported at 2. rewrite Ho. simpl. lia.
Qed.

Lemma collect_each_ok {A B} (body : A -> result (option B)) (l : list A)
    (out : list B) (x : A) :
  collect body l = Ok out -> In x l -> exists r, body x = Ok r.
Proof.
  intros H Hin. destruct (body x) as [r|e] eqn:E; [eauto|].
  destruct (collect_raise _ _ _ _ Hin E) as [e' He']. congruence.
Qed.

Lemma flat_map_filter {A B} (f g : A -> list B) (keep : B -> bool)
    (l : list A) :
  (forall x, In x l -> g x = filter keep (f x)) ->
  flat_map g l = filter keep (flat_map f l).
Proof.
  induction l as [|x l IH]; simpl; intros H; [reflexivity|].
  rewrite filter_app, <- IH, <- H; auto.
Qed.

Lemma filter_length_perm {A} (f : A -> bool) (l l' : list A) :
  Permutation l l' ->
  List.length (filter f l) = List.length (filter f l').
Proof.
  induction 1 as [|x l l' _ IH|x y l|l l' l'' _ IH1 _ IH2]; simpl.
  - reflexivity.
  - destruct (f x); simpl; congruence.
  - destruct (f x), (f y); reflexivity.
  - congruence.
Qed.

Lemma derive_keys_nodup (path : Path) (upd : dict) :
  derive_metadata_for_file path = Some upd -> NoDup (map fst upd).
Proof.
  intros H.
  apply derive_metadata_inv in H as [? [? [? [? [? [? [-> _]]]]]]].
  simpl.
  repeat (constructor;
          [simpl; intros Hin;
           repeat (destruct Hin as [Hin|Hin]; [discriminate|]);
           contradiction|]).
  constructor.
Qed.

Lemma effective_nil (upd cur : dict) :
  (forall k v, In (k, v) upd -> Dict.get cur k "" = v) ->
  effective upd cur = [].
Proof.
  unfold effective. induction upd as [|[k v] upd IH]; simpl; intros H;
    [reflexivity|].
  rewrite (H k v (or_introl eq_refl)), String.eqb_refl. simpl.
  apply IH. intros k' v' Hin. apply H. right; exact Hin.
Qed.

(** What the planner finds in a file whose tags have just been written. *)
Lemma written_file_is_settled {C} (codec : Codec C)
    (laws : codec_keeps_tags codec) (fs fs' : FS C) (root p : Path)
    (a : MetadataAction) (h h' : Handle codec) (c : C) :
  metadata_action_for codec fs root p = Ok (Some a) ->
  mutagen_file codec fs p = Ok (Some h) ->
  set_all codec h (updates a) = Ok h' ->
  codec_save codec h' = Ok c ->
  Fs.lookup fs' p = Some (File c) ->
  metadata_action_for codec fs' root p = Ok None.
Proof.
  intros Ha Ho Hset Hsave Hnew.
  apply metadata_action_for_inv in Ha
    as [upd [Haudio [Hd [Hcur [_ [Hupd _]]]]]].
  pose proof (save_then_open laws) as Hso.
  destruct (Hso _ _ Hsave) as [h2 [Hopen Hsame]]. clear Hso.
  pose proof (derive_keys_nodup _ _ Hd) as Hnd.
  assert (Hnd' : NoDup (map fst (updates a))).
  { rewrite Hupd. apply nodup_keys_filter, Hnd. }
  destruct (set_all_get codec laws _ _ _ Hnd' Hset) as [Hin Hout].
  assert (Hcur_h : forall k, In k (map fst upd) ->
            Dict.lookup (current a) k = tag_text (codec_get codec h k)).
  { intros k Hk. unfold read_current_tags in Hcur. rewrite Ho in Hcur.
    simpl in Hcur. inversion Hcur as [E]. rewrite read_tags_lookup.
    apply mem_in in Hk. unfold Dict.keys. rewrite Hk. simpl.
    destruct (tag_text (codec_get codec h k)); reflexivity. }
  unfold metadata_action_for.
  assert (Haudio' : is_audio_file fs' p = true).
  { unfold is_audio_file, Fs.is_file in *. rewrite Hnew.
    apply andb_true_iff in Haudio as [_ ->]. reflexivity. }
  rewrite Haudio', Hd. simpl.
  unfold read_current_tags, mutagen_file. rewrite Hnew, Hopen. simpl.
  rewrite effective_nil; [reflexivity|].
  intros k v Hkv.
  assert (Hk : In k (map fst upd)) by (apply (in_map fst _ _ Hkv)).
  assert (Hnow : Dict.lookup
                   (fold_left (read_tag codec h2) (Dict.keys upd) []) k
                 = tag_text (codec_get codec h' k)).
  { rewrite read_tags_lookup. apply mem_in in Hk. unfold Dict.keys.
    rewrite Hk, Hsame. simpl.
    destruct (tag_text (codec_get codec h' k)); reflexivity. }
  unfold Dict.get. rewrite Hnow.
  destruct (negb (String.eqb (Dict.get (current a) k "") v)) eqn:Hdiff.
  - rewrite (Hin k v); [reflexivity|].
    rewrite Hupd. unfold effective. apply filter_In. split; assumption.
  - apply negb_false_iff, String.eqb_eq in Hdiff.
    rewrite Hout.
    + rewrite <- Hcur_h by exact Hk. exact Hdiff.
    + intros Hkin. apply in_map_iff in Hkin as [[k' v'] [E Hkv']].
      simpl in E. subst k'.
      rewrite Hupd in Hkv'. unfold effective in Hkv'.
      apply filter_In in Hkv' as [Hkv' Hne]. simpl in Hne.
      assert (v' = v).
      { clear - Hnd Hkv Hkv'. induction upd as [|[k0 v0] upd IH];
          [contradiction|].
        simpl in Hnd. inversion Hnd as [|? ? Hnotin Hnd']; subst.
        destruct Hkv as [E|Hkv], Hkv' as [E'|Hkv'].
        - congruence.
        - inversion E; subst. exfalso. apply Hnotin.
          apply (in_map fst _ _ Hkv').
        - inversion E'; subst. exfalso. apply Hnotin.
          apply (in_map fst _ _ Hkv).
        - apply IH; assumption. }
      subst v'. rewrite Hdiff, String.eqb_refl in Hne. discriminate.
Qed.

(** X8. Planning again after the tags have been written.  With a codec
    that reads back what it was given (a key that was set reads as the
    text set, the other keys as before, a saved file opens with the tags
    saved), on a tree that holds no path twice: when [apply_metadata_actions]
    has gone through the plan of [gather_metadata_actions], the next plan
    over the resulting tree holds exactly the actions of the files whose
    format the codec does not know, unchanged and in the same order; every
    other file is settled.  The count returned is the number of the other
    actions.  So a file the codec cannot open is planned with all its
    derived tags at every run and skipped at every apply. *)
Theorem metadata_second_pass :
  forall (C : Type) (codec : Codec C) (root : Path) (w w' : World C)
         (actions : list MetadataAction) (n : nat),
    codec_keeps_tags codec ->
    NoDup (map fst (w_fs w)) ->
    gather_metadata_actions codec (w_fs w) root = Ok actions ->
    apply_metadata_actions codec root actions w = (w', Ok n) ->
    gather_metadata_actions codec (w_fs w') root
    = Ok (filter (fun a => unsupported codec (w_fs w)
                             (PathLib.joinpath root (file_path a)))
                 actions)
    /\ n = List.length
             (filter (fun a => negb (unsupported codec (w_fs w)
                                       (PathLib.joinpath root (file_path a))))
                     actions).
Proof.
  intros C codec root w w' actions n laws Hnd Hplan Hrun.
  unfold gather_metadata_actions in *. unfold apply_metadata_actions in Hrun.
  set (fs := w_fs w) in *.
  assert (Hl : NoDup (Fs.rglob fs root)) by (apply NoDup_filter, Hnd).
  pose proof (collect_flat_map _ _ _ Hplan) as Hacts.
  assert (Hjoin : forall x b,
            metadata_action_for codec fs root x = Ok (Some b) ->
            PathLib.joinpath root (file_path b) = x).
  { intros x b Hb.
    apply metadata_action_for_inv in Hb as [_ [_ [_ [_ [Hrel _]]]]].
    apply relative_to_join, Hrel. }
  assert (Hkeys : NoDup (map file_path actions)).
  { apply (NoDup_map_inv (PathLib.joinpath root)). rewrite map_map, Hacts.
    apply (produced_keys_nodup
             (metadata_action_for codec fs root)
             (fun a => PathLib.joinpath root (file_path a)));
      assumption. }
  pose proof (sorted_by_perm by_file_path actions) as Hperm.
  assert (Hkeys' : NoDup (map file_path (sorted_by by_file_path actions))).
  { eapply Permutation_NoDup; [|exact Hkeys].
    apply Permutation_map, Permutation_sym, Hperm. }
  destruct (metadata_loop_written codec root _ _ _ _ _ Hkeys' Hrun)
    as [Hfiles Hn].
  destruct (metadata_loop_frame codec root
              (sorted_by by_file_path actions) 0 w)
    as [F1 [_ [F3 _]]].
  rewrite Hrun in F1, F3. simpl in F1, F3. fold fs in F1, F3, Hfiles, Hn.
  split.
  - assert (Hrglob : Fs.rglob (w_fs w') root = Fs.rglob fs root)
      by (unfold Fs.rglob; rewrite F1; reflexivity).
    rewrite Hrglob.
    assert (Hpoint : forall x, In x (Fs.rglob fs root) ->
              metadata_action_for codec (w_fs w') root x
              = Ok (match metadata_action_for codec fs root x with
                    | Ok (Some a) =>
                        if unsupported codec fs
                             (PathLib.joinpath root (file_path a))
                        then Some a else None
                    | _ => None
                    end)).
    { intros x Hx.
      destruct (collect_each_ok _ _ _ x Hplan Hx) as [r Hr].
      rewrite Hr. destruct r as [a|].
      - pose proof (Hjoin _ _ Hr) as Hxa. rewrite Hxa.
        assert (Ha : In a (sorted_by by_file_path actions)).
        { eapply Permutation_in; [apply Permutation_sym, Hperm|].
          rewrite Hacts. apply in_flat_map. exists x.
          split; [exact Hx|]. rewrite Hr. left; reflexivity. }
        specialize (Hfiles a Ha). rewrite Hxa in Hfiles.
        unfold unsupported.
        destruct (mutagen_file codec fs x) as [[h|]|e] eqn:Ho.
        + destruct Hfiles as [h' [c [Hset [Hsave Hnew]]]].
          eapply written_file_is_settled; eassumption.
        + rewrite (metadata_action_for_lookup codec fs (w_fs w') root x Hfiles).
          exact Hr.
        + contradiction.
      - rewrite (metadata_action_for_lookup codec fs (w_fs w') root x);
          [exact Hr|].
        apply F3. intros a Ha E.
        assert (Ha' : In a actions)
          by (eapply Permutation_in; [exact Hperm | exact Ha]).
        destruct (collect_in _ _ _ _ Hplan Ha') as [y [_ Hy]].
        rewrite (Hjoin _ _ Hy) in E. subst y. congruence. }
    rewrite collect_all_ok
      by (intros x Hx; rewrite (Hpoint x Hx); reflexivity).
    f_equal. rewrite Hacts. apply flat_map_filter. intros x Hx.
    rewrite (Hpoint x Hx).
    destruct (metadata_action_for codec fs root x) as [[a|]|e];
      try reflexivity.
    simpl.
    destruct (unsupported codec fs (PathLib.joinpath root (file_path a)));
      reflexivity.
  - rewrite Hn. simpl. apply filter_length_perm, Hperm.
Qed.

Lemma demo_codec_keeps_tags : codec_keeps_tags Demo.codec.
Proof.
  constructor; simpl.
  - intros h h' k v H. inversion H; subst. simpl.
    rewrite lookup_set_same. reflexivity.
  - intros h h' k k' vs H Hne. inversion H; subst.
    rewrite lookup_set_other by exact Hne. reflexivity.
  - intros h c H. inversion H; subst. exists h. split; reflexivity.
Qed.

Lemma metadata_second_pass_witness :
  exists actions w' again,
    gather_metadata_actions Demo.codec Demo.healthy_tree Demo.root = Ok actions
    /\ apply_metadata_actions Demo.codec Demo.root actions
         (Demo.world Demo.healthy_tree []) = (w', Ok 1)
    /\ gather_metadata_actions Demo.codec (w_fs w') Demo.root = Ok again
    /\ List.length actions = 2
    /\ List.length again = 1.
Proof.
  eexists. eexists. eexists.
  split; [vm_compute; reflexivity|].
  split; [vm_compute; reflexivity|].
  split.
  - exact (proj1 (metadata_second_pass Demo.Media Demo.codec Demo.root
                    (Demo.world Demo.healthy_tree []) _ _ 1
                    demo_codec_keeps_tags
                    (no_repeat_nodup (map fst Demo.healthy_tree) eq_refl)
                    ltac:(vm_compute; reflexivity)
                    ltac:(vm_compute; reflexivity))).
  - split; reflexivity.
Defined.

(** The preview of the metadata engine lists the files in ascending order
    of their path and the tags of each file in ascending order of the
    key. *)
Example metadata_preview_order :
  w_out (fst (print_metadata_preview
                [ mkMeta ["b.flac"] [("year", "2001"); ("album", "B")]
                         [("album", "A")];
                  mkMeta ["a.flac"] [("date", "2001")] [] ]
                (Demo.world [] [])))
  = [ MetadataPreview
        [ (["a.flac"], [("date", "", "2001")]);
          (["b.flac"], [("album", "A", "B"); ("year", "", "2001")]) ] ].
Proof. reflexivity. Qed.

(** ** The metadata pipeline as a whole *)

Lemma apply_metadata_actions_frame {C} (codec : Codec C) (root : Path)
    (actions : list MetadataAction) (w : World C) :
  let res := apply_metadata_actions codec root actions w in
  map fst (w_fs (fst res)) = map fst (w_fs w)
  /\ w_in (fst res) = w_in w
  /\ exists evs, w_out (fst res) = w_out w ++ evs.
Proof.
  unfold apply_metadata_actions.
  destruct (metadata_loop_frame codec root
              (sorted_by by_file_path actions) 0 w)
    as [H1 [_ [_ [H4 [evs [_ [Hout _]]]]]]].
  cbv zeta. split; [exact H1|]. split; [exact H4|]. eauto.
Qed.

Lemma run_metadata_ends :
  forall (C : Type) (codec : Codec C) (root : Path) (yes : bool)
         (w : World C),
    let res := run_metadata codec root yes w in
    map fst (w_fs (fst res)) = map fst (w_fs w)
    /\ (yes = true -> w_in (fst res) = w_in w)
    /\ exists evs,
         w_out (fst res) = w_out w ++ evs
         /\ match snd res with
            | Ok rc =>
                exists before e,
                  evs = before ++ [e]
                  /\ rc = (if is_metadata_error e then 1 else 0)
                  /\ e <> BadRoot
            | Raise exc =>
                exc = EOFError /\ yes = false /\ w_in w = []
                /\ w_fs (fst res) = w_fs w
                /\ exists actions,
                     gather_metadata_actions codec (w_fs w) root = Ok actions
                     /\ actions <> []
            end.
Proof.
  intros C codec root yes w.
  assert (Happly :
            forall (actions : list MetadataAction) (w0 : World C) (pre : list Event),
              map fst (w_fs w0) = map fst (w_fs w) ->
              w_out w0 = w_out w ++ pre ->
              let res :=
                match apply_metadata_actions codec root actions w0 with
                | (w2, Ok n) => (say (Done n) w2, Ok 0)
                | (w2, Raise exc) => (say (WriteError exc) w2, Ok 1)
                end in
              map fst (w_fs (fst res)) = map fst (w_fs w)
              /\ w_in (fst res) = w_in w0
              /\ exists evs,
                   w_out (fst res) = w_out w ++ evs
                   /\ match snd res with
                      | Ok rc =>
                          exists before e,
                            evs = before ++ [e]
                            /\ rc = (if is_metadata_error e then 1 else 0)
                            /\ e <> BadRoot
                      | Raise exc => False
                      end).
  { intros actions w0 pre Hfs Hout.
    destruct (apply_metadata_actions_frame codec root actions w0)
      as [F1 [F2 [evs Fout]]].
    destruct (apply_metadata_actions codec root actions w0) as [w2 [n|exc]];
      simpl in *.
    - split; [congruence|]. split; [exact F2|].
      exists (pre ++ evs ++ [Done n]).
      split; [rewrite Fout, Hout, <- !app_assoc; reflexivity|].
      exists (pre ++ evs), (Done n). rewrite <- app_assoc. repeat split; discriminate.
    - split; [congruence|]. split; [exact F2|].
      exists (pre ++ evs ++ [WriteError exc]).
      split; [rewrite Fout, Hout, <- !app_assoc; reflexivity|].
      exists (pre ++ evs), (WriteError exc). rewrite <- app_assoc. repeat split; discriminate. }
  unfold run_metadata. run_m.
  destruct (w_mutagen w); simpl.
  - destruct (gather_metadata_actions codec (w_fs w) root)
      as [[|a actions]|exc] eqn:Hg; simpl.
    + split; [reflexivity|]. split; [reflexivity|].
      exists [NoMetadataUpdates].
      split; [reflexivity|]. exists [], NoMetadataUpdates. repeat split; discriminate.
    + set (preview := MetadataPreview
                          (map (fun a0 => (file_path a0, preview_rows a0))
                               (sorted_by by_file_path (a :: actions)))).
      destruct yes; simpl.
      * match goal with
        | |- context [apply_metadata_actions codec root ?l ?w0] =>
            specialize (Happly l w0
                          [preview; Applying]
                          eq_refl);
            destruct (apply_metadata_actions codec root l w0) as [w2 [n|exc]]
        end; simpl in *;
          (destruct Happly as [A1 [A2 A3]];
           [rewrite <- app_assoc; reflexivity|];
           split; [exact A1|]; split; [intros _; exact A2 | exact A3]).
      * destruct (w_in w) as [|line rest] eqn:Hin; simpl.
        -- split; [reflexivity|]. split; [discriminate|]. eexists.
           split; [rewrite <- app_assoc; reflexivity|].
           repeat split. exists (a :: actions).
           split; [reflexivity | discriminate].
        -- destruct (is_yes line); simpl.
           ++ match goal with
              | |- context [apply_metadata_actions codec root ?l ?w0] =>
                  specialize (Happly l w0
                                [preview;
                                 Prompt (String Str.newline
                                   "Apply these metadata changes? [y/N]: ");
                                 Applying]
                                eq_refl);
                  destruct (apply_metadata_actions codec root l w0)
                    as [w2 [n|exc]]
              end; simpl in *;
                (destruct Happly as [A1 [_ A3]];
                 [rewrite <- !app_assoc; reflexivity|];
                 split; [exact A1|]; split; [discriminate | exact A3]).
           ++ split; [reflexivity|]. split; [discriminate|]. eexists.
              split; [rewrite <- !app_assoc; reflexivity|].
              exists [preview;
                      Prompt (String Str.newline
                                "Apply these metadata changes? [y/N]: ")],
                     Aborted. repeat split; discriminate.
    + split; [reflexivity|]. split; [reflexivity|]. exists [ReadError exc].
      split; [reflexivity|]. exists [], (ReadError exc). repeat split; discriminate.
  - split; [reflexivity|]. split; [reflexivity|]. exists [MissingDependency].
    split; [reflexivity|]. exists [], MissingDependency. repeat split; discriminate.
Qed.

(** X9. [run_metadata] lets no exception of the codec or of the file
    system escape: the only exception it can end with is the end of the
    input at the prompt, which takes a run without [--yes], a non-empty
    plan and no line left to read, and leaves the tree as it was.
    Otherwise it returns 0 or 1 after printing at least one line, and it
    returns 1 exactly when the last line printed is one of its three error
    lines (missing dependency, read error, write error).  However it ends,
    the paths of the tree are the same and what it printed before is still
    there; with [--yes] the input is not read. *)
Theorem run_metadata_outcome :
  forall (C : Type) (codec : Codec C) (root : Path) (yes : bool)
         (w : World C),
    let res := run_metadata codec root yes w in
    map fst (w_fs (fst res)) = map fst (w_fs w)
    /\ (yes = true -> w_in (fst res) = w_in w)
    /\ exists evs,
         w_out (fst res) = w_out w ++ evs
         /\ match snd res with
            | Ok rc =>
                exists before e,
                  evs = before ++ [e]
                  /\ rc = (if is_metadata_error e then 1 else 0)
            | Raise exc =>
                exc = EOFError /\ yes = false /\ w_in w = []
                /\ w_fs (fst res) = w_fs w
                /\ exists actions,
                     gather_metadata_actions codec (w_fs w) root = Ok actions
                     /\ actions <> []
            end.
Proof.
  intros C codec root yes w res.
  destruct (run_metadata_ends C codec root yes w) as [H1 [H2 [evs [Hout H]]]].
  split; [exact H1|]. split; [exact H2|].
  exists evs. split; [exact Hout|].
  fold res in H. destruct (snd res) as [rc|exc]; [|exact H].
  destruct H as [before [e [He [Hrc _]]]]. eauto.
Qed.

(** ** From the rename rules to the metadata rules *)

Lemma append_inj_suffix (s1 s2 t1 t2 : string) :
  String.length t1 = String.length t2 ->
  s1 +++ t1 = s2 +++ t2 -> s1 = s2 /\ t1 = t2.
Proof.
  revert s2; induction s1 as [|c s1 IH]; intros s2 Hl H.
  - destruct s2 as [|d s2]; simpl in H; [auto|].
    exfalso. apply (f_equal String.length) in H. simpl in H.
    rewrite length_append in H. lia.
  - destruct s2 as [|d s2]; simpl in H.
    + exfalso. apply (f_equal String.length) in H. simpl in H.
      rewrite length_append in H. lia.
    + inversion H; subst. destruct (IH s2 Hl H2) as [-> ->]. auto.
Qed.

Lemma lstrip_all_space (ws : string) :
  Str.all Str.isspace ws = true -> Str.lstrip ws = "".
Proof.
  induction ws as [|c ws IH]; simpl; [reflexivity|].
  intros H. apply andb_true_iff in H as [-> H]. apply IH, H.
Qed.

Lemma rstrip_all_space (ws : string) :
  Str.all Str.isspace ws = true -> Str.rstrip ws = "".
Proof.
  induction ws as [|c ws IH]; simpl; [reflexivity|].
  intros H. apply andb_true_iff in H as [Hc H].
  rewrite (IH H), Hc. reflexivity.
Qed.

Lemma rstrip_append_space (s ws : string) :
  Str.all Str.isspace ws = true -> Str.rstrip (s +++ ws) = Str.rstrip s.
Proof.
  intros H. induction s as [|c s IH]; simpl.
  - apply rstrip_all_space, H.
  - rewrite IH. reflexivity.
Qed.

Lemma strip_append_space (s ws : string) :
  Str.all Str.isspace ws = true -> Str.strip (s +++ ws) = Str.strip s.
Proof.
  intros H. unfold Str.strip. induction s as [|c s IH]; simpl.
  - rewrite (lstrip_all_space ws H). reflexivity.
  - destruct (Str.isspace c); [exact IH|].
    apply (rstrip_append_space (String c s) ws H).
Qed.

Lemma rstrip_idem (s : string) : Str.rstrip (Str.rstrip s) = Str.rstrip s.
Proof.
  induction s as [|c s IH]; simpl; [reflexivity|].
  destruct (Str.rstrip s) as [|d r] eqn:E.
  - destruct (Str.isspace c) eqn:Hc; simpl; [reflexivity|].
    rewrite Hc. reflexivity.
  - cbn [Str.rstrip] in *. rewrite IH. reflexivity.
Qed.

Lemma rstrip_head (c : ascii) (s : string) :
  Str.isspace c = false ->
  exists r, Str.rstrip (String c s) = String c r.
Proof.
  intros Hc. simpl. destruct (Str.rstrip s); [rewrite Hc|]; eauto.
Qed.

Lemma lstrip_head (s : string) :
  Str.lstrip s = ""
  \/ exists c r, Str.lstrip s = String c r /\ Str.isspace c = false.
Proof.
  induction s as [|c s IH]; simpl; [left; reflexivity|].
  destruct (Str.isspace c) eqn:Hc; [exact IH|].
  right. eauto.
Qed.

Lemma strip_idem (s : string) : Str.strip (Str.strip s) = Str.strip s.
Proof.
  unfold Str.strip.
  destruct (lstrip_head s) as [->|[c [r [-> Hc]]]]; [reflexivity|].
  destruct (rstrip_head c r Hc) as [r' E]. rewrite E.
  cbn [Str.lstrip]. rewrite Hc, <- E. apply rstrip_idem.
Qed.

Lemma all_lstrip (cls : ascii -> bool) (s : string) :
  Str.all cls s = true -> Str.all cls (Str.lstrip s) = true.
Proof.
  induction s as [|c s IH]; simpl; [auto|].
  intros H. destruct (Str.isspace c); [|exact H].
  apply andb_true_iff in H as [_ H]. apply IH, H.
Qed.

Lemma all_rstrip (cls : ascii -> bool) (s : string) :
  Str.all cls s = true -> Str.all cls (Str.rstrip s) = true.
Proof.
  induction s as [|c s IH]; simpl; [auto|].
  intros H. apply andb_true_iff in H as [Hc H]. specialize (IH H).
  destruct (Str.rstrip s) as [|d r].
  - destruct (Str.isspace c); simpl; [reflexivity|].
    rewrite Hc. reflexivity.
  - cbn [Str.all] in *. rewrite Hc, IH. reflexivity.
Qed.

Lemma all_strip (cls : ascii -> bool) (s : string) :
  Str.all cls s = true -> Str.all cls (Str.strip s) = true.
Proof. intros H. apply all_rstrip, all_lstrip, H. Qed.

(** What a match of [ALBUM_PATTERN] consists of. *)
Lemma album_pattern_parts (name : string) (m : Re.captures) :
  Re.re_match ALBUM_PATTERN name = Some m ->
  exists album ws year tail,
    name = album +++ ws +++ String "(" (year +++ String ")" tail)
    /\ m = [("album", album); ("year", year)]
    /\ Str.all Str.isspace ws = true
    /\ String.length year = 4
    /\ Re.at_end tail = true.
Proof.
  unfold Re.re_match, ALBUM_PATTERN. intros H.
  apply match_bol_inv in H as [_ H].
  apply match_rep_inv in H as [album [r1 [E1 [_ [_ [_ H]]]]]].
  apply match_rep_inv in H as [ws [r2 [E2 [Hw [_ [_ H]]]]]].
  apply match_lit_inv in H as [r3 [E3 H]].
  apply match_rep_inv in H as [year [r4 [E4 [_ [Hlo [Hhi H]]]]]].
  apply match_lit_inv in H as [tail [E5 H]].
  apply match_eol_inv in H as [He H].
  simpl in H, Hhi. inversion H.
  exists album, ws, year, tail. subst. repeat split; try assumption; lia.
Qed.

(** [ALBUM_PATTERN] finds a match in a name followed by a blank and a year
    in parentheses. *)
Lemma album_pattern_complete (a y : string) :
  Str.all Str.notnewline a = true ->
  String.length y = 4 -> Str.all Str.isdigit y = true ->
  Re.re_match ALBUM_PATTERN (a +++ " (" +++ y +++ ")") <> None.
Proof.
  intros Ha Hl Hy. unfold Re.re_match, ALBUM_PATTERN.
  change (Re.match_items (Re.Bol :: ?p) None ?s ?m)
    with (Re.match_items p None s m).
  apply match_rep_intro
    with (t := a +++ " ") (rest := String "(" (y +++ ")")).
  - rewrite append_assoc. reflexivity.
  - rewrite all_append, Ha. reflexivity.
  - rewrite length_append. simpl. lia.
  - exact I.
  - apply match_rep_intro with (t := "") (rest := String "(" (y +++ ")"));
      try reflexivity; try (simpl; lia).
    change (Re.match_items (Re.Lit "(" :: ?p) ?prev (String "(" ?s) ?m)
      with (Re.match_items p (Some "("%char) s m).
    apply match_rep_intro with (t := y) (rest := ")");
      try assumption; try reflexivity; try (simpl; lia).
    simpl. discriminate.
Qed.

Lemma album_read_back :
  forall (name new_name : string),
    normalized_album_name py_format name default_album_format
    = Ok (Some new_name) ->
    exists m m',
      Re.re_match ALBUM_DIR_PATTERN name = Some m
      /\ Re.re_match ALBUM_PATTERN new_name = Some m'
      /\ Str.strip (Re.group m' "album") = Str.strip (Re.group m "album")
      /\ Re.group m' "year" = Re.group m "year".
Proof.
  intros name new_name H. unfold normalized_album_name in H.
  destruct (Re.re_match ALBUM_DIR_PATTERN name) as [m|] eqn:Hm;
    [|discriminate].
  rewrite py_format_default_album in H. simpl in H.
  destruct (String.eqb _ name); [discriminate|].
  injection H as Hnew.
  apply album_dir_pattern_parts in Hm
    as [year [ws [ws2 [album [tail [_ [-> [Hy [Hl [_ [_ [Hnn _]]]]]]]]]]]].
  cbn [Re.group String.eqb Ascii.eqb Bool.eqb] in *.
  set (a := Str.strip album) in *.
  assert (Ha : Str.all Str.notnewline a = true) by (apply all_strip, Hnn).
  destruct (Re.re_match ALBUM_PATTERN new_name) as [m'|] eqn:Hm'.
  - exists [("year", year); ("album", album)], m'.
    split; [reflexivity|]. split; [reflexivity|].
    apply album_pattern_parts in Hm'
      as [alb [ws' [yr [tl [Hs [-> [Hw [Hl' He]]]]]]]].
    cbn [Re.group String.eqb Ascii.eqb Bool.eqb].
    rewrite <- Hnew in Hs.
    assert (Htl : tl = "").
    { destruct tl as [|c [|c' tl]]; [reflexivity| |discriminate].
      exfalso. simpl in He. apply Ascii.eqb_eq in He. subst c.
      change (a +++ " (" +++ year +++ ")")
        with (a +++ String " " (String "(" (year +++ ")"))) in Hs.
      assert (E : (a +++ String " " (String "(" year)) +++ ")"
                  = (alb +++ ws' +++ String "(" (yr +++ ")")) +++ String Str.newline "").
      { repeat first [rewrite append_assoc | progress cbn [String.append]].
        exact Hs. }
      apply append_inj_suffix in E as [_ E]; [discriminate | reflexivity]. }
    subst tl.
    assert (E : (a +++ " ") +++ String "(" (year +++ ")")
                = (alb +++ ws') +++ String "(" (yr +++ ")")).
    { repeat first [rewrite append_assoc | progress cbn [String.append]].
      exact Hs. }
    apply append_inj_suffix in E as [E1 E2];
      [|simpl; rewrite !length_append; simpl; lia].
    split.
    + rewrite <- (strip_append_space alb ws' Hw), <- E1.
      rewrite strip_append_space by reflexivity. apply strip_idem.
    + inversion E2 as [E3].
      apply append_inj_suffix in E3 as [E3 _]; [auto | reflexivity].
  - exfalso. rewrite <- Hnew in Hm'.
    apply (album_pattern_complete a year Ha Hl Hy). exact Hm'.
Qed.

(** X10. What the album rule writes, the metadata rule reads back.  When
    [normalized_album_name] renames a folder with the default template,
    [ALBUM_PATTERN] matches the new name, and the album (trimmed, as
    [derive_metadata_for_file] takes it) and the year it finds are the
    trimmed album and the year the rename rule took from the old name. *)
Theorem album_rename_is_read_back :
  forall (name new_name : string),
    normalized_album_name py_format name default_album_format
    = Ok (Some new_name) ->
    exists m m',
      Re.re_match ALBUM_DIR_PATTERN name = Some m
      /\ Re.re_match ALBUM_PATTERN new_name = Some m'
      /\ Str.strip (Re.group m' "album") = Str.strip (Re.group m "album")
      /\ Re.group m' "year" = Re.group m "year".
Proof. exact album_read_back. Qed.

Lemma album_rename_is_read_back_witness :
  exists m m',
    Re.re_match ALBUM_DIR_PATTERN "2001 - Discovery" = Some m
    /\ Re.re_match ALBUM_PATTERN "Discovery (2001)" = Some m'
    /\ Str.strip (Re.group m' "album") = Str.strip (Re.group m "album")
    /\ Re.group m' "year" = Re.group m "year".
Proof.
  apply (album_rename_is_read_back "2001 - Discovery" "Discovery (2001)").
  vm_compute. reflexivity.
Defined.

Lemma zfill_two_digits (n : nat) :
  n < 100 ->
  Str.zfill 2 n
  = String (Str.digit_char (n / 10)) (String (Str.digit_char (n mod 10)) "").
Proof.
  intros H. do 100 (destruct n as [|n]; [reflexivity|]). lia.
Qed.

Lemma repr_acc_step (fuel n : nat) (acc : string) :
  Str.repr_acc (S fuel) n acc
  = if Nat.eqb (n / 10) 0
    then String (Str.digit_char (n mod 10)) acc
    else Str.repr_acc fuel (n / 10) (String (Str.digit_char (n mod 10)) acc).
Proof. reflexivity. Qed.

Lemma repr_acc_length (fuel n : nat) (acc : string) :
  String.length acc <= String.length (Str.repr_acc fuel n acc).
Proof.
  revert n acc; induction fuel as [|fuel IH]; intros n acc; [simpl; lia|].
  rewrite repr_acc_step. destruct (Nat.eqb (n / 10) 0).
  - simpl. lia.
  - etransitivity; [|apply IH]. simpl. lia.
Qed.

Lemma tenth_not_zero (n : nat) : 10 <= n -> Nat.eqb (n / 10) 0 = false.
Proof.
  intros H. apply Nat.eqb_neq. intros E.
  pose proof (Nat.div_mod_eq n 10) as D.
  pose proof (Nat.mod_upper_bound n 10 ltac:(discriminate)) as U.
  rewrite E in D. lia.
Qed.

Lemma zfill_three_digits (n : nat) :
  100 <= n ->
  exists d1 d2 d3 r,
    Str.zfill 2 n = String d1 (String d2 (String d3 r))
    /\ Str.isdigit d3 = true.
Proof.
  intros H.
  assert (Hlen : 3 <= String.length (Str.repr_nat n)).
  { unfold Str.repr_nat.
    replace (S n) with (S (S (S (n - 2)))) by lia.
    rewrite repr_acc_step, tenth_not_zero by lia.
    assert (H10 : 10 <= n / 10).
    { pose proof (Nat.div_mod_eq n 10) as D.
      pose proof (Nat.mod_upper_bound n 10 ltac:(discriminate)) as U. lia. }
    rewrite repr_acc_step, (tenth_not_zero _ H10).
    rewrite repr_acc_step. destruct (Nat.eqb (n / 10 / 10 / 10) 0).
    - simpl. lia.
    - etransitivity; [|apply repr_acc_length]. simpl. lia. }
  pose proof (zfill_digits 2 n) as Hd.
  unfold Str.zfill in *.
  replace (2 - String.length (Str.repr_nat n)) with 0 in * by lia.
  simpl in *.
  destruct (Str.repr_nat n) as [|d1 [|d2 [|d3 r]]]; simpl in Hlen; try lia.
  exists d1, d2, d3, r. split; [reflexivity|].
  simpl in Hd. repeat (apply andb_true_iff in Hd as [? Hd]). assumption.
Qed.

(** The new stem the track rule writes with the default template: two
    digits and a third character, which is a blank when the number is below
    100 and a digit otherwise. *)
Lemma new_stem_shape (stem new_stem : string) :
  normalized_track_name py_format stem default_track_format
  = Ok (Some new_stem) ->
  exists m d1 d2 c3 r,
    Re.re_match TRACK_FILE_PATTERN stem = Some m
    /\ new_stem = String d1 (String d2 (String c3 r))
    /\ Str.isdigit d1 = true /\ Str.isdigit d2 = true
    /\ c3 <> "."%char
    /\ if Nat.ltb (Str.int (Re.group m "num")) 100
       then c3 = " "%char
            /\ Str.zfill 2 (Str.int (Re.group m "num"))
               = String d1 (String d2 "")
       else Str.isdigit c3 = true.
Proof.
  intros H. unfold normalized_track_name in H.
  destruct (Re.re_match TRACK_FILE_PATTERN stem) as [m|]; [|discriminate].
  rewrite py_format_default_track in H. simpl in H.
  destruct (String.eqb _ stem); [discriminate|].
  injection H as <-.
  set (n := Str.int (Re.group m "num")).
  set (title := Str.strip (Re.group m "title")).
  destruct (Nat.ltb n 100) eqn:Hn.
  - pose proof (proj1 (Nat.ltb_lt _ _) Hn) as Hlt.
    pose proof (zfill_two_digits n Hlt) as Hz.
    exists m, (Str.digit_char (n / 10)), (Str.digit_char (n mod 10)),
           " "%char, title.
    split; [reflexivity|]. split; [rewrite Hz; reflexivity|].
    split; [apply digit_char_isdigit, Nat.Div0.div_lt_upper_bound; lia|].
    split; [apply digit_char_isdigit, Nat.mod_upper_bound; discriminate|].
    split; [discriminate|].
    fold n. rewrite Hn. split; [reflexivity | exact Hz].
  - pose proof (proj1 (Nat.ltb_ge _ _) Hn) as Hge.
    destruct (zfill_three_digits n Hge) as [d1 [d2 [d3 [r [E H3]]]]].
    pose proof (zfill_digits 2 n) as Hd. rewrite E in Hd.
    simpl in Hd. apply andb_true_iff in Hd as [H1 Hd].
    apply andb_true_iff in Hd as [H2 _].
    exists m, d1, d2, d3, (r +++ " " +++ title).
    split; [reflexivity|]. split; [rewrite E; reflexivity|].
    split; [exact H1|]. split; [exact H2|].
    split; [intros ->; discriminate|].
    fold n. rewrite Hn. exact H3.
Qed.

(** X11. What the track rule writes, the metadata rule reads back, up to
    track 99.  When [normalized_track_name] renames a stem with the
    default template, [TRACK_PATTERN] matches the new stem exactly when
    the track number is below 100, and the track it finds is then the
    number on two digits.  The new stem of a track numbered 100 or more
    starts with three digits, which [TRACK_PATTERN] does not match: no
    tags are derived for such a file. *)
Theorem track_rename_is_read_back :
  forall (stem new_stem : string),
    normalized_track_name py_format stem default_track_format
    = Ok (Some new_stem) ->
    exists m,
      Re.re_match TRACK_FILE_PATTERN stem = Some m
      /\ Re.re_match TRACK_PATTERN new_stem
         = if Nat.ltb (Str.int (Re.group m "num")) 100
           then Some [("track", Str.zfill 2 (Str.int (Re.group m "num")))]
           else None.
Proof.
  intros stem new_stem H.
  destruct (new_stem_shape stem new_stem H)
    as [m [d1 [d2 [c3 [r [Hm [-> [H1 [H2 [_ Hc]]]]]]]]]].
  exists m. split; [exact Hm|].
  rewrite track_pattern_match by assumption. simpl.
  destruct (Nat.ltb (Str.int (Re.group m "num")) 100).
  - destruct Hc as [-> ->]. reflexivity.
  - rewrite (isdigit_isword _ Hc). reflexivity.
Qed.

Lemma track_rename_is_read_back_witness :
  exists m,
    Re.re_match TRACK_FILE_PATTERN "1 - One More Time" = Some m
    /\ Re.re_match TRACK_PATTERN "01 One More Time"
       = if Nat.ltb (Str.int (Re.group m "num")) 100
         then Some [("track", Str.zfill 2 (Str.int (Re.group m "num")))]
         else None.
Proof.
  apply (track_rename_is_read_back "1 - One More Time" "01 One More Time").
  vm_compute. reflexivity.
Defined.

Lemma rfind_dot_tail (c : ascii) (s : string) (i : nat) :
  c <> "."%char -> PathLib.rfind_dot (String c s) = Some i ->
  exists j, i = S j /\ PathLib.rfind_dot s = Some j.
Proof.
  intros Hc. simpl. destruct (PathLib.rfind_dot s) as [j|].
  - intros H; inversion H. eauto.
  - apply Ascii.eqb_neq in Hc. rewrite Hc. discriminate.
Qed.

(** The stem of a name keeps the first three characters of the name when
    none of them is a dot. *)
Lemma stem_keeps_head (d1 d2 c3 : ascii) (r : string) :
  d1 <> "."%char -> d2 <> "."%char -> c3 <> "."%char ->
  exists r',
    PathLib.name_stem (String d1 (String d2 (String c3 r)))
    = String d1 (String d2 (String c3 r')).
Proof.
  intros H1 H2 H3. unfold PathLib.name_stem, PathLib.suffix_index.
  destruct (PathLib.rfind_dot (String d1 (String d2 (String c3 r))))
    as [i|] eqn:E; [|eauto].
  destruct (_ && _); [|eauto].
  apply rfind_dot_tail in E as [i1 [-> E]]; [|exact H1].
  apply rfind_dot_tail in E as [i2 [-> E]]; [|exact H2].
  apply rfind_dot_tail in E as [i3 [-> E]]; [|exact H3].
  simpl. eauto.
Qed.

Lemma digit_not_dot (c : ascii) : Str.isdigit c = true -> c <> "."%char.
Proof. intros H ->. discriminate. Qed.

(** X12. Tags of a renamed library.  Take an album folder and a track that
    the rename rules rename with the default templates, and put the
    renamed track (with any extension) in the renamed folder under a
    folder [author].  [derive_metadata_for_file] derives tags for that file
    exactly when the track number is below 100 and neither the trimmed
    album nor the trimmed [author] is empty; the tags are then the trimmed
    album and the year the album rule took from the old folder name, the
    track number on two digits, and the trimmed [author]. *)
Theorem renamed_library_derives_tags :
  forall (dir : Path) (author name new_album stem new_stem suffix : string),
    normalized_album_name py_format name default_album_format
    = Ok (Some new_album) ->
    normalized_track_name py_format stem default_track_format
    = Ok (Some new_stem) ->
    exists m t,
      Re.re_match ALBUM_DIR_PATTERN name = Some m
      /\ Re.re_match TRACK_FILE_PATTERN stem = Some t
      /\ let album := Str.strip (Re.group m "album") in
         let year := Re.group m "year" in
         let n := Str.int (Re.group t "num") in
         let who := Str.strip author in
         derive_metadata_for_file
           (dir ++ [author; new_album; new_stem +++ suffix])
         = if Nat.ltb n 100 && negb (Str.is_empty album)
              && negb (Str.is_empty who)
           then Some [ ("album", album); ("date", year); ("year", year);
                       ("tracknumber", Str.zfill 2 n);
                       ("artist", who); ("albumartist", who);
                       ("author", who) ]
           else None.
Proof.
  intros dir author name new_album stem new_stem suffix Ha Ht.
  destruct (album_read_back name new_album Ha)
    as [m [m' [Hm [Hm' [Halb Hyr]]]]].
  destruct (new_stem_shape stem new_stem Ht)
    as [t [d1 [d2 [c3 [r [Hmt [-> [H1 [H2 [H3 Hc]]]]]]]]]].
  exists m, t. split; [exact Hm|]. split; [exact Hmt|]. cbv zeta.
  unfold derive_metadata_for_file.
  change (dir ++ [author; new_album; String d1 (String d2 (String c3 r)) +++ suffix])
    with (dir ++ [author; new_album] ++ [String d1 (String d2 (String c3 r)) +++ suffix]).
  rewrite app_assoc. unfold PathLib.stem.
  rewrite parent_snoc, name_snoc.
  change (dir ++ [author; new_album]) with (dir ++ [author] ++ [new_album]).
  rewrite app_assoc, parent_snoc, !name_snoc, Hm'.
  cbn [String.append].
  destruct (stem_keeps_head d1 d2 c3 (r +++ suffix)
              (digit_not_dot _ H1) (digit_not_dot _ H2) H3) as [r' ->].
  rewrite track_pattern_match by assumption.
  rewrite Halb, Hyr.
  destruct (Nat.ltb (Str.int (Re.group t "num")) 100).
  - destruct Hc as [-> Hz]. rewrite Hz. simpl.
    destruct (Str.is_empty (Str.strip (Re.group m "album")));
      destruct (Str.is_empty (Str.strip author)); reflexivity.
  - simpl. rewrite (isdigit_isword _ Hc). reflexivity.
Qed.

Lemma renamed_library_derives_tags_witness :
  derive_metadata_for_file
    ["music"; "Daft Punk"; "Discovery (2001)"; "01 One More Time.flac"]
  = Some [ ("album", "Discovery"); ("date", "2001"); ("year", "2001");
           ("tracknumber", "01");
           ("artist", "Daft Punk"); ("albumartist", "Daft Punk");
           ("author", "Daft Punk") ].
Proof.
  destruct (renamed_library_derives_tags ["music"] "Daft Punk"
              "2001 - Discovery" "Discovery (2001)"
              "1 - One More Time" "01 One More Time" ".flac"
              ltac:(vm_compute; reflexivity) ltac:(vm_compute; reflexivity))
    as [m [t [Hm [Ht H]]]].
  vm_compute in Hm, Ht.
  injection Hm as <-. injection Ht as <-.
  exact H.
Defined.

(** ** The two pipelines in one run *)

(** X13. [main] with [--apply] and the default templates, on a well-formed
    tree whose root is a directory: the rename pipeline runs to its end
    and returns 0, so the metadata pipeline is always run after it, on the
    tree the renames left; [main] does not raise and does not read the
    input, whatever [--yes] says, and its exit code is that of the metadata
    pipeline: 1 when the last line printed is one of the three error lines
    of [run_metadata], 0 otherwise. *)
Theorem apply_mode_runs_both_pipelines :
  forall (C : Type) (codec : Codec C) (args : Args) (w : World C),
    arg_apply args = true ->
    arg_album_format args = default_album_format ->
    arg_track_format args = default_track_format ->
    Fs.is_dir (w_fs w) (arg_root args) = true ->
    Fs.well_formed (w_fs w) ->
    exists w1 w' rc,
      run_filenames py_format (arg_root args) default_album_format
                    default_track_format true w = (w1, Ok 0)
      /\ run_metadata codec (arg_root args) true w1 = (w', Ok rc)
      /\ main py_format codec false args w = (w', Ok rc)
      /\ w_in w' = w_in w
      /\ exists before e,
           w_out w' = before ++ [e]
           /\ rc = (if is_metadata_error e then 1 else 0).
Proof.
  intros C codec args w Hmode Haf Htf Hdir Hwf.
  destruct (default_run_ok C (arg_root args) w Hwf)
    as [w1 [Hrun [_ [_ Hin]]]].
  pose proof (run_metadata_ends C codec (arg_root args) true w1) as Hmeta.
  destruct (run_metadata codec (arg_root args) true w1) as [w' r] eqn:Hm.
  simpl in Hmeta. destruct Hmeta as [_ [Hin' [evs [Hout Hres]]]].
  destruct r as [rc|exc]; [|destruct Hres as [_ [Hyes _]]; discriminate].
  destruct Hres as [before [e [-> [Hrc _]]]].
  exists w1, w', rc. split; [exact Hrun|]. split; [exact Hm|].
  split.
  - unfold main. run_m.
    rewrite (is_dir_exists _ _ Hdir), Hdir, Hmode, Haf, Htf. simpl.
    rewrite Hrun. simpl. exact Hm.
  - split; [rewrite (Hin' eq_refl); exact Hin|].
    exists (w_out w1 ++ before), e. rewrite Hout, app_assoc. auto.
Qed.

Lemma apply_mode_runs_both_pipelines_witness :
  exists w',
    main py_format Demo.codec false
         (mkArgs true false false Demo.root default_album_format
                 default_track_format false)
         (Demo.world Demo.healthy_tree []) = (w', Ok 0).
Proof.
  destruct (apply_mode_runs_both_pipelines Demo.Media Demo.codec
              (mkArgs true false false Demo.root default_album_format
                      default_track_format false)
              (Demo.world Demo.healthy_tree [])
              eq_refl eq_refl eq_refl eq_refl
              (well_formedb_sound Demo.healthy_tree eq_refl))
    as [w1 [w' [rc [_ [_ [Hmain _]]]]]].
  exists w'. rewrite Hmain.
  vm_compute in Hmain. injection Hmain as _ <-. reflexivity.
Defined.

(** ** A second pass of the track rule *)

Lemma strip_head (s : string) :
  Str.strip s = ""
  \/ exists c r, Str.strip s = String c r /\ Str.isspace c = false.
Proof.
  unfold Str.strip.
  destruct (lstrip_head s) as [->|[c [r [-> Hc]]]]; [left; reflexivity|].
  destruct (rstrip_head c r Hc) as [r' ->]. right. eauto.
Qed.

(** Digits, a blank and a text that does not start with a blank or a dash
    do not read as a number, blanks and a dash. *)
Lemma no_dash_after_number (digits title num ws rest : string) :
  Str.all Str.isdigit digits = true ->
  Str.all Str.isdigit num = true ->
  Str.all Str.isspace ws = true ->
  (title = ""
   \/ exists c r, title = String c r /\ Str.isspace c = false
                  /\ c <> "-"%char) ->
  digits +++ " " +++ title <> num +++ ws +++ String "-" rest.
Proof.
  intros Hd Hn Hw Ht.
  assert (Hblank : forall ws0 rest0,
            Str.all Str.isspace ws0 = true ->
            title <> ws0 +++ String "-" rest0).
  { intros ws0 rest0 Hw0 E. destruct Ht as [->|[c [r [-> [Hc Hdash]]]]].
    - destruct ws0; discriminate.
    - destruct ws0 as [|c0 ws0]; simpl in E; injection E as E1 E2.
      + contradiction.
      + subst c0. simpl in Hw0. rewrite Hc in Hw0. discriminate. }
  assert (Htail : forall ws0 rest0,
            Str.all Str.isspace ws0 = true ->
            " " +++ title <> ws0 +++ String "-" rest0).
  { intros ws0 rest0 Hw0 E.
    destruct ws0 as [|c0 ws0]; simpl in E; [discriminate|].
    injection E as _ E. simpl in Hw0. apply andb_true_iff in Hw0 as [_ Hw0].
    exact (Hblank ws0 rest0 Hw0 E). }
  revert num Hn. induction digits as [|d digits IH]; intros num Hn E.
  - destruct num as [|x num]; simpl in E.
    + apply (Htail ws rest Hw). exact E.
    + inversion E; subst. discriminate.
  - simpl in Hd. apply andb_true_iff in Hd as [Hd1 Hd].
    destruct num as [|x num]; simpl in E.
    + destruct ws as [|c0 ws]; simpl in E; inversion E; subst.
      * discriminate.
      * simpl in Hw. apply andb_true_iff in Hw as [Hc0 _].
        destruct c0 as [[] [] [] [] [] [] [] []]; discriminate.
    + inversion E; subst. simpl in Hn. apply andb_true_iff in Hn as [_ Hn].
      apply (IH Hd num Hn). assumption.
Qed.

(** X14. A second pass of the track rule.  When [normalized_track_name]
    renames a stem with the default template and the trimmed title does not
    begin with a dash, the new stem does not match the track rule any more:
    [normalized_track_name] returns [None] on it and the planner records no
    action for a file so named, so a second run leaves it alone. *)
Theorem track_rule_second_pass :
  forall (stem new_stem : string),
    normalized_track_name py_format stem default_track_format
    = Ok (Some new_stem) ->
    exists m,
      Re.re_match TRACK_FILE_PATTERN stem = Some m
      /\ (Re.head (Str.strip (Re.group m "title")) <> Some "-"%char ->
          Re.re_match TRACK_FILE_PATTERN new_stem = None
          /\ normalized_track_name py_format new_stem default_track_format
             = Ok None
          /\ forall (C : Type) (fs : FS C) (root path : Path),
               PathLib.stem path = new_stem ->
               file_rename_for py_format fs root default_track_format path
               = Ok None).
Proof.
  intros stem new_stem H. unfold normalized_track_name in H.
  destruct (Re.re_match TRACK_FILE_PATTERN stem) as [m|]; [|discriminate].
  exists m. split; [reflexivity|]. intros Hhead.
  rewrite py_format_default_track in H. simpl in H.
  destruct (String.eqb _ stem); [discriminate|].
  injection H as <-.
  set (n := Str.int (Re.group m "num")) in *.
  set (title := Str.strip (Re.group m "title")) in *.
  assert (Hno : Re.re_match TRACK_FILE_PATTERN
                  (Str.zfill 2 n +++ String " " title) = None).
  { destruct (Re.re_match TRACK_FILE_PATTERN _) as [m'|] eqn:E;
      [|reflexivity].
    exfalso.
    apply track_file_pattern_inv in E
      as [num [ws [ws2 [t [tail [Hs [_ [Hn [_ [Hw _]]]]]]]]]].
    apply (no_dash_after_number (Str.zfill 2 n) title num ws
             (ws2 +++ t +++ tail) (zfill_digits 2 n) Hn Hw); [|exact Hs].
    destruct (strip_head (Re.group m "title")) as [E|[c [r [E Hc]]]].
    - left. exact E.
    - right. exists c, r. split; [exact E|]. split; [exact Hc|].
      intros ->. apply Hhead. unfold title. rewrite E. reflexivity. }
  split; [exact Hno|].
  assert (Hn : normalized_track_name py_format
                 (Str.zfill 2 n +++ String " " title) default_track_format
               = Ok None).
  { unfold normalized_track_name. rewrite Hno. reflexivity. }
  split; [exact Hn|].
  intros C fs root path Hp. unfold file_rename_for.
  destruct (negb (Fs.is_file fs path)); [reflexivity|].
  rewrite Hp, Hn. reflexivity.
Qed.

Lemma track_rule_second_pass_witness :
  normalized_track_name py_format "01 One More Time" default_track_format
  = Ok None.
Proof.
  destruct (track_rule_second_pass "1 - One More Time" "01 One More Time"
              ltac:(vm_compute; reflexivity)) as [m [Hm H]].
  vm_compute in Hm. injection Hm as <-.
  apply H. vm_compute. discriminate.
Defined.

(** ** When the metadata planner fails *)

Lemma collect_raise_first {A B} (body : A -> result (option B)) (l : list A)
    (e : exn) :
  collect body l = Raise e ->
  exists before x after,
    l = before ++ x :: after
    /\ body x = Raise e
    /\ forall y, In y before -> is_ok (body y) = true.
Proof.
  induction l as [|x l IH]; simpl; [discriminate|].
  destruct (body x) as [r|e1] eqn:Hx; simpl.
  - destruct (collect body l) as [rs|e2]; simpl; [discriminate|].
    intros H; inversion H; subst.
    destruct (IH eq_refl) as [before [y [after [-> [Hy Hb]]]]].
    exists (x :: before), y, after. split; [reflexivity|].
    split; [exact Hy|].
    intros z [<-|Hz]; [rewrite Hx; reflexivity | apply Hb, Hz].
  - intros H; inversion H; subst. exists [], x, l.
    split; [reflexivity|]. split; [exact Hx|]. intros y [].
Qed.

Lemma metadata_action_for_raises {C} (codec : Codec C) (fs : FS C)
    (root path : Path) :
  PathLib.is_prefix root path = true ->
  match metadata_action_for codec fs root path with
  | Raise e =>
      is_audio_file fs path = true
      /\ derive_metadata_for_file path <> None
      /\ mutagen_file codec fs path = Raise e
  | Ok _ =>
      is_audio_file fs path = true ->
      derive_metadata_for_file path <> None ->
      is_ok (mutagen_file codec fs path) = true
  end.
Proof.
  intros Hpre. unfold metadata_action_for, read_current_tags,
    PathLib.relative_to.
  rewrite Hpre.
  destruct (is_audio_file fs path); simpl; [|discriminate].
  destruct (derive_metadata_for_file path) as [upd|]; [|congruence].
  destruct (mutagen_file codec fs path) as [[h|]|e]; simpl.
  - destruct (effective upd _); reflexivity.
  - destruct (effective upd []); reflexivity.
  - repeat split. discriminate.
Qed.

(** X15. The metadata planner fails only because of the codec.  When
    [gather_metadata_actions] raises, the exception is the one the codec
    raised on opening the first audio file with derivable tags on which it
    raises, the entries before that file having been gone through; paths
    are never the cause.  When the codec opens every audio file with
    derivable tags (as a handle or as an unknown format), the planner
    returns a plan. *)
Theorem metadata_scan_fails_only_on_codec :
  forall (C : Type) (codec : Codec C) (fs : FS C) (root : Path),
    match gather_metadata_actions codec fs root with
    | Raise e =>
        exists before path after,
          Fs.rglob fs root = before ++ path :: after
          /\ is_audio_file fs path = true
          /\ derive_metadata_for_file path <> None
          /\ mutagen_file codec fs path = Raise e
          /\ forall q, In q before ->
               is_ok (metadata_action_for codec fs root q) = true
    | Ok _ =>
        forall path,
          In path (Fs.rglob fs root) ->
          is_audio_file fs path = true ->
          derive_metadata_for_file path <> None ->
          is_ok (mutagen_file codec fs path) = true
    end.
Proof.
  intros C codec fs root. unfold gather_metadata_actions.
  destruct (collect _ _) as [actions|e] eqn:Hc.
  - intros path Hin Haudio Hd.
    destruct (collect_each_ok _ _ _ path Hc Hin) as [r Hr].
    pose proof (metadata_action_for_raises codec fs root path
                  (proj1 (proj2 (rglob_in _ _ _ Hin)))) as H.
    rewrite Hr in H. auto.
  - apply collect_raise_first in Hc
      as [before [path [after [Hl [Hraise Hbefore]]]]].
    exists before, path, after. split; [exact Hl|].
    assert (Hin : In path (Fs.rglob fs root))
      by (rewrite Hl; apply in_or_app; right; left; reflexivity).
    pose proof (metadata_action_for_raises codec fs root path
                  (proj1 (proj2 (rglob_in _ _ _ Hin)))) as H.
    rewrite Hraise in H. destruct H as [H1 [H2 H3]].
    repeat split; assumption.
Qed.

(** ** How the rename pipeline can fail *)

Lemma rename_raises {C} (fs : FS C) (src dst : Path) (e : exn) :
  Fs.rename fs src dst = Raise e -> e = OSError.
Proof.
  unfold Fs.rename. destruct src; [congruence|].
  repeat match goal with
         | |- context [if ?b then _ else _] => destruct b
         end; congruence.
Qed.

Lemma rename_loop_raises {C} (root : Path) (l : list RenameAction) :
  forall (k : nat) (w w' : World C) (e : exn),
    rename_loop root l k w = (w', Raise e) -> e = OSError.
Proof.
  induction l as [|a l IH]; intros k w w' e; simpl; [discriminate|].
  unfold bind. destruct (rename_step root a k w) as [w1 [k1|e1]] eqn:Hs.
  - apply IH.
  - intros H; inversion H; subst. clear H.
    unfold rename_step in Hs. run_m.
    destruct (Fs.exists_ (w_fs w) (PathLib.joinpath root (source a)));
      simpl in Hs; [|discriminate].
    destruct (Fs.exists_ (w_fs w) (PathLib.joinpath root (target a)));
      simpl in Hs; [discriminate|].
    destruct (Fs.rename _ _ _) as [fs'|e1] eqn:Hr; simpl in Hs;
      [discriminate|].
    inversion Hs; subst. apply (rename_raises _ _ _ _ Hr).
Qed.

(** X16. The three ways [run_filenames] can end with an exception.  The
    planner raised (a template that cannot be rendered, or one that renders
    something that is no file name): then nothing has been printed and
    nothing renamed.  Or the input ended at the prompt, in a run without
    [--yes] over a non-empty plan: then the preview and the prompt have
    been printed and nothing renamed.  Or a rename was refused by the file
    system while the plan was applied, after [--yes] or an answer that
    counts as yes: the exception is OSError, and the tree still holds the
    same files with the same contents. *)
Theorem run_filenames_failures :
  forall (C : Type) (fmt : formatter) (root : Path) (af tf : string)
         (yes : bool) (w w' : World C) (e : exn),
    run_filenames fmt root af tf yes w = (w', Raise e) ->
    (gather_rename_actions fmt (w_fs w) root af tf = Raise e /\ w' = w)
    \/ exists actions,
         gather_rename_actions fmt (w_fs w) root af tf = Ok actions
         /\ actions <> []
         /\ ((yes = false /\ w_in w = [] /\ e = EOFError
              /\ w_fs w' = w_fs w
              /\ exists folders files prompt,
                   w_out w' = w_out w ++ [RenamePreview folders files;
                                          Prompt prompt])
             \/ (e = OSError
                 /\ map snd (w_fs w') = map snd (w_fs w)
                 /\ (yes = true
                     \/ exists line rest,
                          w_in w = line :: rest /\ is_yes line = true))).
Proof.
  intros C fmt root af tf yes w w' e. unfold run_filenames. run_m.
  destruct (gather_rename_actions fmt (w_fs w) root af tf)
    as [[|a actions]|e0]; simpl.
  - discriminate.
  - intros H. right. exists (a :: actions).
    split; [reflexivity|]. split; [discriminate|].
    destruct yes; simpl in H.
    + right.
      match type of H with
      | context [apply_rename_actions root ?l ?w0] =>
          pose proof (rename_loop_keeps root
                        (file_actions l ++ dir_actions l) 0 w0) as Hk;
          pose proof (rename_loop_raises root
                        (file_actions l ++ dir_actions l) 0 w0) as Hr;
          unfold apply_rename_actions in H;
          destruct (rename_loop root (file_actions l ++ dir_actions l) 0 w0)
            as [w2 [n|e2]]
      end; simpl in H; [discriminate|].
      inversion H; subst. simpl in Hk. destruct Hk as [Hk _].
      split; [apply (Hr _ _ eq_refl)|]. split; [exact Hk | left; reflexivity].
    + destruct (w_in w) as [|line rest] eqn:Hin; simpl in H.
      * inversion H; subst. left. simpl.
        repeat split. do 3 eexists. rewrite <- app_assoc. reflexivity.
      * destruct (is_yes line) eqn:Hyes; simpl in H; [|discriminate].
        right.
        match type of H with
        | context [apply_rename_actions root ?l ?w0] =>
            pose proof (rename_loop_keeps root
                          (file_actions l ++ dir_actions l) 0 w0) as Hk;
            pose proof (rename_loop_raises root
                          (file_actions l ++ dir_actions l) 0 w0) as Hr;
            unfold apply_rename_actions in H;
            destruct (rename_loop root (file_actions l ++ dir_actions l) 0 w0)
              as [w2 [n|e2]]
        end; simpl in H; [discriminate|].
        inversion H; subst. simpl in Hk. destruct Hk as [Hk _].
        split; [apply (Hr _ _ eq_refl)|]. split; [exact Hk|].
        right. eauto.
  - intros H; inversion H; subst. left. auto.
Qed.

Lemma run_filenames_failures_witness :
  exists actions,
    gather_rename_actions py_format Demo.album_tree Demo.root
                          default_album_format default_track_format
    = Ok actions
    /\ actions <> [].
Proof.
  destruct (run_filenames_failures Demo.Media py_format Demo.root
              default_album_format default_track_format false
              (Demo.world Demo.album_tree []) _ EOFError
              ltac:(vm_compute; reflexivity))
    as [[H _]|[actions [H [Hne _]]]].
  - vm_compute in H. discriminate.
  - exists actions. split; assumption.
Defined.

(** ** The extension of a renamed file *)

Lemma rfind_dot_none (s : string) :
  PathLib.rfind_dot s = None <-> Str.contains "." s = false.
Proof.
  induction s as [|c s IH]; cbn [PathLib.rfind_dot Str.contains]; [tauto|].
  destruct (PathLib.rfind_dot s) as [i|].
  - split; [discriminate|]. intros H.
    apply orb_false_iff in H as [_ H]. apply IH in H. discriminate.
  - rewrite (proj1 IH eq_refl), orb_false_r.
    rewrite (Ascii.eqb_sym "."%char c).
    destruct (Ascii.eqb c "."); split; congruence.
Qed.

Lemma rfind_dot_split (s : string) (i : nat) :
  PathLib.rfind_dot s = Some i ->
  exists pre post,
    s = pre +++ String "." post
    /\ String.length pre = i /\ Str.contains "." post = false.
Proof.
  revert i; induction s as [|c s IH]; intros i; simpl; [discriminate|].
  destruct (PathLib.rfind_dot s) as [j|] eqn:E.
  - intros H; inversion H; subst.
    destruct (IH j eq_refl) as [pre [post [-> [Hl Hp]]]].
    exists (String c pre), post. simpl. auto.
  - destruct (Ascii.eqb_spec c ".") as [->|]; [|discriminate].
    intros H; inversion H; subst.
    exists "", s. simpl. split; [reflexivity|]. split; [reflexivity|].
    apply rfind_dot_none, E.
Qed.

Lemma rfind_dot_app (pre post : string) :
  Str.contains "." post = false ->
  PathLib.rfind_dot (pre +++ String "." post) = Some (String.length pre).
Proof.
  intros H. induction pre as [|c pre IH]; simpl.
  - rewrite (proj2 (rfind_dot_none post) H). reflexivity.
  - simpl in IH. rewrite IH. reflexivity.
Qed.

Lemma substring_all (t : string) :
  String.substring 0 (String.length t) t = t.
Proof.
  induction t as [|c t IH]; simpl; [reflexivity | rewrite IH; reflexivity].
Qed.

Lemma substring_app_r (pre t : string) :
  String.substring (String.length pre) (String.length t) (pre +++ t) = t.
Proof.
  induction pre as [|c pre IH]; simpl; [apply substring_all | exact IH].
Qed.

Lemma substring_app_l (pre t : string) :
  String.substring 0 (String.length pre) (pre +++ t) = pre.
Proof.
  induction pre as [|c pre IH]; simpl.
  - destruct t; reflexivity.
  - rewrite IH. reflexivity.
Qed.

(** A name is its stem alone, or its stem, a dot and an extension without
    dots. *)
Lemma name_split (nm : string) :
  (PathLib.suffix_index nm = None
   /\ PathLib.name_stem nm = nm /\ PathLib.name_suffix nm = "")
  \/ exists pre ext,
       nm = pre +++ String "." ext
       /\ PathLib.name_stem nm = pre
       /\ PathLib.name_suffix nm = String "." ext
       /\ ext <> "" /\ Str.contains "." ext = false.
Proof.
  unfold PathLib.name_stem, PathLib.name_suffix.
  destruct (PathLib.suffix_index nm) as [i|] eqn:E; [|left; auto].
  right. unfold PathLib.suffix_index in E.
  destruct (PathLib.rfind_dot nm) as [j|] eqn:Er; [|discriminate].
  destruct (Nat.ltb 0 j && Nat.ltb j (String.length nm - 1)) eqn:Hc;
    [|discriminate].
  inversion E; subst j. clear E.
  apply andb_true_iff in Hc as [_ Hlt]. apply Nat.ltb_lt in Hlt.
  apply rfind_dot_split in Er as [pre [post [-> [Hl Hp]]]].
  rewrite length_append in *. simpl in *.
  exists pre, post. split; [reflexivity|]. subst i.
  split; [apply substring_app_l|]. split.
  - replace (String.length pre + S (String.length post) - String.length pre)
      with (String.length (String "." post)) by (simpl; lia).
    apply substring_app_r.
  - split; [|exact Hp]. intros ->. simpl in Hlt. lia.
Qed.

Lemma suffix_of_append (pre ext : string) :
  pre <> "" -> ext <> "" -> Str.contains "." ext = false ->
  PathLib.name_suffix (pre +++ String "." ext) = String "." ext.
Proof.
  intros Hpre Hext Hno. unfold PathLib.name_suffix, PathLib.suffix_index.
  rewrite (rfind_dot_app pre ext Hno), length_append. simpl.
  assert (H1 : Nat.ltb 0 (String.length pre) = true)
    by (apply Nat.ltb_lt; destruct pre; [congruence | simpl; lia]).
  assert (H2 : Nat.ltb (String.length pre)
                 (String.length pre + S (String.length ext) - 1) = true)
    by (apply Nat.ltb_lt; destruct ext; [congruence | simpl; lia]).
  rewrite H1, H2. simpl.
  replace (String.length pre + S (String.length ext) - String.length pre)
    with (String.length (String "." ext)) by (simpl; lia).
  apply substring_app_r.
Qed.

Lemma suffix_no_dot (s : string) :
  Str.contains "." s = false -> PathLib.name_suffix s = "".
Proof.
  intros H. unfold PathLib.name_suffix, PathLib.suffix_index.
  rewrite (proj2 (rfind_dot_none s) H). reflexivity.
Qed.

Lemma suffix_final_dot (s : string) :
  PathLib.name_suffix (s +++ ".") = "".
Proof.
  unfold PathLib.name_suffix, PathLib.suffix_index.
  rewrite (rfind_dot_app s "" eq_refl), length_append. simpl.
  replace (Nat.ltb (String.length s) (String.length s + 1 - 1)) with false
    by (symmetry; apply Nat.ltb_ge; lia).
  rewrite andb_false_r. reflexivity.
Qed.

Lemma string_snoc (s : string) :
  s <> "" -> exists s' c, s = s' +++ String c "".
Proof.
  induction s as [|c s IH]; [congruence|]. intros _.
  destruct s as [|d s].
  - exists "", c. reflexivity.
  - destruct (IH ltac:(discriminate)) as [s' [c' E]].
    exists (String c s'), c'. simpl. rewrite <- E. reflexivity.
Qed.

Lemma rstrip_snoc (s : string) (c : ascii) :
  Str.isspace c = false ->
  Str.rstrip (s +++ String c "") = s +++ String c "".
Proof.
  intros Hc. induction s as [|d s IH]; simpl.
  - rewrite Hc. reflexivity.
  - simpl in IH. rewrite IH. destruct s; reflexivity.
Qed.

Lemma strip_snoc (s : string) (c : ascii) :
  Str.isspace c = false ->
  Str.strip (s +++ String c "") = Str.lstrip s +++ String c "".
Proof.
  intros Hc. unfold Str.strip.
  assert (E : Str.lstrip (s +++ String c "") = Str.lstrip s +++ String c "").
  { induction s as [|d s IH]; simpl; [rewrite Hc; reflexivity|].
    destruct (Str.isspace d); [exact IH | reflexivity]. }
  rewrite E. apply rstrip_snoc, Hc.
Qed.

(** With the default template the new name of a track has the suffix of
    the old one. *)
Lemma new_track_name_suffix (nm new_stem : string) :
  normalized_track_name py_format (PathLib.name_stem nm) default_track_format
  = Ok (Some new_stem) ->
  PathLib.name_suffix (new_stem +++ PathLib.name_suffix nm)
  = PathLib.name_suffix nm.
Proof.
  intros H.
  assert (Hne : new_stem <> "").
  { destruct (new_stem_shape _ _ H) as [_ [d1 [d2 [c3 [r [_ [-> _]]]]]]].
    discriminate. }
  destruct (name_split nm) as [[Hi [Hstem ->]]|[pre [ext [Hnm [Hstem [-> [He Hd]]]]]]].
  - rewrite append_nil_r. rewrite Hstem in H.
    unfold normalized_track_name in H.
    destruct (Re.re_match TRACK_FILE_PATTERN nm) as [m|] eqn:Hm;
      [|discriminate].
    rewrite py_format_default_track in H. simpl in H.
    destruct (String.eqb _ nm); [discriminate|].
    injection H as <-.
    apply track_file_pattern_inv in Hm
      as [num [ws [ws2 [title [tail [Hs [-> [Hn [Hl [Hw [Hw2 [_ [Hlt He]]]]]]]]]]]]].
    cbn [Re.group String.eqb Ascii.eqb Bool.eqb].
    unfold PathLib.suffix_index in Hi.
    destruct (PathLib.rfind_dot nm) as [i|] eqn:Er.
    + destruct (Nat.ltb 0 i && Nat.ltb i (String.length nm - 1)) eqn:Hc;
        [discriminate|].
      apply rfind_dot_split in Er as [pre [post [Hnm [Hpre Hpost]]]].
      apply andb_false_iff in Hc as [Hc|Hc].
      * exfalso. apply Nat.ltb_ge in Hc.
        destruct pre; [|simpl in Hpre; lia].
        rewrite Hnm in Hs. destruct num as [|x num]; [simpl in Hl; lia|].
        simpl in Hs. inversion Hs; subst. simpl in Hn. discriminate.
      * apply Nat.ltb_ge in Hc. rewrite Hnm, length_append in Hc.
        simpl in Hc.
        destruct post; [|simpl in Hc; lia].
        destruct (string_snoc title) as [t' [c Ht]];
          [intros ->; simpl in Hlt; lia|].
        assert (Htail : tail = "" /\ c = "."%char).
        { rewrite Hnm, Ht in Hs.
          destruct tail as [|c1 [|c2 tail]]; [| |discriminate].
          - assert (E : pre +++ "."
                        = (num +++ ws +++ String "-" (ws2 +++ t'))
                          +++ String c "").
            { rewrite Hs.
              repeat first [rewrite append_assoc
                           | progress cbn [String.append]].
              reflexivity. }
            apply append_inj_suffix in E as [_ E]; [|reflexivity].
            inversion E. auto.
          - exfalso. simpl in He. apply Ascii.eqb_eq in He. subst c1.
            assert (E : pre +++ "."
                        = (num +++ ws +++ String "-"
                             (ws2 +++ t' +++ String c ""))
                          +++ String Str.newline "").
            { rewrite Hs.
              repeat first [rewrite append_assoc
                           | progress cbn [String.append]].
              reflexivity. }
            apply append_inj_suffix in E as [_ E]; [|reflexivity].
            discriminate. }
        destruct Htail as [-> ->]. rewrite Ht.
        rewrite strip_snoc by reflexivity.
        change (Str.zfill 2 (Str.int num) +++ String " " (Str.lstrip t' +++ "."))
          with (Str.zfill 2 (Str.int num) +++ (String " " (Str.lstrip t') +++ ".")).
        rewrite <- append_assoc. apply suffix_final_dot.
    + apply suffix_no_dot.
      apply rfind_dot_none in Er. rewrite Hs in Er.
      rewrite contains_append. cbn [Str.contains].
      rewrite (all_not_contains Str.isdigit "." _ eq_refl (zfill_digits 2 _)).
      simpl. apply contains_strip.
      apply (contains_group "." num ws ws2 title tail Er).
  - apply suffix_of_append; assumption.
Qed.

(** X17. A file rename with the default template changes neither the
    folder nor the extension of the file: the target the planner records
    lies in the directory of the source and has the suffix of the source.
    So once the file is at its target, [is_audio_file] says of it what it
    said of the source. *)
Theorem file_rename_keeps_extension :
  forall (C : Type) (fs : FS C) (root path : Path) (a : RenameAction),
    file_rename_for py_format fs root default_track_format path
    = Ok (Some a) ->
    PathLib.suffix (PathLib.joinpath root (target a)) = PathLib.suffix path
    /\ PathLib.parent (PathLib.joinpath root (target a))
       = PathLib.parent path
    /\ forall fs' : FS C,
         Fs.is_file fs' (PathLib.joinpath root (target a)) = true ->
         is_audio_file fs' (PathLib.joinpath root (target a))
         = is_audio_file fs path.
Proof.
  intros C fs root path a H.
  pose proof (file_rename_for_source _ _ _ _ _ _ H) as [_ [Hfile _]].
  unfold file_rename_for in H. rewrite Hfile in H. simpl in H.
  apply rbind_ok in H as [[st|] [Hst H]]; [|discriminate].
  apply rbind_ok in H as [tgt [Htgt H]].
  destruct (negb (PathLib.path_eqb tgt path)); [|discriminate].
  apply rbind_ok in H as [s [Hs H]].
  apply rbind_ok in H as [t [Ht H]].
  inversion H; subst a; simpl. clear H.
  rewrite (relative_to_join _ _ _ Ht).
  apply with_name_inv in Htgt as [_ ->].
  assert (Hsuf : PathLib.suffix (removelast path ++ [st +++ PathLib.suffix path])
                 = PathLib.suffix path).
  { unfold PathLib.suffix at 1 3. rewrite name_snoc.
    apply new_track_name_suffix. exact Hst. }
  split; [exact Hsuf|]. split; [apply parent_snoc|].
  intros fs' Hnew. unfold is_audio_file. rewrite Hnew, Hfile, Hsuf.
  reflexivity.
Qed.

Lemma file_rename_keeps_extension_witness :
  PathLib.suffix (PathLib.joinpath Demo.root (target Demo.track_rename))
  = ".flac".
Proof.
  apply (proj1 (file_rename_keeps_extension Demo.Media Demo.album_tree
                  Demo.root
                  ["music"; "2001 - Discovery"; "1 - One More Time.flac"]
                  Demo.track_rename
                  ltac:(vm_compute; reflexivity))).
Defined.

(** ** The exit code *)

Lemma run_filenames_last_line {C} (fmt : formatter) (root : Path)
    (af tf : string) (yes : bool) (w w' : World C) (rc : nat) :
  run_filenames fmt root af tf yes w = (w', Ok rc) ->
  rc = 0
  /\ exists before e, w_out w' = before ++ [e] /\ is_error_line e = false.
Proof.
  unfold run_filenames, print_rename_preview. run_m.
  destruct (gather_rename_actions fmt (w_fs w) root af tf)
    as [[|a actions]|e0]; simpl; [| |discriminate].
  - intros H; inversion H; subst. split; [reflexivity|].
    exists (w_out w), NothingToRename. auto.
  - assert (Hrun : forall w0 : World C,
              (let (w2, r) := apply_rename_actions root (a :: actions) w0 in
               match r with
               | Ok n => (say (Done n) w2, Ok 0)
               | Raise e => (w2, Raise e)
               end) = (w', Ok rc) ->
              rc = 0
              /\ exists before e,
                   w_out w' = before ++ [e] /\ is_error_line e = false).
    { intros w0 H.
      destruct (apply_rename_actions root (a :: actions) w0) as [w2 [n|e]];
        inversion H; subst.
      split; [reflexivity|]. exists (w_out w2), (Done n). auto. }
    destruct yes; simpl.
    + apply Hrun.
    + destruct (w_in w) as [|line rest]; simpl; [discriminate|].
      destruct (is_yes line); simpl.
      * apply Hrun.
      * intros H; inversion H; subst. split; [reflexivity|].
        eexists. exists Aborted. simpl. split; reflexivity.
Qed.

(** X18. The exit code of [main].  Whenever [main] returns, it has printed
    at least one line, and it returns 1 exactly when the last line it
    printed is an error line (the root is not a directory, the dependency
    is missing, reading or writing the media files failed); in every other
    case (help, nothing to do, aborted, done) it returns 0. *)
Theorem main_exit_code :
  forall (C : Type) (fmt : formatter) (codec : Codec C) (no_args : bool)
         (args : Args) (w w' : World C) (rc : nat),
    main fmt codec no_args args w = (w', Ok rc) ->
    exists before e,
      w_out w' = before ++ [e]
      /\ rc = (if is_error_line e then 1 else 0).
Proof.
  intros C fmt codec no_args args w w' rc.
  assert (Hmeta : forall yes (w0 : World C),
            run_metadata codec (arg_root args) yes w0 = (w', Ok rc) ->
            exists before e,
              w_out w' = before ++ [e]
              /\ rc = (if is_error_line e then 1 else 0)).
  { intros yes w0 H.
    pose proof (run_metadata_ends C codec (arg_root args) yes w0) as Hm.
    rewrite H in Hm. simpl in Hm.
    destruct Hm as [_ [_ [evs [Hout [before [e [-> [Hrc Hne]]]]]]]].
    exists (w_out w0 ++ before), e. rewrite Hout, app_assoc.
    split; [reflexivity|]. rewrite Hrc.
    destruct e; try reflexivity. congruence. }
  assert (Hfiles : forall yes (w0 : World C),
            run_filenames fmt (arg_root args) (arg_album_format args)
                          (arg_track_format args) yes w0 = (w', Ok rc) ->
            exists before e,
              w_out w' = before ++ [e]
              /\ rc = (if is_error_line e then 1 else 0)).
  { intros yes w0 H.
    apply run_filenames_last_line in H as [-> [before [e [Hout He]]]].
    exists before, e. rewrite He. auto. }
  unfold main. run_m.
  destruct no_args; simpl.
  - intros H; inversion H; subst. exists (w_out w), Help. auto.
  - destruct (negb (Fs.exists_ (w_fs w) (arg_root args))
              || negb (Fs.is_dir (w_fs w) (arg_root args))); simpl.
    + intros H; inversion H; subst. exists (w_out w), BadRoot. auto.
    + destruct (arg_apply args); simpl.
      * destruct (run_filenames fmt (arg_root args) (arg_album_format args)
                    (arg_track_format args) true w) as [w1 [rc1|e1]] eqn:Hr;
          simpl; [|discriminate].
        pose proof (run_filenames_last_line _ _ _ _ _ _ _ _ Hr) as [-> _].
        simpl. apply Hmeta.
      * destruct (arg_filenames args); simpl; [apply Hfiles|].
        destruct (arg_metadata args); simpl; [apply Hmeta|].
        intros H; inversion H; subst. exists (w_out w), Help. auto.
Qed.

Lemma main_exit_code_witness :
  exists w',
    main py_format Demo.codec false
         (mkArgs false false true Demo.root default_album_format
                 default_track_format true)
         (Demo.world Demo.tagged_tree []) = (w', Ok 1)
    /\ exists before e, w_out w' = before ++ [e] /\ is_error_line e = true.
Proof.
  eexists. split; [vm_compute; reflexivity|].
  destruct (main_exit_code Demo.Media py_format Demo.codec false
              (mkArgs false false true Demo.root default_album_format
                      default_track_format true)
              (Demo.world Demo.tagged_tree []) _ 1
              ltac:(vm_compute; reflexivity)) as [before [e [Hout Hrc]]].
  exists before, e. split; [exact Hout|].
  destruct (is_error_line e); [reflexivity | discriminate].
Defined.

(** ** What the metadata planner records *)

(** C3. The plan of the metadata planner is what the body of its loop
    records for each entry below the root, in the order of the
    enumeration.  An entry that is not an audio file, or for which no tags
    are derived, gets no action.  For every audio file with derived tags
    the current tags are read, and the difference is made of the derived
    pairs, in their order, whose value is not the one currently stored
    under that key, a key with no stored value counting as different: when
    the difference is empty the file gets no action; when it is not, the
    file gets exactly one kind of action, which is in the plan, with the
    path of the file relative to the root, the difference as [updates] and
    the tags read as [current].  So no recorded action has empty
    [updates], and every recorded action is of that form. *)
Theorem metadata_updates_are_the_difference :
  forall (C : Type) (codec : Codec C) (fs : FS C) (root : Path)
         (actions : list MetadataAction),
    gather_metadata_actions codec fs root = Ok actions ->
    actions = flat_map (fun path => produced (metadata_action_for codec fs root path))
                       (Fs.rglob fs root)
    /\ (forall a, In a actions ->
          updates a <> []
          /\ exists path upd,
               In path (Fs.rglob fs root)
               /\ PathLib.relative_to path root = Ok (file_path a)
               /\ derive_metadata_for_file path = Some upd
               /\ read_current_tags codec fs path (Dict.keys upd)
                  = Ok (current a)
               /\ forall k v,
                    In (k, v) (updates a)
                    <-> In (k, v) upd /\ Dict.lookup (current a) k <> Some v)
    /\ (forall path upd cur,
          derive_metadata_for_file path = Some upd ->
          read_current_tags codec fs path (Dict.keys upd) = Ok cur ->
          (forall k v, In (k, v) upd -> Dict.lookup cur k = Some v) ->
          metadata_action_for codec fs root path = Ok None)
    /\ (forall path,
          is_audio_file fs path = false
          \/ derive_metadata_for_file path = None ->
          metadata_action_for codec fs root path = Ok None)
    /\ (forall path upd,
          In path (Fs.rglob fs root) ->
          is_audio_file fs path = true ->
          derive_metadata_for_file path = Some upd ->
          exists cur rel,
            read_current_tags codec fs path (Dict.keys upd) = Ok cur
            /\ PathLib.relative_to path root = Ok rel
            /\ let difference :=
                 filter (fun kv => match Dict.lookup cur (fst kv) with
                                   | Some stored => negb (String.eqb stored (snd kv))
                                   | None => true
                                   end)
                        upd in
               metadata_action_for codec fs root path
               = Ok (match difference with
                     | [] => None
                     | _ => Some (mkMeta rel difference cur)
                     end)
               /\ (difference <> [] -> In (mkMeta rel difference cur) actions)
               /\ (forall a, In a actions -> file_path a = rel ->
                      difference <> [] /\ a = mkMeta rel difference cur)).
Proof.
  intros C codec fs root actions H. unfold gather_metadata_actions in H.
  split; [apply collect_flat_map, H|].
  split; [|split; [|split]].
  - intros a Ha.
    destruct (collect_in _ _ _ _ H Ha) as [path [Hin Hp]].
    apply metadata_action_for_inv in Hp
      as [upd [_ [Hd [Hcur [Hrel [Hupd Hne]]]]]].
    split; [exact Hne|].
    exists path, upd.
    split; [exact Hin|]. split; [exact Hrel|]. split; [exact Hd|].
    split; [exact Hcur|].
    intros k v. rewrite Hupd. apply effective_in with (path := path). exact Hd.
  - intros path upd cur Hd Hcur Hsame.
    unfold metadata_action_for.
    destruct (is_audio_file fs path); simpl; [|reflexivity].
    rewrite Hd, Hcur. simpl.
    destruct (effective upd cur) as [|[k v] eff] eqn:He; [reflexivity|].
    assert (Hin : In (k, v) (effective upd cur)) by (rewrite He; left; reflexivity).
    apply (effective_in path upd cur k v Hd) in Hin as [Hin Hne].
    exfalso. apply Hne, Hsame, Hin.
  - intros path [Ha|Hd]; unfold metadata_action_for.
    + rewrite Ha. reflexivity.
    + destruct (negb (is_audio_file fs path)); [reflexivity|].
      rewrite Hd. reflexivity.
  - intros path upd Hin Haudio Hd.
    destruct (collect_each_ok _ _ _ path H Hin) as [r Hr].
    assert (Hrel : PathLib.relative_to path root
                   = Ok (skipn (List.length root) path)).
    { unfold PathLib.relative_to.
      rewrite (proj1 (proj2 (rglob_in _ _ _ Hin))). reflexivity. }
    pose proof Hr as Hbody. unfold metadata_action_for in Hbody.
    rewrite Haudio, Hd in Hbody. simpl in Hbody.
    destruct (read_current_tags codec fs path (Dict.keys upd)) as [cur|e]
      eqn:Hcur; [|discriminate].
    clear Hbody.
    exists cur, (skipn (List.length root) path).
    split; [reflexivity|]. split; [exact Hrel|]. cbv zeta.
    assert (Hdiff : filter (fun kv => match Dict.lookup cur (fst kv) with
                                      | Some stored =>
                                          negb (String.eqb stored (snd kv))
                                      | None => true
                                      end) upd
                    = effective upd cur).
    { unfold effective. apply filter_ext_in. intros [k v] Hkv. simpl.
      unfold Dict.get. destruct (Dict.lookup cur k) as [stored|];
        [reflexivity|].
      symmetry. apply negb_true_iff, String.eqb_neq. intros E.
      apply (derive_values_nonempty path upd Hd k v Hkv). auto. }
    rewrite Hdiff.
    assert (Hmaf : metadata_action_for codec fs root path
                   = Ok (match effective upd cur with
                         | [] => None
                         | _ => Some (mkMeta (skipn (List.length root) path)
                                             (effective upd cur) cur)
                         end)).
    { unfold metadata_action_for. rewrite Haudio, Hd, Hcur. simpl.
      destruct (effective upd cur); [reflexivity|].
      rewrite Hrel. reflexivity. }
    split; [exact Hmaf|]. split.
    + intros Hne. rewrite (collect_flat_map _ _ _ H).
      apply in_flat_map. exists path. split; [exact Hin|].
      rewrite Hmaf. destruct (effective upd cur); [contradiction|].
      left; reflexivity.
    + intros a Ha Hfp.
      destruct (collect_in _ _ _ _ H Ha) as [path' [_ Hp']].
      pose proof Hp' as Hinv.
      apply metadata_action_for_inv in Hinv as [_ [_ [_ [_ [Hrel' _]]]]].
      rewrite Hfp in Hrel'.
      rewrite (relative_to_inj _ _ _ _ Hrel' Hrel) in Hp'.
      rewrite Hmaf in Hp'.
      destruct (effective upd cur); [discriminate|].
      inversion Hp'. split; [discriminate | reflexivity].
Qed.

Lemma metadata_updates_are_the_difference_witness :
  exists actions,
    gather_metadata_actions Demo.codec Demo.healthy_tree Demo.root = Ok actions
    /\ map updates actions
       = [ [ ("date", "2001"); ("year", "2001"); ("tracknumber", "02");
             ("artist", "Daft Punk"); ("albumartist", "Daft Punk");
             ("author", "Daft Punk") ];
           [ ("album", "Discovery"); ("date", "2001"); ("year", "2001");
             ("tracknumber", "03"); ("artist", "Daft Punk");
             ("albumartist", "Daft Punk"); ("author", "Daft Punk") ] ]
    /\ (forall a, In a actions -> updates a <> [])
    /\ In (mkMeta ["Daft Punk"; "Discovery (2001)"; "02 Aerodynamic.flac"]
                  [ ("date", "2001"); ("year", "2001"); ("tracknumber", "02");
                    ("artist", "Daft Punk"); ("albumartist", "Daft Punk");
                    ("author", "Daft Punk") ]
                  [ ("album", "Discovery") ])
          actions.
Proof.
  eexists. split; [vm_compute; reflexivity|]. split; [reflexivity|].
  pose proof (metadata_updates_are_the_difference
                Demo.Media Demo.codec Demo.healthy_tree Demo.root _
                ltac:(vm_compute; reflexivity)) as [_ [T2 [_ [_ T5]]]].
  split.
  - intros a Ha. apply (proj1 (T2 a Ha)).
  - destruct (T5 ["music"; "Daft Punk"; "Discovery (2001)"; "02 Aerodynamic.flac"]
                 _ ltac:(vm_compute; auto) ltac:(vm_compute; reflexivity)
                 ltac:(vm_compute; reflexivity))
      as [cur [rel [Hcur [Hrel [_ [Hplan _]]]]]].
    vm_compute in Hcur, Hrel.
    injection Hcur as <-. injection Hrel as <-.
    apply Hplan. vm_compute. discriminate.
Defined.
